(** * F5-TTS FastAPI service: the text normaliser and the request handler

    A shallow embedding of [main.py].  The part of the program that is
    specified precisely is the text normaliser: [gen_text.lower()] followed by
    [traducir_numero_a_texto] (three [re.sub] passes, the last one calling
    [num2words(int(numero), lang='es')] on every match).  The request handler
    [generate_audio] and [infer] are embedded in a state-and-exception monad
    over the collaborators they call.

    Text.  A Python [str] is a sequence of code points, and so is a [text]
    here: a character is its code point, a number.  The classes of the [re]
    module ([\d], [\w]), [str.isalpha] and [str.lower] are those of CPython
    3.11, whose tables follow Unicode 14.0: they are written out below as
    ranges of code points.  [str.lower] is not a map over the characters: one
    character lower-cases to two, and the capital sigma lower-cases by its
    neighbours. *)

From Stdlib Require Import List ZArith NArith Ascii String Bool Lia PeanoNat
  DecimalString.
Import ListNotations.

(** ** Text *)

Abbreviation char := N (only parsing).

Definition text := list char.

Definition ord (c : char) : N := c.
Definition chr (n : N) : char := n.

(** A literal, written in ASCII. *)
Definition str (s : string) : text := map N_of_ascii (list_ascii_of_string s).

Definition between (lo hi : N) (c : char) : bool :=
  ((lo <=? ord c) && (ord c <=? hi))%N.

Fixpoint in_ranges (ranges : list (N * N)) (c : char) : bool :=
  match ranges with
  | [] => false
  | (lo, hi) :: ranges' => between lo hi c || in_ranges ranges' c
  end.

(** ** The tables of the characters *)

(** The decimal digits, [\d] of a [str] pattern and [str.isdecimal]:
    62 ranges, each a multiple of ten long and starting at a zero. *)
Definition decimal_ranges : list (N * N) :=
  [ (48, 57); (1632, 1641); (1776, 1785); (1984, 1993); (2406, 2415);
    (2534, 2543); (2662, 2671); (2790, 2799); (2918, 2927); (3046, 3055);
    (3174, 3183); (3302, 3311); (3430, 3439); (3558, 3567); (3664, 3673);
    (3792, 3801); (3872, 3881); (4160, 4169); (4240, 4249); (6112, 6121);
    (6160, 6169); (6470, 6479); (6608, 6617); (6784, 6793); (6800, 6809);
    (6992, 7001); (7088, 7097); (7232, 7241); (7248, 7257); (42528, 42537);
    (43216, 43225); (43264, 43273); (43472, 43481); (43504, 43513);
    (43600, 43609); (44016, 44025); (65296, 65305); (66720, 66729);
    (68912, 68921); (69734, 69743); (69872, 69881); (69942, 69951);
    (70096, 70105); (70384, 70393); (70736, 70745); (70864, 70873);
    (71248, 71257); (71360, 71369); (71472, 71481); (71904, 71913);
    (72016, 72025); (72784, 72793); (73040, 73049); (73120, 73129);
    (92768, 92777); (92864, 92873); (93008, 93017); (120782, 120831);
    (123200, 123209); (123632, 123641); (125264, 125273); (130032, 130041) ]%N.

(** The word characters, [\w] of a [str] pattern: [str.isalnum] or the
    underscore. *)
Definition word_ranges : list (N * N) :=
  [ (48, 57); (65, 90); (95, 95); (97, 122); (170, 170); (178, 179);
    (181, 181); (185, 186); (188, 190); (192, 214); (216, 246); (248, 705);
    (710, 721); (736, 740); (748, 748); (750, 750); (880, 884); (886, 887);
    (890, 893); (895, 895); (902, 902); (904, 906); (908, 908); (910, 929);
    (931, 1013); (1015, 1153); (1162, 1327); (1329, 1366); (1369, 1369);
    (1376, 1416); (1488, 1514); (1519, 1522); (1568, 1610); (1632, 1641);
    (1646, 1647); (1649, 1747); (1749, 1749); (1765, 1766); (1774, 1788);
    (1791, 1791); (1808, 1808); (1810, 1839); (1869, 1957); (1969, 1969);
    (1984, 2026); (2036, 2037); (2042, 2042); (2048, 2069); (2074, 2074);
    (2084, 2084); (2088, 2088); (2112, 2136); (2144, 2154); (2160, 2183);
    (2185, 2190); (2208, 2249); (2308, 2361); (2365, 2365); (2384, 2384);
    (2392, 2401); (2406, 2415); (2417, 2432); (2437, 2444); (2447, 2448);
    (2451, 2472); (2474, 2480); (2482, 2482); (2486, 2489); (2493, 2493);
    (2510, 2510); (2524, 2525); (2527, 2529); (2534, 2545); (2548, 2553);
    (2556, 2556); (2565, 2570); (2575, 2576); (2579, 2600); (2602, 2608);
    (2610, 2611); (2613, 2614); (2616, 2617); (2649, 2652); (2654, 2654);
    (2662, 2671); (2674, 2676); (2693, 2701); (2703, 2705); (2707, 2728);
    (2730, 2736); (2738, 2739); (2741, 2745); (2749, 2749); (2768, 2768);
    (2784, 2785); (2790, 2799); (2809, 2809); (2821, 2828); (2831, 2832);
    (2835, 2856); (2858, 2864); (2866, 2867); (2869, 2873); (2877, 2877);
    (2908, 2909); (2911, 2913); (2918, 2927); (2929, 2935); (2947, 2947);
    (2949, 2954); (2958, 2960); (2962, 2965); (2969, 2970); (2972, 2972);
    (2974, 2975); (2979, 2980); (2984, 2986); (2990, 3001); (3024, 3024);
    (3046, 3058); (3077, 3084); (3086, 3088); (3090, 3112); (3114, 3129);
    (3133, 3133); (3160, 3162); (3165, 3165); (3168, 3169); (3174, 3183);
    (3192, 3198); (3200, 3200); (3205, 3212); (3214, 3216); (3218, 3240);
    (3242, 3251); (3253, 3257); (3261, 3261); (3293, 3294); (3296, 3297);
    (3302, 3311); (3313, 3314); (3332, 3340); (3342, 3344); (3346, 3386);
    (3389, 3389); (3406, 3406); (3412, 3414); (3416, 3425); (3430, 3448);
    (3450, 3455); (3461, 3478); (3482, 3505); (3507, 3515); (3517, 3517);
    (3520, 3526); (3558, 3567); (3585, 3632); (3634, 3635); (3648, 3654);
    (3664, 3673); (3713, 3714); (3716, 3716); (3718, 3722); (3724, 3747);
    (3749, 3749); (3751, 3760); (3762, 3763); (3773, 3773); (3776, 3780);
    (3782, 3782); (3792, 3801); (3804, 3807); (3840, 3840); (3872, 3891);
    (3904, 3911); (3913, 3948); (3976, 3980); (4096, 4138); (4159, 4169);
    (4176, 4181); (4186, 4189); (4193, 4193); (4197, 4198); (4206, 4208);
    (4213, 4225); (4238, 4238); (4240, 4249); (4256, 4293); (4295, 4295);
    (4301, 4301); (4304, 4346); (4348, 4680); (4682, 4685); (4688, 4694);
    (4696, 4696); (4698, 4701); (4704, 4744); (4746, 4749); (4752, 4784);
    (4786, 4789); (4792, 4798); (4800, 4800); (4802, 4805); (4808, 4822);
    (4824, 4880); (4882, 4885); (4888, 4954); (4969, 4988); (4992, 5007);
    (5024, 5109); (5112, 5117); (5121, 5740); (5743, 5759); (5761, 5786);
    (5792, 5866); (5870, 5880); (5888, 5905); (5919, 5937); (5952, 5969);
    (5984, 5996); (5998, 6000); (6016, 6067); (6103, 6103); (6108, 6108);
    (6112, 6121); (6128, 6137); (6160, 6169); (6176, 6264); (6272, 6276);
    (6279, 6312); (6314, 6314); (6320, 6389); (6400, 6430); (6470, 6509);
    (6512, 6516); (6528, 6571); (6576, 6601); (6608, 6618); (6656, 6678);
    (6688, 6740); (6784, 6793); (6800, 6809); (6823, 6823); (6917, 6963);
    (6981, 6988); (6992, 7001); (7043, 7072); (7086, 7141); (7168, 7203);
    (7232, 7241); (7245, 7293); (7296, 7304); (7312, 7354); (7357, 7359);
    (7401, 7404); (7406, 7411); (7413, 7414); (7418, 7418); (7424, 7615);
    (7680, 7957); (7960, 7965); (7968, 8005); (8008, 8013); (8016, 8023);
    (8025, 8025); (8027, 8027); (8029, 8029); (8031, 8061); (8064, 8116);
    (8118, 8124); (8126, 8126); (8130, 8132); (8134, 8140); (8144, 8147);
    (8150, 8155); (8160, 8172); (8178, 8180); (8182, 8188); (8304, 8305);
    (8308, 8313); (8319, 8329); (8336, 8348); (8450, 8450); (8455, 8455);
    (8458, 8467); (8469, 8469); (8473, 8477); (8484, 8484); (8486, 8486);
    (8488, 8488); (8490, 8493); (8495, 8505); (8508, 8511); (8517, 8521);
    (8526, 8526); (8528, 8585); (9312, 9371); (9450, 9471); (10102, 10131);
    (11264, 11492); (11499, 11502); (11506, 11507); (11517, 11517);
    (11520, 11557); (11559, 11559); (11565, 11565); (11568, 11623);
    (11631, 11631); (11648, 11670); (11680, 11686); (11688, 11694);
    (11696, 11702); (11704, 11710); (11712, 11718); (11720, 11726);
    (11728, 11734); (11736, 11742); (11823, 11823); (12293, 12295);
    (12321, 12329); (12337, 12341); (12344, 12348); (12353, 12438);
    (12445, 12447); (12449, 12538); (12540, 12543); (12549, 12591);
    (12593, 12686); (12690, 12693); (12704, 12735); (12784, 12799);
    (12832, 12841); (12872, 12879); (12881, 12895); (12928, 12937);
    (12977, 12991); (13312, 19903); (19968, 42124); (42192, 42237);
    (42240, 42508); (42512, 42539); (42560, 42606); (42623, 42653);
    (42656, 42735); (42775, 42783); (42786, 42888); (42891, 42954);
    (42960, 42961); (42963, 42963); (42965, 42969); (42994, 43009);
    (43011, 43013); (43015, 43018); (43020, 43042); (43056, 43061);
    (43072, 43123); (43138, 43187); (43216, 43225); (43250, 43255);
    (43259, 43259); (43261, 43262); (43264, 43301); (43312, 43334);
    (43360, 43388); (43396, 43442); (43471, 43481); (43488, 43492);
    (43494, 43518); (43520, 43560); (43584, 43586); (43588, 43595);
    (43600, 43609); (43616, 43638); (43642, 43642); (43646, 43695);
    (43697, 43697); (43701, 43702); (43705, 43709); (43712, 43712);
    (43714, 43714); (43739, 43741); (43744, 43754); (43762, 43764);
    (43777, 43782); (43785, 43790); (43793, 43798); (43808, 43814);
    (43816, 43822); (43824, 43866); (43868, 43881); (43888, 44002);
    (44016, 44025); (44032, 55203); (55216, 55238); (55243, 55291);
    (63744, 64109); (64112, 64217); (64256, 64262); (64275, 64279);
    (64285, 64285); (64287, 64296); (64298, 64310); (64312, 64316);
    (64318, 64318); (64320, 64321); (64323, 64324); (64326, 64433);
    (64467, 64829); (64848, 64911); (64914, 64967); (65008, 65019);
    (65136, 65140); (65142, 65276); (65296, 65305); (65313, 65338);
    (65345, 65370); (65382, 65470); (65474, 65479); (65482, 65487);
    (65490, 65495); (65498, 65500); (65536, 65547); (65549, 65574);
    (65576, 65594); (65596, 65597); (65599, 65613); (65616, 65629);
    (65664, 65786); (65799, 65843); (65856, 65912); (65930, 65931);
    (66176, 66204); (66208, 66256); (66273, 66299); (66304, 66339);
    (66349, 66378); (66384, 66421); (66432, 66461); (66464, 66499);
    (66504, 66511); (66513, 66517); (66560, 66717); (66720, 66729);
    (66736, 66771); (66776, 66811); (66816, 66855); (66864, 66915);
    (66928, 66938); (66940, 66954); (66956, 66962); (66964, 66965);
    (66967, 66977); (66979, 66993); (66995, 67001); (67003, 67004);
    (67072, 67382); (67392, 67413); (67424, 67431); (67456, 67461);
    (67463, 67504); (67506, 67514); (67584, 67589); (67592, 67592);
    (67594, 67637); (67639, 67640); (67644, 67644); (67647, 67669);
    (67672, 67702); (67705, 67742); (67751, 67759); (67808, 67826);
    (67828, 67829); (67835, 67867); (67872, 67897); (67968, 68023);
    (68028, 68047); (68050, 68096); (68112, 68115); (68117, 68119);
    (68121, 68149); (68160, 68168); (68192, 68222); (68224, 68255);
    (68288, 68295); (68297, 68324); (68331, 68335); (68352, 68405);
    (68416, 68437); (68440, 68466); (68472, 68497); (68521, 68527);
    (68608, 68680); (68736, 68786); (68800, 68850); (68858, 68899);
    (68912, 68921); (69216, 69246); (69248, 69289); (69296, 69297);
    (69376, 69415); (69424, 69445); (69457, 69460); (69488, 69505);
    (69552, 69579); (69600, 69622); (69635, 69687); (69714, 69743);
    (69745, 69746); (69749, 69749); (69763, 69807); (69840, 69864);
    (69872, 69881); (69891, 69926); (69942, 69951); (69956, 69956);
    (69959, 69959); (69968, 70002); (70006, 70006); (70019, 70066);
    (70081, 70084); (70096, 70106); (70108, 70108); (70113, 70132);
    (70144, 70161); (70163, 70187); (70272, 70278); (70280, 70280);
    (70282, 70285); (70287, 70301); (70303, 70312); (70320, 70366);
    (70384, 70393); (70405, 70412); (70415, 70416); (70419, 70440);
    (70442, 70448); (70450, 70451); (70453, 70457); (70461, 70461);
    (70480, 70480); (70493, 70497); (70656, 70708); (70727, 70730);
    (70736, 70745); (70751, 70753); (70784, 70831); (70852, 70853);
    (70855, 70855); (70864, 70873); (71040, 71086); (71128, 71131);
    (71168, 71215); (71236, 71236); (71248, 71257); (71296, 71338);
    (71352, 71352); (71360, 71369); (71424, 71450); (71472, 71483);
    (71488, 71494); (71680, 71723); (71840, 71922); (71935, 71942);
    (71945, 71945); (71948, 71955); (71957, 71958); (71960, 71983);
    (71999, 71999); (72001, 72001); (72016, 72025); (72096, 72103);
    (72106, 72144); (72161, 72161); (72163, 72163); (72192, 72192);
    (72203, 72242); (72250, 72250); (72272, 72272); (72284, 72329);
    (72349, 72349); (72368, 72440); (72704, 72712); (72714, 72750);
    (72768, 72768); (72784, 72812); (72818, 72847); (72960, 72966);
    (72968, 72969); (72971, 73008); (73030, 73030); (73040, 73049);
    (73056, 73061); (73063, 73064); (73066, 73097); (73112, 73112);
    (73120, 73129); (73440, 73458); (73648, 73648); (73664, 73684);
    (73728, 74649); (74752, 74862); (74880, 75075); (77712, 77808);
    (77824, 78894); (82944, 83526); (92160, 92728); (92736, 92766);
    (92768, 92777); (92784, 92862); (92864, 92873); (92880, 92909);
    (92928, 92975); (92992, 92995); (93008, 93017); (93019, 93025);
    (93027, 93047); (93053, 93071); (93760, 93846); (93952, 94026);
    (94032, 94032); (94099, 94111); (94176, 94177); (94179, 94179);
    (94208, 100343); (100352, 101589); (101632, 101640); (110576, 110579);
    (110581, 110587); (110589, 110590); (110592, 110882); (110928, 110930);
    (110948, 110951); (110960, 111355); (113664, 113770); (113776, 113788);
    (113792, 113800); (113808, 113817); (119520, 119539); (119648, 119672);
    (119808, 119892); (119894, 119964); (119966, 119967); (119970, 119970);
    (119973, 119974); (119977, 119980); (119982, 119993); (119995, 119995);
    (119997, 120003); (120005, 120069); (120071, 120074); (120077, 120084);
    (120086, 120092); (120094, 120121); (120123, 120126); (120128, 120132);
    (120134, 120134); (120138, 120144); (120146, 120485); (120488, 120512);
    (120514, 120538); (120540, 120570); (120572, 120596); (120598, 120628);
    (120630, 120654); (120656, 120686); (120688, 120712); (120714, 120744);
    (120746, 120770); (120772, 120779); (120782, 120831); (122624, 122654);
    (123136, 123180); (123191, 123197); (123200, 123209); (123214, 123214);
    (123536, 123565); (123584, 123627); (123632, 123641); (124896, 124902);
    (124904, 124907); (124909, 124910); (124912, 124926); (124928, 125124);
    (125127, 125135); (125184, 125251); (125259, 125259); (125264, 125273);
    (126065, 126123); (126125, 126127); (126129, 126132); (126209, 126253);
    (126255, 126269); (126464, 126467); (126469, 126495); (126497, 126498);
    (126500, 126500); (126503, 126503); (126505, 126514); (126516, 126519);
    (126521, 126521); (126523, 126523); (126530, 126530); (126535, 126535);
    (126537, 126537); (126539, 126539); (126541, 126543); (126545, 126546);
    (126548, 126548); (126551, 126551); (126553, 126553); (126555, 126555);
    (126557, 126557); (126559, 126559); (126561, 126562); (126564, 126564);
    (126567, 126570); (126572, 126578); (126580, 126583); (126585, 126588);
    (126590, 126590); (126592, 126601); (126603, 126619); (126625, 126627);
    (126629, 126633); (126635, 126651); (127232, 127244); (130032, 130041);
    (131072, 173791); (173824, 177976); (177984, 178205); (178208, 183969);
    (183984, 191456); (194560, 195101); (196608, 201546) ]%N.

(** The letters, [str.isalpha]. *)
Definition alpha_ranges : list (N * N) :=
  [ (65, 90); (97, 122); (170, 170); (181, 181); (186, 186); (192, 214);
    (216, 246); (248, 705); (710, 721); (736, 740); (748, 748); (750, 750);
    (880, 884); (886, 887); (890, 893); (895, 895); (902, 902); (904, 906);
    (908, 908); (910, 929); (931, 1013); (1015, 1153); (1162, 1327);
    (1329, 1366); (1369, 1369); (1376, 1416); (1488, 1514); (1519, 1522);
    (1568, 1610); (1646, 1647); (1649, 1747); (1749, 1749); (1765, 1766);
    (1774, 1775); (1786, 1788); (1791, 1791); (1808, 1808); (1810, 1839);
    (1869, 1957); (1969, 1969); (1994, 2026); (2036, 2037); (2042, 2042);
    (2048, 2069); (2074, 2074); (2084, 2084); (2088, 2088); (2112, 2136);
    (2144, 2154); (2160, 2183); (2185, 2190); (2208, 2249); (2308, 2361);
    (2365, 2365); (2384, 2384); (2392, 2401); (2417, 2432); (2437, 2444);
    (2447, 2448); (2451, 2472); (2474, 2480); (2482, 2482); (2486, 2489);
    (2493, 2493); (2510, 2510); (2524, 2525); (2527, 2529); (2544, 2545);
    (2556, 2556); (2565, 2570); (2575, 2576); (2579, 2600); (2602, 2608);
    (2610, 2611); (2613, 2614); (2616, 2617); (2649, 2652); (2654, 2654);
    (2674, 2676); (2693, 2701); (2703, 2705); (2707, 2728); (2730, 2736);
    (2738, 2739); (2741, 2745); (2749, 2749); (2768, 2768); (2784, 2785);
    (2809, 2809); (2821, 2828); (2831, 2832); (2835, 2856); (2858, 2864);
    (2866, 2867); (2869, 2873); (2877, 2877); (2908, 2909); (2911, 2913);
    (2929, 2929); (2947, 2947); (2949, 2954); (2958, 2960); (2962, 2965);
    (2969, 2970); (2972, 2972); (2974, 2975); (2979, 2980); (2984, 2986);
    (2990, 3001); (3024, 3024); (3077, 3084); (3086, 3088); (3090, 3112);
    (3114, 3129); (3133, 3133); (3160, 3162); (3165, 3165); (3168, 3169);
    (3200, 3200); (3205, 3212); (3214, 3216); (3218, 3240); (3242, 3251);
    (3253, 3257); (3261, 3261); (3293, 3294); (3296, 3297); (3313, 3314);
    (3332, 3340); (3342, 3344); (3346, 3386); (3389, 3389); (3406, 3406);
    (3412, 3414); (3423, 3425); (3450, 3455); (3461, 3478); (3482, 3505);
    (3507, 3515); (3517, 3517); (3520, 3526); (3585, 3632); (3634, 3635);
    (3648, 3654); (3713, 3714); (3716, 3716); (3718, 3722); (3724, 3747);
    (3749, 3749); (3751, 3760); (3762, 3763); (3773, 3773); (3776, 3780);
    (3782, 3782); (3804, 3807); (3840, 3840); (3904, 3911); (3913, 3948);
    (3976, 3980); (4096, 4138); (4159, 4159); (4176, 4181); (4186, 4189);
    (4193, 4193); (4197, 4198); (4206, 4208); (4213, 4225); (4238, 4238);
    (4256, 4293); (4295, 4295); (4301, 4301); (4304, 4346); (4348, 4680);
    (4682, 4685); (4688, 4694); (4696, 4696); (4698, 4701); (4704, 4744);
    (4746, 4749); (4752, 4784); (4786, 4789); (4792, 4798); (4800, 4800);
    (4802, 4805); (4808, 4822); (4824, 4880); (4882, 4885); (4888, 4954);
    (4992, 5007); (5024, 5109); (5112, 5117); (5121, 5740); (5743, 5759);
    (5761, 5786); (5792, 5866); (5873, 5880); (5888, 5905); (5919, 5937);
    (5952, 5969); (5984, 5996); (5998, 6000); (6016, 6067); (6103, 6103);
    (6108, 6108); (6176, 6264); (6272, 6276); (6279, 6312); (6314, 6314);
    (6320, 6389); (6400, 6430); (6480, 6509); (6512, 6516); (6528, 6571);
    (6576, 6601); (6656, 6678); (6688, 6740); (6823, 6823); (6917, 6963);
    (6981, 6988); (7043, 7072); (7086, 7087); (7098, 7141); (7168, 7203);
    (7245, 7247); (7258, 7293); (7296, 7304); (7312, 7354); (7357, 7359);
    (7401, 7404); (7406, 7411); (7413, 7414); (7418, 7418); (7424, 7615);
    (7680, 7957); (7960, 7965); (7968, 8005); (8008, 8013); (8016, 8023);
    (8025, 8025); (8027, 8027); (8029, 8029); (8031, 8061); (8064, 8116);
    (8118, 8124); (8126, 8126); (8130, 8132); (8134, 8140); (8144, 8147);
    (8150, 8155); (8160, 8172); (8178, 8180); (8182, 8188); (8305, 8305);
    (8319, 8319); (8336, 8348); (8450, 8450); (8455, 8455); (8458, 8467);
    (8469, 8469); (8473, 8477); (8484, 8484); (8486, 8486); (8488, 8488);
    (8490, 8493); (8495, 8505); (8508, 8511); (8517, 8521); (8526, 8526);
    (8579, 8580); (11264, 11492); (11499, 11502); (11506, 11507);
    (11520, 11557); (11559, 11559); (11565, 11565); (11568, 11623);
    (11631, 11631); (11648, 11670); (11680, 11686); (11688, 11694);
    (11696, 11702); (11704, 11710); (11712, 11718); (11720, 11726);
    (11728, 11734); (11736, 11742); (11823, 11823); (12293, 12294);
    (12337, 12341); (12347, 12348); (12353, 12438); (12445, 12447);
    (12449, 12538); (12540, 12543); (12549, 12591); (12593, 12686);
    (12704, 12735); (12784, 12799); (13312, 19903); (19968, 42124);
    (42192, 42237); (42240, 42508); (42512, 42527); (42538, 42539);
    (42560, 42606); (42623, 42653); (42656, 42725); (42775, 42783);
    (42786, 42888); (42891, 42954); (42960, 42961); (42963, 42963);
    (42965, 42969); (42994, 43009); (43011, 43013); (43015, 43018);
    (43020, 43042); (43072, 43123); (43138, 43187); (43250, 43255);
    (43259, 43259); (43261, 43262); (43274, 43301); (43312, 43334);
    (43360, 43388); (43396, 43442); (43471, 43471); (43488, 43492);
    (43494, 43503); (43514, 43518); (43520, 43560); (43584, 43586);
    (43588, 43595); (43616, 43638); (43642, 43642); (43646, 43695);
    (43697, 43697); (43701, 43702); (43705, 43709); (43712, 43712);
    (43714, 43714); (43739, 43741); (43744, 43754); (43762, 43764);
    (43777, 43782); (43785, 43790); (43793, 43798); (43808, 43814);
    (43816, 43822); (43824, 43866); (43868, 43881); (43888, 44002);
    (44032, 55203); (55216, 55238); (55243, 55291); (63744, 64109);
    (64112, 64217); (64256, 64262); (64275, 64279); (64285, 64285);
    (64287, 64296); (64298, 64310); (64312, 64316); (64318, 64318);
    (64320, 64321); (64323, 64324); (64326, 64433); (64467, 64829);
    (64848, 64911); (64914, 64967); (65008, 65019); (65136, 65140);
    (65142, 65276); (65313, 65338); (65345, 65370); (65382, 65470);
    (65474, 65479); (65482, 65487); (65490, 65495); (65498, 65500);
    (65536, 65547); (65549, 65574); (65576, 65594); (65596, 65597);
    (65599, 65613); (65616, 65629); (65664, 65786); (66176, 66204);
    (66208, 66256); (66304, 66335); (66349, 66368); (66370, 66377);
    (66384, 66421); (66432, 66461); (66464, 66499); (66504, 66511);
    (66560, 66717); (66736, 66771); (66776, 66811); (66816, 66855);
    (66864, 66915); (66928, 66938); (66940, 66954); (66956, 66962);
    (66964, 66965); (66967, 66977); (66979, 66993); (66995, 67001);
    (67003, 67004); (67072, 67382); (67392, 67413); (67424, 67431);
    (67456, 67461); (67463, 67504); (67506, 67514); (67584, 67589);
    (67592, 67592); (67594, 67637); (67639, 67640); (67644, 67644);
    (67647, 67669); (67680, 67702); (67712, 67742); (67808, 67826);
    (67828, 67829); (67840, 67861); (67872, 67897); (67968, 68023);
    (68030, 68031); (68096, 68096); (68112, 68115); (68117, 68119);
    (68121, 68149); (68192, 68220); (68224, 68252); (68288, 68295);
    (68297, 68324); (68352, 68405); (68416, 68437); (68448, 68466);
    (68480, 68497); (68608, 68680); (68736, 68786); (68800, 68850);
    (68864, 68899); (69248, 69289); (69296, 69297); (69376, 69404);
    (69415, 69415); (69424, 69445); (69488, 69505); (69552, 69572);
    (69600, 69622); (69635, 69687); (69745, 69746); (69749, 69749);
    (69763, 69807); (69840, 69864); (69891, 69926); (69956, 69956);
    (69959, 69959); (69968, 70002); (70006, 70006); (70019, 70066);
    (70081, 70084); (70106, 70106); (70108, 70108); (70144, 70161);
    (70163, 70187); (70272, 70278); (70280, 70280); (70282, 70285);
    (70287, 70301); (70303, 70312); (70320, 70366); (70405, 70412);
    (70415, 70416); (70419, 70440); (70442, 70448); (70450, 70451);
    (70453, 70457); (70461, 70461); (70480, 70480); (70493, 70497);
    (70656, 70708); (70727, 70730); (70751, 70753); (70784, 70831);
    (70852, 70853); (70855, 70855); (71040, 71086); (71128, 71131);
    (71168, 71215); (71236, 71236); (71296, 71338); (71352, 71352);
    (71424, 71450); (71488, 71494); (71680, 71723); (71840, 71903);
    (71935, 71942); (71945, 71945); (71948, 71955); (71957, 71958);
    (71960, 71983); (71999, 71999); (72001, 72001); (72096, 72103);
    (72106, 72144); (72161, 72161); (72163, 72163); (72192, 72192);
    (72203, 72242); (72250, 72250); (72272, 72272); (72284, 72329);
    (72349, 72349); (72368, 72440); (72704, 72712); (72714, 72750);
    (72768, 72768); (72818, 72847); (72960, 72966); (72968, 72969);
    (72971, 73008); (73030, 73030); (73056, 73061); (73063, 73064);
    (73066, 73097); (73112, 73112); (73440, 73458); (73648, 73648);
    (73728, 74649); (74880, 75075); (77712, 77808); (77824, 78894);
    (82944, 83526); (92160, 92728); (92736, 92766); (92784, 92862);
    (92880, 92909); (92928, 92975); (92992, 92995); (93027, 93047);
    (93053, 93071); (93760, 93823); (93952, 94026); (94032, 94032);
    (94099, 94111); (94176, 94177); (94179, 94179); (94208, 100343);
    (100352, 101589); (101632, 101640); (110576, 110579); (110581, 110587);
    (110589, 110590); (110592, 110882); (110928, 110930); (110948, 110951);
    (110960, 111355); (113664, 113770); (113776, 113788); (113792, 113800);
    (113808, 113817); (119808, 119892); (119894, 119964); (119966, 119967);
    (119970, 119970); (119973, 119974); (119977, 119980); (119982, 119993);
    (119995, 119995); (119997, 120003); (120005, 120069); (120071, 120074);
    (120077, 120084); (120086, 120092); (120094, 120121); (120123, 120126);
    (120128, 120132); (120134, 120134); (120138, 120144); (120146, 120485);
    (120488, 120512); (120514, 120538); (120540, 120570); (120572, 120596);
    (120598, 120628); (120630, 120654); (120656, 120686); (120688, 120712);
    (120714, 120744); (120746, 120770); (120772, 120779); (122624, 122654);
    (123136, 123180); (123191, 123197); (123214, 123214); (123536, 123565);
    (123584, 123627); (124896, 124902); (124904, 124907); (124909, 124910);
    (124912, 124926); (124928, 125124); (125184, 125251); (125259, 125259);
    (126464, 126467); (126469, 126495); (126497, 126498); (126500, 126500);
    (126503, 126503); (126505, 126514); (126516, 126519); (126521, 126521);
    (126523, 126523); (126530, 126530); (126535, 126535); (126537, 126537);
    (126539, 126539); (126541, 126543); (126545, 126546); (126548, 126548);
    (126551, 126551); (126553, 126553); (126555, 126555); (126557, 126557);
    (126559, 126559); (126561, 126562); (126564, 126564); (126567, 126570);
    (126572, 126578); (126580, 126583); (126585, 126588); (126590, 126590);
    (126592, 126601); (126603, 126619); (126625, 126627); (126629, 126633);
    (126635, 126651); (131072, 173791); (173824, 177976); (177984, 178205);
    (178208, 183969); (183984, 191456); (194560, 195101); (196608, 201546) ]%N.

(** The case-ignorable characters, which the rule of the capital sigma
    passes over. *)
Definition case_ignorable_ranges : list (N * N) :=
  [ (39, 39); (46, 46); (58, 58); (94, 94); (96, 96); (168, 168); (173, 173);
    (175, 175); (180, 180); (183, 184); (688, 879); (884, 885); (890, 890);
    (900, 901); (903, 903); (1155, 1161); (1369, 1369); (1375, 1375);
    (1425, 1469); (1471, 1471); (1473, 1474); (1476, 1477); (1479, 1479);
    (1524, 1524); (1536, 1541); (1552, 1562); (1564, 1564); (1600, 1600);
    (1611, 1631); (1648, 1648); (1750, 1757); (1759, 1768); (1770, 1773);
    (1807, 1807); (1809, 1809); (1840, 1866); (1958, 1968); (2027, 2037);
    (2042, 2042); (2045, 2045); (2070, 2093); (2137, 2139); (2184, 2184);
    (2192, 2193); (2200, 2207); (2249, 2306); (2362, 2362); (2364, 2364);
    (2369, 2376); (2381, 2381); (2385, 2391); (2402, 2403); (2417, 2417);
    (2433, 2433); (2492, 2492); (2497, 2500); (2509, 2509); (2530, 2531);
    (2558, 2558); (2561, 2562); (2620, 2620); (2625, 2626); (2631, 2632);
    (2635, 2637); (2641, 2641); (2672, 2673); (2677, 2677); (2689, 2690);
    (2748, 2748); (2753, 2757); (2759, 2760); (2765, 2765); (2786, 2787);
    (2810, 2815); (2817, 2817); (2876, 2876); (2879, 2879); (2881, 2884);
    (2893, 2893); (2901, 2902); (2914, 2915); (2946, 2946); (3008, 3008);
    (3021, 3021); (3072, 3072); (3076, 3076); (3132, 3132); (3134, 3136);
    (3142, 3144); (3146, 3149); (3157, 3158); (3170, 3171); (3201, 3201);
    (3260, 3260); (3263, 3263); (3270, 3270); (3276, 3277); (3298, 3299);
    (3328, 3329); (3387, 3388); (3393, 3396); (3405, 3405); (3426, 3427);
    (3457, 3457); (3530, 3530); (3538, 3540); (3542, 3542); (3633, 3633);
    (3636, 3642); (3654, 3662); (3761, 3761); (3764, 3772); (3782, 3782);
    (3784, 3789); (3864, 3865); (3893, 3893); (3895, 3895); (3897, 3897);
    (3953, 3966); (3968, 3972); (3974, 3975); (3981, 3991); (3993, 4028);
    (4038, 4038); (4141, 4144); (4146, 4151); (4153, 4154); (4157, 4158);
    (4184, 4185); (4190, 4192); (4209, 4212); (4226, 4226); (4229, 4230);
    (4237, 4237); (4253, 4253); (4348, 4348); (4957, 4959); (5906, 5908);
    (5938, 5939); (5970, 5971); (6002, 6003); (6068, 6069); (6071, 6077);
    (6086, 6086); (6089, 6099); (6103, 6103); (6109, 6109); (6155, 6159);
    (6211, 6211); (6277, 6278); (6313, 6313); (6432, 6434); (6439, 6440);
    (6450, 6450); (6457, 6459); (6679, 6680); (6683, 6683); (6742, 6742);
    (6744, 6750); (6752, 6752); (6754, 6754); (6757, 6764); (6771, 6780);
    (6783, 6783); (6823, 6823); (6832, 6862); (6912, 6915); (6964, 6964);
    (6966, 6970); (6972, 6972); (6978, 6978); (7019, 7027); (7040, 7041);
    (7074, 7077); (7080, 7081); (7083, 7085); (7142, 7142); (7144, 7145);
    (7149, 7149); (7151, 7153); (7212, 7219); (7222, 7223); (7288, 7293);
    (7376, 7378); (7380, 7392); (7394, 7400); (7405, 7405); (7412, 7412);
    (7416, 7417); (7468, 7530); (7544, 7544); (7579, 7679); (8125, 8125);
    (8127, 8129); (8141, 8143); (8157, 8159); (8173, 8175); (8189, 8190);
    (8203, 8207); (8216, 8217); (8228, 8228); (8231, 8231); (8234, 8238);
    (8288, 8292); (8294, 8303); (8305, 8305); (8319, 8319); (8336, 8348);
    (8400, 8432); (11388, 11389); (11503, 11505); (11631, 11631);
    (11647, 11647); (11744, 11775); (11823, 11823); (12293, 12293);
    (12330, 12333); (12337, 12341); (12347, 12347); (12441, 12446);
    (12540, 12542); (40981, 40981); (42232, 42237); (42508, 42508);
    (42607, 42610); (42612, 42621); (42623, 42623); (42652, 42655);
    (42736, 42737); (42752, 42785); (42864, 42864); (42888, 42890);
    (42994, 42996); (43000, 43001); (43010, 43010); (43014, 43014);
    (43019, 43019); (43045, 43046); (43052, 43052); (43204, 43205);
    (43232, 43249); (43263, 43263); (43302, 43309); (43335, 43345);
    (43392, 43394); (43443, 43443); (43446, 43449); (43452, 43453);
    (43471, 43471); (43493, 43494); (43561, 43566); (43569, 43570);
    (43573, 43574); (43587, 43587); (43596, 43596); (43632, 43632);
    (43644, 43644); (43696, 43696); (43698, 43700); (43703, 43704);
    (43710, 43711); (43713, 43713); (43741, 43741); (43756, 43757);
    (43763, 43764); (43766, 43766); (43867, 43871); (43881, 43883);
    (44005, 44005); (44008, 44008); (44013, 44013); (64286, 64286);
    (64434, 64450); (65024, 65039); (65043, 65043); (65056, 65071);
    (65106, 65106); (65109, 65109); (65279, 65279); (65287, 65287);
    (65294, 65294); (65306, 65306); (65342, 65342); (65344, 65344);
    (65392, 65392); (65438, 65439); (65507, 65507); (65529, 65531);
    (66045, 66045); (66272, 66272); (66422, 66426); (67456, 67461);
    (67463, 67504); (67506, 67514); (68097, 68099); (68101, 68102);
    (68108, 68111); (68152, 68154); (68159, 68159); (68325, 68326);
    (68900, 68903); (69291, 69292); (69446, 69456); (69506, 69509);
    (69633, 69633); (69688, 69702); (69744, 69744); (69747, 69748);
    (69759, 69761); (69811, 69814); (69817, 69818); (69821, 69821);
    (69826, 69826); (69837, 69837); (69888, 69890); (69927, 69931);
    (69933, 69940); (70003, 70003); (70016, 70017); (70070, 70078);
    (70089, 70092); (70095, 70095); (70191, 70193); (70196, 70196);
    (70198, 70199); (70206, 70206); (70367, 70367); (70371, 70378);
    (70400, 70401); (70459, 70460); (70464, 70464); (70502, 70508);
    (70512, 70516); (70712, 70719); (70722, 70724); (70726, 70726);
    (70750, 70750); (70835, 70840); (70842, 70842); (70847, 70848);
    (70850, 70851); (71090, 71093); (71100, 71101); (71103, 71104);
    (71132, 71133); (71219, 71226); (71229, 71229); (71231, 71232);
    (71339, 71339); (71341, 71341); (71344, 71349); (71351, 71351);
    (71453, 71455); (71458, 71461); (71463, 71467); (71727, 71735);
    (71737, 71738); (71995, 71996); (71998, 71998); (72003, 72003);
    (72148, 72151); (72154, 72155); (72160, 72160); (72193, 72202);
    (72243, 72248); (72251, 72254); (72263, 72263); (72273, 72278);
    (72281, 72283); (72330, 72342); (72344, 72345); (72752, 72758);
    (72760, 72765); (72767, 72767); (72850, 72871); (72874, 72880);
    (72882, 72883); (72885, 72886); (73009, 73014); (73018, 73018);
    (73020, 73021); (73023, 73029); (73031, 73031); (73104, 73105);
    (73109, 73109); (73111, 73111); (73459, 73460); (78896, 78904);
    (92912, 92916); (92976, 92982); (92992, 92995); (94031, 94031);
    (94095, 94111); (94176, 94177); (94179, 94180); (110576, 110579);
    (110581, 110587); (110589, 110590); (113821, 113822); (113824, 113827);
    (118528, 118573); (118576, 118598); (119143, 119145); (119155, 119170);
    (119173, 119179); (119210, 119213); (119362, 119364); (121344, 121398);
    (121403, 121452); (121461, 121461); (121476, 121476); (121499, 121503);
    (121505, 121519); (122880, 122886); (122888, 122904); (122907, 122913);
    (122915, 122916); (122918, 122922); (123184, 123197); (123566, 123566);
    (123628, 123631); (125136, 125142); (125252, 125259); (127995, 127999);
    (917505, 917505); (917536, 917631); (917760, 917999) ]%N.

(** The cased characters that are not case-ignorable. *)
Definition cased_ranges : list (N * N) :=
  [ (65, 90); (97, 122); (170, 170); (181, 181); (186, 186); (192, 214);
    (216, 246); (248, 442); (444, 447); (452, 659); (661, 687); (880, 883);
    (886, 887); (891, 893); (895, 895); (902, 902); (904, 906); (908, 908);
    (910, 929); (931, 1013); (1015, 1153); (1162, 1327); (1329, 1366);
    (1376, 1416); (4256, 4293); (4295, 4295); (4301, 4301); (4304, 4346);
    (4349, 4351); (5024, 5109); (5112, 5117); (7296, 7304); (7312, 7354);
    (7357, 7359); (7424, 7467); (7531, 7543); (7545, 7578); (7680, 7957);
    (7960, 7965); (7968, 8005); (8008, 8013); (8016, 8023); (8025, 8025);
    (8027, 8027); (8029, 8029); (8031, 8061); (8064, 8116); (8118, 8124);
    (8126, 8126); (8130, 8132); (8134, 8140); (8144, 8147); (8150, 8155);
    (8160, 8172); (8178, 8180); (8182, 8188); (8450, 8450); (8455, 8455);
    (8458, 8467); (8469, 8469); (8473, 8477); (8484, 8484); (8486, 8486);
    (8488, 8488); (8490, 8493); (8495, 8500); (8505, 8505); (8508, 8511);
    (8517, 8521); (8526, 8526); (8544, 8575); (8579, 8580); (9398, 9449);
    (11264, 11387); (11390, 11492); (11499, 11502); (11506, 11507);
    (11520, 11557); (11559, 11559); (11565, 11565); (42560, 42605);
    (42624, 42651); (42786, 42863); (42865, 42887); (42891, 42894);
    (42896, 42954); (42960, 42961); (42963, 42963); (42965, 42969);
    (42997, 42998); (43002, 43002); (43824, 43866); (43872, 43880);
    (43888, 43967); (64256, 64262); (64275, 64279); (65313, 65338);
    (65345, 65370); (66560, 66639); (66736, 66771); (66776, 66811);
    (66928, 66938); (66940, 66954); (66956, 66962); (66964, 66965);
    (66967, 66977); (66979, 66993); (66995, 67001); (67003, 67004);
    (68736, 68786); (68800, 68850); (71840, 71903); (93760, 93823);
    (119808, 119892); (119894, 119964); (119966, 119967); (119970, 119970);
    (119973, 119974); (119977, 119980); (119982, 119993); (119995, 119995);
    (119997, 120003); (120005, 120069); (120071, 120074); (120077, 120084);
    (120086, 120092); (120094, 120121); (120123, 120126); (120128, 120132);
    (120134, 120134); (120138, 120144); (120146, 120485); (120488, 120512);
    (120514, 120538); (120540, 120570); (120572, 120596); (120598, 120628);
    (120630, 120654); (120656, 120686); (120688, 120712); (120714, 120744);
    (120746, 120770); (120772, 120779); (122624, 122633); (122635, 122654);
    (125184, 125251); (127280, 127305); (127312, 127337); (127344, 127369) ]%N.

(** The simple lower-case mappings: in a row [(lo, hi, step, target)] the
    code points [lo], [lo + step], ... up to [hi] map to [target],
    [target + step], ... *)
Definition lower_rows : list (N * N * N * N) :=
  [ (65, 90, 1, 97); (192, 214, 1, 224); (216, 222, 1, 248);
    (256, 302, 2, 257); (306, 310, 2, 307); (313, 327, 2, 314);
    (330, 374, 2, 331); (376, 376, 1, 255); (377, 381, 2, 378);
    (385, 385, 1, 595); (386, 388, 2, 387); (390, 390, 1, 596);
    (391, 391, 1, 392); (393, 394, 1, 598); (395, 395, 1, 396);
    (398, 398, 1, 477); (399, 399, 1, 601); (400, 400, 1, 603);
    (401, 401, 1, 402); (403, 403, 1, 608); (404, 404, 1, 611);
    (406, 406, 1, 617); (407, 407, 1, 616); (408, 408, 1, 409);
    (412, 412, 1, 623); (413, 413, 1, 626); (415, 415, 1, 629);
    (416, 420, 2, 417); (422, 422, 1, 640); (423, 423, 1, 424);
    (425, 425, 1, 643); (428, 428, 1, 429); (430, 430, 1, 648);
    (431, 431, 1, 432); (433, 434, 1, 650); (435, 437, 2, 436);
    (439, 439, 1, 658); (440, 440, 1, 441); (444, 444, 1, 445);
    (452, 452, 1, 454); (453, 453, 1, 454); (455, 455, 1, 457);
    (456, 456, 1, 457); (458, 458, 1, 460); (459, 475, 2, 460);
    (478, 494, 2, 479); (497, 497, 1, 499); (498, 500, 2, 499);
    (502, 502, 1, 405); (503, 503, 1, 447); (504, 542, 2, 505);
    (544, 544, 1, 414); (546, 562, 2, 547); (570, 570, 1, 11365);
    (571, 571, 1, 572); (573, 573, 1, 410); (574, 574, 1, 11366);
    (577, 577, 1, 578); (579, 579, 1, 384); (580, 580, 1, 649);
    (581, 581, 1, 652); (582, 590, 2, 583); (880, 882, 2, 881);
    (886, 886, 1, 887); (895, 895, 1, 1011); (902, 902, 1, 940);
    (904, 906, 1, 941); (908, 908, 1, 972); (910, 911, 1, 973);
    (913, 929, 1, 945); (932, 939, 1, 964); (975, 975, 1, 983);
    (984, 1006, 2, 985); (1012, 1012, 1, 952); (1015, 1015, 1, 1016);
    (1017, 1017, 1, 1010); (1018, 1018, 1, 1019); (1021, 1023, 1, 891);
    (1024, 1039, 1, 1104); (1040, 1071, 1, 1072); (1120, 1152, 2, 1121);
    (1162, 1214, 2, 1163); (1216, 1216, 1, 1231); (1217, 1229, 2, 1218);
    (1232, 1326, 2, 1233); (1329, 1366, 1, 1377); (4256, 4293, 1, 11520);
    (4295, 4295, 1, 11559); (4301, 4301, 1, 11565); (5024, 5103, 1, 43888);
    (5104, 5109, 1, 5112); (7312, 7354, 1, 4304); (7357, 7359, 1, 4349);
    (7680, 7828, 2, 7681); (7838, 7838, 1, 223); (7840, 7934, 2, 7841);
    (7944, 7951, 1, 7936); (7960, 7965, 1, 7952); (7976, 7983, 1, 7968);
    (7992, 7999, 1, 7984); (8008, 8013, 1, 8000); (8025, 8031, 2, 8017);
    (8040, 8047, 1, 8032); (8072, 8079, 1, 8064); (8088, 8095, 1, 8080);
    (8104, 8111, 1, 8096); (8120, 8121, 1, 8112); (8122, 8123, 1, 8048);
    (8124, 8124, 1, 8115); (8136, 8139, 1, 8050); (8140, 8140, 1, 8131);
    (8152, 8153, 1, 8144); (8154, 8155, 1, 8054); (8168, 8169, 1, 8160);
    (8170, 8171, 1, 8058); (8172, 8172, 1, 8165); (8184, 8185, 1, 8056);
    (8186, 8187, 1, 8060); (8188, 8188, 1, 8179); (8486, 8486, 1, 969);
    (8490, 8490, 1, 107); (8491, 8491, 1, 229); (8498, 8498, 1, 8526);
    (8544, 8559, 1, 8560); (8579, 8579, 1, 8580); (9398, 9423, 1, 9424);
    (11264, 11311, 1, 11312); (11360, 11360, 1, 11361);
    (11362, 11362, 1, 619); (11363, 11363, 1, 7549); (11364, 11364, 1, 637);
    (11367, 11371, 2, 11368); (11373, 11373, 1, 593); (11374, 11374, 1, 625);
    (11375, 11375, 1, 592); (11376, 11376, 1, 594); (11378, 11378, 1, 11379);
    (11381, 11381, 1, 11382); (11390, 11391, 1, 575);
    (11392, 11490, 2, 11393); (11499, 11501, 2, 11500);
    (11506, 11506, 1, 11507); (42560, 42604, 2, 42561);
    (42624, 42650, 2, 42625); (42786, 42798, 2, 42787);
    (42802, 42862, 2, 42803); (42873, 42875, 2, 42874);
    (42877, 42877, 1, 7545); (42878, 42886, 2, 42879);
    (42891, 42891, 1, 42892); (42893, 42893, 1, 613);
    (42896, 42898, 2, 42897); (42902, 42920, 2, 42903);
    (42922, 42922, 1, 614); (42923, 42923, 1, 604); (42924, 42924, 1, 609);
    (42925, 42925, 1, 620); (42926, 42926, 1, 618); (42928, 42928, 1, 670);
    (42929, 42929, 1, 647); (42930, 42930, 1, 669); (42931, 42931, 1, 43859);
    (42932, 42946, 2, 42933); (42948, 42948, 1, 42900);
    (42949, 42949, 1, 642); (42950, 42950, 1, 7566);
    (42951, 42953, 2, 42952); (42960, 42960, 1, 42961);
    (42966, 42968, 2, 42967); (42997, 42997, 1, 42998);
    (65313, 65338, 1, 65345); (66560, 66599, 1, 66600);
    (66736, 66771, 1, 66776); (66928, 66964, 2, 66967);
    (66929, 66938, 1, 66968); (66940, 66954, 1, 66979);
    (66956, 66962, 1, 66995); (66964, 66965, 1, 67003);
    (68736, 68786, 1, 68800); (71840, 71871, 1, 71872);
    (93760, 93791, 1, 93792); (125184, 125217, 1, 125218) ]%N.

(** ** Character classes *)

(** The class [[A-Za-z]] of the first two patterns. *)
Definition is_ascii_letter (c : char) : bool :=
  between 65 90 c || between 97 122 c.

(** [\d] on a [str] pattern: the decimal digits of every script. *)
Definition is_digit (c : char) : bool := in_ranges decimal_ranges c.

(** [\w] on a [str] pattern: alphanumeric characters and the underscore. *)
Definition is_word (c : char) : bool := in_ranges word_ranges c.

(** The word characters that are neither an ASCII letter nor a decimal
    digit: the underscore, the letters outside ASCII, the numbers that are
    not decimal digits (superscripts, fractions...). *)
Definition is_other_word (c : char) : bool :=
  is_word c && negb (is_digit c) && negb (is_ascii_letter c).

(** ** [str.lower] *)

Definition in_row (row : N * N * N * N) (c : char) : bool :=
  let '(lo, hi, step, _) := row in
  ((lo <=? c) && (c <=? hi) && ((c - lo) mod step =? 0))%N.

(** The simple lower-case mapping of a character; itself when it has none. *)
Definition lower_simple (c : char) : char :=
  match find (fun row => in_row row c) lower_rows with
  | Some (lo, _, _, target) => (target + (c - lo))%N
  | None => c
  end.

Definition capital_i_with_dot : char := chr 304.
Definition capital_sigma : char := chr 931.
Definition final_sigma : char := chr 962.
Definition small_sigma : char := chr 963.

(** The full lower-case mapping: the capital I with a dot above gives an i
    and a combining dot, every other character its simple mapping. *)
Definition lower_full (c : char) : text :=
  if (c =? capital_i_with_dot)%N then [chr 105; chr 775] else [lower_simple c].

(** The rule of the capital sigma asks [is_cased] only of a character that
    is not case-ignorable. *)
Definition is_case_ignorable (c : char) : bool := in_ranges case_ignorable_ranges c.
Definition is_cased (c : char) : bool := in_ranges cased_ranges c.

Fixpoint skip_case_ignorable (s : text) : text :=
  match s with
  | c :: t => if is_case_ignorable c then skip_case_ignorable t else s
  | [] => []
  end.

(** The capital sigma is final when, case-ignorable characters aside, a
    cased character comes before it and none comes after it.  [before] is the
    text before the sigma, nearest character first. *)
Definition cased_before (before : text) : bool :=
  match skip_case_ignorable before with
  | c :: _ => is_cased c
  | [] => false
  end.

Definition uncased_after (after : text) : bool :=
  match skip_case_ignorable after with
  | [] => true
  | a :: _ => negb (is_cased a)
  end.

Definition in_final_sigma_context (before after : text) : bool :=
  cased_before before && uncased_after after.

Definition lower_at (before : text) (c : char) (after : text) : text :=
  if (c =? capital_sigma)%N
  then [if in_final_sigma_context before after then final_sigma else small_sigma]
  else lower_full c.

Fixpoint lower_from (before s : text) : text :=
  match s with
  | [] => []
  | c :: t => lower_at before c t ++ lower_from (c :: before) t
  end.

Definition lower (s : text) : text := lower_from [] s.

Arguments is_digit : simpl never.
Arguments is_word : simpl never.
Arguments is_case_ignorable : simpl never.
Arguments is_cased : simpl never.
Arguments lower_simple : simpl never.

Definition space : char := chr 32.
Definition e_acute : char := chr 233.
Definition o_acute : char := chr 243.

(** ** Exceptions and results *)

Inductive exn : Type :=
| OverflowError (value : Z)             (* num2words: value at or above MAXVAL *)
| ValueError (digits : nat)             (* int(): not a number, or too many digits *)
| AttributeError                        (* attribute of None *)
| HTTPException (status_code : Z) (detail : text)
| OtherException (name : text).         (* an Exception raised by a collaborator *)

Inductive result (A : Type) : Type :=
| Return (a : A)
| Raise (e : exn).

Arguments Return {A} a.
Arguments Raise {A} e.

Class Monad (m : Type -> Type) : Type := {
  ret : forall {A}, A -> m A;
  bind : forall {A B}, m A -> (A -> m B) -> m B
}.

Notation "x <- c ;; k" := (bind c (fun x => k))
  (at level 61, c at next level, right associativity).
Notation "c ;;; k" := (bind c (fun _ => k))
  (at level 61, right associativity).

#[export] Instance result_monad : Monad result := {
  ret := fun A a => Return a;
  bind := fun A B c k => match c with Return a => k a | Raise e => Raise e end
}.

(** ** The [re] module: substitution of the leftmost non-overlapping matches *)

Module Re.

(** A pattern tried at one position.  [prev] is the character before the
    position ([None] at the start of the text), the text is what remains from
    the position on; the answer is the length of the match.  The three
    patterns of the program consume at least one character. *)
Definition matcher := option char -> text -> option nat.

(** [re.sub(pattern, repl, s)]: scan from the left; at a position where the
    pattern matches, call [repl] on the matched text, emit what it returns
    and resume after the match ([skip] counts the characters of the match
    still to be passed over); elsewhere emit the character and move on.  An
    exception of [repl] ends the scan. *)
Fixpoint sub_from (m : matcher) (repl : text -> result text)
    (skip : nat) (prev : option char) (s : text) : result text :=
  match s with
  | [] => Return []
  | c :: t =>
    match skip with
    | S k => sub_from m repl k (Some c) t
    | O =>
      match m prev s with
      | Some n =>
          r <- repl (firstn n s) ;;
          rest <- sub_from m repl (pred n) (Some c) t ;;
          Return (r ++ rest)
      | None =>
          rest <- sub_from m repl 0 (Some c) t ;;
          Return (c :: rest)
      end
    end
  end.

Definition sub (m : matcher) (repl : text -> result text) (s : text) : result text :=
  sub_from m repl 0 None s.

(** [([A-Za-z])(\d)] *)
Definition letter_digit : matcher := fun _ s =>
  match s with
  | a :: b :: _ => if is_ascii_letter a && is_digit b then Some 2%nat else None
  | _ => None
  end.

(** [(\d)([A-Za-z])] *)
Definition digit_letter : matcher := fun _ s =>
  match s with
  | a :: b :: _ => if is_digit a && is_ascii_letter b then Some 2%nat else None
  | _ => None
  end.

(** The template [\1 \2] for a match made of two one-character groups. *)
Definition group1_space_group2 (matched : text) : result text :=
  match matched with
  | [a; b] => Return [a; space; b]
  | _ => Return matched
  end.

Definition is_word_at (c : option char) : bool :=
  match c with Some c => is_word c | None => false end.

(** [\b]: exactly one of the two neighbours is a word character; outside
    the text counts as a non-word character. *)
Definition word_boundary (before after : option char) : bool :=
  xorb (is_word_at before) (is_word_at after).

Fixpoint digits_prefix (s : text) : nat :=
  match s with
  | c :: t => if is_digit c then S (digits_prefix t) else O
  | [] => O
  end.

(** [\d+\b] from the start of [s]: greedy, so the longest run is tried first
    and on failure of [\b] one digit is given back at a time. *)
Fixpoint digits_then_boundary (k : nat) (s : text) : option nat :=
  match k with
  | O => None
  | S k' =>
      if word_boundary (nth_error s k') (nth_error s k) then Some k
      else digits_then_boundary k' s
  end.

(** [\b\d+\b] *)
Definition number : matcher := fun prev s =>
  if word_boundary prev (head s)
  then digits_then_boundary (digits_prefix s) s
  else None.

End Re.

(** ** [int] on a run of decimal digits *)

Fixpoint range_start (ranges : list (N * N)) (c : char) : N :=
  match ranges with
  | [] => 0
  | (lo, hi) :: ranges' => if between lo hi c then lo else range_start ranges' c
  end.

(** The value of a decimal digit: its place in its row of ten. *)
Definition digit_value (c : char) : Z :=
  Z.of_N ((ord c - range_start decimal_ranges c) mod 10).

(** The default of [sys.set_int_max_str_digits]. *)
Definition int_max_str_digits : nat := 4300.

(** [int(numero)] in base ten.  It is only ever applied to a match of [\d+]:
    the digits of every script are read by their value, leading zeros are
    accepted and do not change the value; a text with more
    than [int_max_str_digits] digits, or with a character that is not a
    decimal digit, is answered by [ValueError]. *)
Definition py_int (numero : text) : result Z :=
  if forallb is_digit numero && negb (Nat.eqb (List.length numero) 0)
     && (List.length numero <=? int_max_str_digits)%nat
  then Return (fold_left (fun acc c => 10 * acc + digit_value c)%Z numero 0%Z)
  else Raise (ValueError (List.length numero)).

(** ** [num2words(value, lang='es')] *)

Module Num2Words.

Local Open Scope Z_scope.

(** A word form together with the number it stands for. *)
Definition card := (text * Z)%type.

Definition MEGA_SUFFIX : text := str "ill" ++ [o_acute] ++ str "n".
Definition gender_stem : text := str "o".
Definition negword : text := str "menos ".

(** [low_numwords], from 29 down to 0 as the converter lists them. *)
Definition low_numwords : list text :=
  [ str "veintinueve"; str "veintiocho"; str "veintisiete";
    str "veintis" ++ [e_acute] ++ str "is"; str "veinticinco";
    str "veinticuatro"; str "veintitr" ++ [e_acute] ++ str "s";
    str "veintid" ++ [o_acute] ++ str "s"; str "veintiuno"; str "veinte";
    str "diecinueve"; str "dieciocho"; str "diecisiete";
    str "diecis" ++ [e_acute] ++ str "is"; str "quince"; str "catorce";
    str "trece"; str "doce"; str "once"; str "diez"; str "nueve"; str "ocho";
    str "siete"; str "seis"; str "cinco"; str "cuatro"; str "tres"; str "dos";
    str "uno"; str "cero" ].

(** The tens of [mid_numwords], from 90 down to 30. *)
Definition tens_numwords : list text :=
  [ str "noventa"; str "ochenta"; str "setenta"; str "sesenta";
    str "cincuenta"; str "cuarenta"; str "treinta" ].

Definition low_word (value : Z) : text :=
  nth (Z.to_nat (29 - value)) low_numwords [].

Definition tens_word (value : Z) : text :=
  nth (Z.to_nat (9 - value / 10)) tens_numwords [].

Definition drop_last (k : nat) (s : text) : text := firstn (List.length s - k) s.

(** The second half of the converter's [merge], once the text of the left
    card is settled. *)
Definition merge_words (ctext : text) (cnum : Z) (ntext : text) (nnum : Z) : card :=
  if nnum <? cnum then
    if cnum <? 100 then (ctext ++ str " y " ++ ntext, cnum + nnum)
    else (ctext ++ str " " ++ ntext, cnum + nnum)
  else
    let ntext :=
      if (nnum mod 1000000 =? 0) && (1 <? cnum)
      then drop_last 3 ntext ++ str "lones" else ntext in
    if nnum =? 100 then
      let ctext :=
        if cnum =? 5 then str "quinien"
        else if cnum =? 7 then str "sete"
        else if cnum =? 9 then str "nove" else ctext in
      let ntext := if cnum =? 5 then [] else ntext in
      (ctext ++ ntext ++ str "t" ++ gender_stem ++ str "s", cnum * nnum)
    else (ctext ++ str " " ++ ntext, cnum * nnum).

(** [merge] of the Spanish converter: how two neighbouring cards join. *)
Definition merge (curr next : card) : card :=
  let '(ctext, cnum) := curr in
  let '(ntext, nnum) := next in
  if cnum =? 1 then
    if nnum <? 1000000 then next
    else merge_words (str "un") cnum ntext nnum
  else if (cnum =? 100) && negb (nnum mod 1000 =? 0)
  then merge_words (ctext ++ str "t" ++ gender_stem) cnum ntext nnum
  else merge_words ctext cnum ntext nnum.

Definition uno : card := (str "uno", 1).

(** A value whose largest card is [elem]: the quotient (the card of one when
    it is one) is merged with the card, and the result with the remainder
    when there is one. *)
Definition split (elem : Z) (word : text) (below : Z -> card) (value : Z) : card :=
  let quotient := value / elem in
  let remainder := value mod elem in
  let left := merge (if quotient =? 1 then uno else below quotient) (word, elem) in
  if remainder =? 0 then left else merge left (below remainder).

(** The cards are tried from the largest down; each level hands the values
    under its card to the level below. *)
Definition low (value : Z) : card := merge uno (low_word value, value).

Definition tens (value : Z) : card :=
  if value <? 30 then low value
  else split (10 * (value / 10)) (tens_word value) low value.

Definition hundreds (value : Z) : card :=
  if value <? 100 then tens value else split 100 (str "cien") tens value.

Definition thousands (value : Z) : card :=
  if value <? 1000 then hundreds value else split 1000 (str "mil") hundreds value.

Definition millions (value : Z) : card :=
  if value <? 10 ^ 6 then thousands value
  else split (10 ^ 6) (str "m" ++ MEGA_SUFFIX) thousands value.

Definition billions (value : Z) : card :=
  if value <? 10 ^ 12 then millions value
  else split (10 ^ 12) (str "b" ++ MEGA_SUFFIX) millions value.

Definition trillions (value : Z) : card :=
  if value <? 10 ^ 18 then billions value
  else split (10 ^ 18) (str "tr" ++ MEGA_SUFFIX) billions value.

Definition quadrillions (value : Z) : card :=
  if value <? 10 ^ 24 then trillions value
  else split (10 ^ 24) (str "cuatr" ++ MEGA_SUFFIX) trillions value.

(** A thousand times the largest card. *)
Definition MAXVAL : Z := 1000 * 10 ^ 24.

(** [to_cardinal] of the Spanish converter on an integer. *)
Definition to_cardinal (value : Z) : result text :=
  let out := if value <? 0 then negword else [] in
  let value := Z.abs value in
  if MAXVAL <=? value then Raise (OverflowError value)
  else Return (out ++ fst (quadrillions value)).

End Num2Words.

(** Modelled from the spec: [num2words] is a third-party package and not
    part of the program's source.  The spec asks for the cardinal spelling of
    the integer in Spanish (5 is "cinco", 123 is "ciento veintitres" with an
    acute accent on the last e); module [Num2Words] gives that spelling the way
    the Spanish converter of the package builds it, from its cards (cero to
    veintinueve, the tens, cien, mil and the powers of a million up to
    cuatrillon) and its [merge], and raises [OverflowError] from
    [MAXVAL] = 10^27 on. *)
Definition num2words_es (value : Z) : result text := Num2Words.to_cardinal value.

(** ** The normaliser *)

(** The callback of the third substitution. *)
Definition reemplazar_numero (numero : text) : result text :=
  value <- py_int numero ;;
  num2words_es value.

Definition traducir_numero_a_texto (texto : text) : result text :=
  texto_separado <- Re.sub Re.letter_digit Re.group1_space_group2 texto ;;
  texto_separado <- Re.sub Re.digit_letter Re.group1_space_group2 texto_separado ;;
  Re.sub Re.number reemplazar_numero texto_separado.

(** The two statements that open [infer]: [gen_text.lower()] and then
    [traducir_numero_a_texto]. *)
Definition normalize (gen_text : text) : result text :=
  traducir_numero_a_texto (lower gen_text).

(** ** The service: [infer] and the handler of POST /generate-audio/ *)

Fixpoint startswith (prefix s : text) : bool :=
  match prefix, s with
  | [], _ => true
  | p :: prefix', c :: s' => N.eqb p c && startswith prefix' s'
  | _ :: _, [] => false
  end.

(** [s.endswith(suffix)] *)
Definition endswith (s suffix : text) : bool := startswith (rev suffix) (rev s).

(** [not s] on a [str]: only the empty one is false. *)
Definition is_empty (s : text) : bool :=
  match s with [] => true | _ :: _ => false end.

Record UploadFile : Type := {
  filename : option text;          (* [Optional[str]] *)
  file : list Byte.byte
}.

Record FileResponse : Type := {
  path : text;
  response_filename : text;
  media_type : text
}.

Section Service.

(** The world outside the program (log, file system, clock, model and
    devices), and the values the collaborators exchange. *)
Variables (world wave spectrogram float : Type).

(** A computation may change the world and may raise; what it did to the world
    before raising stays done. *)
Definition M (A : Type) : Type := world -> result A * world.

#[export] Instance M_monad : Monad M := {
  ret := fun A a w => (Return a, w);
  bind := fun A B c k w =>
    match c w with
    | (Return a, w') => k a w'
    | (Raise e, w') => (Raise e, w')
    end
}.

Definition raise {A : Type} (e : exn) : M A := fun w => (Raise e, w).

(** A computation that does not touch the world. *)
Definition pure {A : Type} (r : result A) : M A := fun w => (r, w).

(** An action on the world that cannot raise. *)
Definition act {A : Type} (f : world -> A * world) : M A :=
  fun w => let (a, w') := f w in (Return a, w').

(** [try: body except Exception as e: handler(e)].  Every exception of [exn]
    is an [Exception]. *)
Definition try_except {A : Type} (body : M A) (handler : exn -> M A) : M A :=
  fun w =>
    match body w with
    | (Return a, w') => (Return a, w')
    | (Raise e, w') => handler e w'
    end.

(** The type of [infer]: reference audio, reference text, text to speak,
    silence removal, cross-fade duration and speed to wave, sample rate and
    path of the spectrogram. *)
Definition inference : Type :=
  text -> text -> text -> bool -> float -> float -> M (wave * Z * text).

(** What the program imports and calls. *)
Record Collaborators : Type := {
  time_time : world -> float * world;
  logger_info : text -> world -> unit * world;
  logger_error : text -> world -> unit * world;
  exception_str : exn -> text;                       (* [f"{e}"] *)
  seconds_str : float -> float -> text;              (* [f"{end - start:.2f}"] *)
  named_temporary_file : text -> M text;             (* suffix to name *)
  file_write : text -> list Byte.byte -> M unit;
  infer_process : text -> text -> text -> float -> float -> M (wave * Z * spectrogram);
  sf_write : text -> wave -> Z -> M unit;
  remove_silence_for_generated_wav : text -> M unit;
  torchaudio_load : text -> M wave;                  (* with the squeeze to a numpy array *)
  save_spectrogram : spectrogram -> text -> M unit;
  os_makedirs : text -> M unit;
  USING_SPACES : bool;                               (* the import of [spaces] worked *)
  spaces_GPU : inference -> inference
}.

Variable env : Collaborators.

Definition gpu_decorator (func : inference) : inference :=
  if USING_SPACES env then spaces_GPU env func else func.

(** The normaliser as [infer] runs it. *)
Definition normalize_step (gen_text : text) : M text := pure (normalize gen_text).

(** [infer] as it is written, before [gpu_decorator] is applied to it. *)
Definition infer : inference :=
  fun ref_audio_orig ref_text gen_text remove_silence cross_fade_duration speed =>
  act (logger_info env (str "Iniciando el preprocesamiento del texto...")) ;;;
  gen_text <- normalize_step gen_text ;;
  processed <- infer_process env ref_audio_orig ref_text gen_text cross_fade_duration speed ;;
  let '(final_wave, final_sample_rate, combined_spectrogram) := processed in
  final_wave <-
    (if remove_silence then
       tmp_wave <- named_temporary_file env (str ".wav") ;;
       sf_write env tmp_wave final_wave final_sample_rate ;;;
       remove_silence_for_generated_wav env tmp_wave ;;;
       torchaudio_load env tmp_wave
     else ret final_wave) ;;
  spectrogram_path <- named_temporary_file env (str ".png") ;;
  save_spectrogram env combined_spectrogram spectrogram_path ;;;
  act (logger_info env (str "Inferencia completada exitosamente.")) ;;;
  ret (final_wave, final_sample_rate, spectrogram_path).

Definition error_prefix : text := str "Error al generar el audio: ".

(** The body of the [try] block of the handler. *)
Definition generate_audio_try (start_time : float) (ref_audio : UploadFile)
    (ref_text gen_text : text) (remove_silence : bool)
    (cross_fade_duration speed : float) : M FileResponse :=
  match filename ref_audio with
  | None => raise AttributeError
  | Some name =>
      if negb (endswith name (str ".wav"))
      then raise (HTTPException 400
             (str "El archivo de audio debe estar en formato WAV."))
      else ret tt
  end ;;;
  ref_audio_path <-
    (tmp_audio <- named_temporary_file env (str ".wav") ;;
     file_write env tmp_audio (file ref_audio) ;;;
     ret tmp_audio) ;;
  (if is_empty ref_text || is_empty gen_text
   then raise (HTTPException 400
          (str "Ambos textos (de referencia y generaci" ++ [o_acute]
           ++ str "n) son obligatorios."))
   else ret tt) ;;;
  act (logger_info env (str "Iniciando la inferencia de audio...")) ;;;
  inferred <- gpu_decorator infer ref_audio_path ref_text gen_text remove_silence
                cross_fade_duration speed ;;
  let '(final_wave, final_sample_rate, _) := inferred in
  let output_dir := str "/app/generated_audio_files" in
  os_makedirs env output_dir ;;;
  let generated_audio_path := output_dir ++ str "/generated_audio.wav" in
  sf_write env generated_audio_path final_wave final_sample_rate ;;;
  end_time <- act (time_time env) ;;
  act (logger_info env
         (str "Tiempo total de ejecuci" ++ [o_acute] ++ str "n: "
          ++ seconds_str env start_time end_time ++ str " segundos")) ;;;
  ret {| path := generated_audio_path;
         response_filename := str "generated_audio.wav";
         media_type := str "audio/wav" |}.

(** The [except Exception as e] clause. *)
Definition generate_audio_except (e : exn) : M FileResponse :=
  act (logger_error env (error_prefix ++ exception_str env e)) ;;;
  raise (HTTPException 500 (error_prefix ++ exception_str env e)).

Definition generate_audio (ref_audio : UploadFile) (ref_text gen_text : text)
    (remove_silence : bool) (cross_fade_duration speed : float) : M FileResponse :=
  start_time <- act (time_time env) ;;
  try_except
    (generate_audio_try start_time ref_audio ref_text gen_text remove_silence
       cross_fade_duration speed)
    generate_audio_except.

End Service.

Arguments raise {world A} e.
Arguments pure {world A} r.
Arguments act {world A} f.
Arguments try_except {world A} body handler.
Arguments normalize_step {world} gen_text.
Arguments infer {world wave spectrogram float} env.
Arguments gpu_decorator {world wave spectrogram float} env func.
Arguments generate_audio_try {world wave spectrogram float} env.
Arguments generate_audio_except {world wave spectrogram float} env.
Arguments generate_audio {world wave spectrogram float} env.

(** The checks of the handler that answer 400 inside the [try] block, and
    the upload without a file name. *)
Definition rejected_input (ref_audio : UploadFile) (ref_text gen_text : text) : bool :=
  match filename ref_audio with
  | Some name => negb (endswith name (str ".wav"))
  | None => true
  end || is_empty ref_text || is_empty gen_text.

(** [str] of an [int]. *)
Definition decimal_text (n : Z) : text := str (NilZero.string_of_int (Z.to_int n)).

(** A small world to run the service in: the world is the log, the model
    answers with an empty wave at 24 kHz, the file system accepts everything,
    and the exceptions print as Python, num2words and Starlette print
    them. *)
Definition demo_env : Collaborators (list text) unit unit Z := {|
  time_time := fun w => (0%Z, w);
  logger_info := fun msg w => (tt, msg :: w);
  logger_error := fun msg w => (tt, msg :: w);
  exception_str := fun e =>
    match e with
    | OverflowError value =>
        str "abs(" ++ decimal_text value ++ str ") must be less than "
        ++ decimal_text Num2Words.MAXVAL ++ str "."
    | ValueError digits =>
        str "Exceeds the limit (4300 digits) for integer string conversion: value has "
        ++ decimal_text (Z.of_nat digits)
        ++ str " digits; use sys.set_int_max_str_digits() to increase the limit"
    | AttributeError => str "'NoneType' object has no attribute 'endswith'"
    | HTTPException status_code detail =>
        decimal_text status_code ++ str ": " ++ detail
    | OtherException name => name
    end;
  seconds_str := fun _ _ => str "0.00";
  named_temporary_file := fun suffix w => (Return (str "/tmp/tmp0" ++ suffix), w);
  file_write := fun _ _ w => (Return tt, w);
  infer_process := fun _ _ _ _ _ w => (Return (tt, 24000%Z, tt), w);
  sf_write := fun _ _ _ w => (Return tt, w);
  remove_silence_for_generated_wav := fun _ w => (Return tt, w);
  torchaudio_load := fun _ w => (Return tt, w);
  save_spectrogram := fun _ _ w => (Return tt, w);
  os_makedirs := fun _ w => (Return tt, w);
  USING_SPACES := false;
  spaces_GPU := fun func => func
|}.

(** The same world with a full disk: no temporary file can be created. *)
Definition full_disk_env : Collaborators (list text) unit unit Z := {|
  time_time := time_time _ _ _ _ demo_env;
  logger_info := logger_info _ _ _ _ demo_env;
  logger_error := logger_error _ _ _ _ demo_env;
  exception_str := exception_str _ _ _ _ demo_env;
  seconds_str := seconds_str _ _ _ _ demo_env;
  named_temporary_file := fun _ w =>
    (Raise (OtherException (str "[Errno 28] No space left on device")), w);
  file_write := file_write _ _ _ _ demo_env;
  infer_process := infer_process _ _ _ _ demo_env;
  sf_write := sf_write _ _ _ _ demo_env;
  remove_silence_for_generated_wav := remove_silence_for_generated_wav _ _ _ _ demo_env;
  torchaudio_load := torchaudio_load _ _ _ _ demo_env;
  save_spectrogram := save_spectrogram _ _ _ _ demo_env;
  os_makedirs := os_makedirs _ _ _ _ demo_env;
  USING_SPACES := false;
  spaces_GPU := fun func => func
|}.

(** ** Vocabulary of the properties *)

(** [str.isalpha]: the letters, ASCII or not. *)
Definition is_letter (c : char) : bool := in_ranges alpha_ranges c.

Definition has_digit (s : text) : bool := existsb is_digit s.

(** Every two neighbouring characters satisfy [Q]. *)
Fixpoint all_adjacent (Q : char -> char -> bool) (s : text) : bool :=
  match s with
  | a :: ((b :: _) as t) => Q a b && all_adjacent Q t
  | _ => true
  end.

(** The spec's wording of the boundary step: one space between every two
    neighbours that satisfy [P], nothing else changed. *)
Fixpoint insert_spaces (P : char -> char -> bool) (s : text) : text :=
  match s with
  | a :: ((b :: _) as t) =>
      if P a b then a :: space :: insert_spaces P t else a :: insert_spaces P t
  | _ => s
  end.

Definition letter_then_digit (a b : char) : bool := is_ascii_letter a && is_digit b.
Definition digit_then_letter (a b : char) : bool := is_digit a && is_ascii_letter b.

(** A digit next to an ASCII letter, in either order. *)
Definition ascii_letter_digit_pair (a b : char) : bool :=
  letter_then_digit a b || digit_then_letter a b.

(** A digit next to a letter of any kind, in either order. *)
Definition letter_digit_pair (a b : char) : bool :=
  (is_letter a && is_digit b) || (is_digit a && is_letter b).

(** A digit next to a word character that the boundary step does not split
    from it (an underscore, an accented letter, a superscript...). *)
Definition glued_pair (a b : char) : bool :=
  (is_other_word a && is_digit b) || (is_digit a && is_other_word b).

(** A digit next to a word character that is not a digit: where this
    happens the run of the digit is not delimited by [\b]. *)
Definition unbounded_pair (a b : char) : bool :=
  (is_word a && negb (is_digit a) && is_digit b)
  || (is_digit a && is_word b && negb (is_digit b)).

Definition none_adjacent (P : char -> char -> bool) (s : text) : bool :=
  all_adjacent (fun a b => negb (P a b)) s.

(** Every maximal run of digits has at most [k] digits. *)
Fixpoint runs_within (k : nat) (s : text) : bool :=
  match s with
  | [] => true
  | _ :: t => (Re.digits_prefix s <=? k)%nat && runs_within k t
  end.

(** The value of a run of digits read in base ten. *)
Definition decimal_value (ds : text) : Z :=
  fold_left (fun acc c => 10 * acc + digit_value c)%Z ds 0%Z.

(** The variable [texto_separado] after the two boundary substitutions. *)
Definition texto_separado (texto : text) : result text :=
  separado <- Re.sub Re.letter_digit Re.group1_space_group2 texto ;;
  Re.sub Re.digit_letter Re.group1_space_group2 separado.

(** The third substitution, started with [prev] before the text. *)
Definition sub_numbers (prev : option char) (s : text) : result text :=
  Re.sub_from Re.number reemplazar_numero 0 prev s.

(** The character before the position reached after scanning [a]. *)
Definition prev_after (prev : option char) (a : text) : option char :=
  fold_left (fun _ c => Some c) a prev.

Definition starts_with_digit (s : text) : bool :=
  match s with c :: _ => is_digit c | [] => false end.

(** The space the boundary step puts between two texts. *)
Definition gap (P : char -> char -> bool) (a b : text) : text :=
  match prev_after None a, head b with
  | Some x, Some y => if P x y then [space] else []
  | _, _ => []
  end.

(** The characters [num2words] writes: lower-case ASCII letters, the two
    accented vowels and the space. *)
Definition is_spelling_char (c : char) : bool :=
  between 97 122 c || (ord c =? 32)%N || (ord c =? 233)%N || (ord c =? 243)%N.

(** A run of digits between [prev] and [rest] is delimited by [\b] on both
    sides. *)
Definition bounded (prev : option char) (rest : text) : bool :=
  negb (Re.is_word_at prev) && negb (Re.is_word_at (head rest)).

(** [Q] holds of two neighbours when both are there. *)
Definition adjacent_opt (Q : char -> char -> bool) (a b : option char) : bool :=
  match a, b with
  | Some x, Some y => Q x y
  | _, _ => true
  end.

Definition is_digit_at (c : option char) : bool :=
  match c with Some c => is_digit c | None => false end.

Definition is_ascii_letter_at (c : option char) : bool :=
  match c with Some c => is_ascii_letter c | None => false end.

(** A character that [str.lower] keeps wherever it stands. *)
Definition lower_fixed (c : char) : bool :=
  negb (c =? capital_sigma)%N && negb (c =? capital_i_with_dot)%N
  && (lower_simple c =? c)%N.

(** The neighbour of a run of digits leaves the run free: there is none, or
    it is neither a digit (the run would be longer) nor a word character that
    the boundary step leaves glued to the run. *)
Definition free_side (c : option char) : bool :=
  match c with
  | Some c => negb (is_digit c) && negb (is_other_word c)
  | None => true
  end.

Definition space_if (b : bool) : text := if b then [space] else [].

(** No match of the third pattern can straddle the end of [u] when followed
    by [v]: the two characters at the cut are not both word characters. *)
Definition clean_cut (u v : text) : bool :=
  negb (Re.is_word_at (prev_after None u) && Re.is_word_at (head v)).

(** A card whose word form is written with those characters only. *)
Definition spelled_card (c : Num2Words.card) : Prop :=
  forallb is_spelling_char (fst c) = true.

(** The Spanish spelling that [num2words] gives for the value of a run of
    digits: nothing for no run, and the run itself where [num2words] gives
    none. *)
Definition run_spelling (run : text) : text :=
  match run with
  | [] => []
  | _ :: _ =>
      match num2words_es (decimal_value run) with
      | Return words => words
      | Raise _ => run
      end
  end.

(** The spec's wording of the third step: every maximal run of digits gives
    way to the spelling of its value, every other character stays.  [run]
    holds the digits of the run being read. *)
Fixpoint spell_runs_from (run s : text) : text :=
  match s with
  | [] => run_spelling run
  | c :: t =>
      if is_digit c then spell_runs_from (run ++ [c]) t
      else run_spelling run ++ c :: spell_runs_from [] t
  end.

Definition spell_runs (s : text) : text := spell_runs_from [] s.

(** The code points of a range, and the pairs of a row of the lower-case
    table: what a check of a whole table runs over. *)
Definition range_points (range : N * N) : list char :=
  let (lo, hi) := range in
  map (fun k => (lo + N.of_nat k)%N) (seq 0 (N.to_nat (hi + 1 - lo))).

Definition row_pairs (row : N * N * N * N) : list (char * char) :=
  let '(lo, hi, step, target) := row in
  map (fun k => ((lo + step * N.of_nat k)%N, (target + step * N.of_nat k)%N))
      (seq 0 (N.to_nat ((hi - lo) / step) + 1)).

(** ** Characters *)

(** *** Checking a class on every character of a table *)

Lemma between_points (lo hi : N) (c : char) :
  between lo hi c = true -> In c (range_points (lo, hi)).
Proof.
  unfold between, ord, range_points. intros H.
  apply andb_prop in H as [H1 H2]. apply N.leb_le in H1, H2.
  apply in_map_iff. exists (N.to_nat (c - lo)). split.
  - rewrite N2Nat.id. lia.
  - apply in_seq. lia.
Qed.

Lemma in_ranges_points (ranges : list (N * N)) (c : char) :
  in_ranges ranges c = true -> In c (flat_map range_points ranges).
Proof.
  induction ranges as [|[lo hi] ranges IH]; [discriminate|].
  cbn [in_ranges flat_map]. intros H. apply in_or_app.
  apply orb_prop in H as [H|H]; [left; now apply between_points | right; auto].
Qed.

Lemma ranges_forall (P : char -> bool) (ranges : list (N * N)) :
  forallb P (flat_map range_points ranges) = true ->
  forall c, in_ranges ranges c = true -> P c = true.
Proof.
  intros H c Hc. rewrite forallb_forall in H. apply H.
  now apply in_ranges_points.
Qed.

Lemma in_row_pairs (row : N * N * N * N) (c : char) :
  in_row row c = true ->
  let '(lo, _, _, target) := row in In (c, (target + (c - lo))%N) (row_pairs row).
Proof.
  destruct row as [[[lo hi] step] target]. unfold in_row, row_pairs.
  intros H. apply andb_prop in H as [H H3]. apply andb_prop in H as [H1 H2].
  apply N.leb_le in H1, H2. apply N.eqb_eq in H3.
  assert (E : (c - lo = step * ((c - lo) / step))%N).
  { pose proof (N.Div0.div_mod (c - lo) step) as D. lia. }
  apply in_map_iff. exists (N.to_nat ((c - lo) / step)). split.
  - rewrite N2Nat.id, <- E. f_equal. lia.
  - assert (Q : ((c - lo) / step <= (hi - lo) / step)%N)
      by (apply N.Div0.div_le_mono; lia).
    clear E. revert Q.
    generalize ((c - lo) / step)%N, ((hi - lo) / step)%N. intros q q' Q.
    apply in_seq. lia.
Qed.

Lemma lower_simple_cases (c : char) :
  lower_simple c = c \/ In (c, lower_simple c) (flat_map row_pairs lower_rows).
Proof.
  unfold lower_simple.
  destruct (find (fun row => in_row row c) lower_rows) as [row|] eqn:E; [|now left].
  right. apply find_some in E as [Hin Hrow].
  apply in_flat_map. exists row. split; [exact Hin|].
  pose proof (in_row_pairs row c Hrow) as P.
  now destruct row as [[[lo hi] step] target].
Qed.

Lemma lower_pairs_forall (P : char -> char -> bool) :
  forallb (fun p => P (fst p) (snd p)) (flat_map row_pairs lower_rows) = true ->
  forall c, lower_simple c <> c -> P c (lower_simple c) = true.
Proof.
  intros H c Hc. destruct (lower_simple_cases c) as [E|E]; [contradiction|].
  rewrite forallb_forall in H. exact (H _ E).
Qed.

(** *** The classes *)

Lemma is_ascii_letter_ranges (c : char) :
  is_ascii_letter c = in_ranges [(65, 90); (97, 122)]%N c.
Proof. unfold is_ascii_letter. cbn [in_ranges]. now rewrite orb_false_r. Qed.

Lemma digit_is_word (c : char) : is_digit c = true -> is_word c = true.
Proof. apply (ranges_forall is_word). vm_compute. reflexivity. Qed.

Lemma digit_not_letter (c : char) : is_digit c = true -> is_ascii_letter c = false.
Proof.
  intros H. apply negb_true_iff. revert c H.
  apply (ranges_forall (fun c => negb (is_ascii_letter c))). vm_compute. reflexivity.
Qed.

Lemma letter_is_word (c : char) : is_ascii_letter c = true -> is_word c = true.
Proof.
  rewrite is_ascii_letter_ranges. apply (ranges_forall is_word).
  vm_compute. reflexivity.
Qed.

Lemma digit_not_other (c : char) : is_digit c = true -> is_other_word c = false.
Proof. unfold is_other_word. intros ->. now rewrite andb_false_r. Qed.

Lemma word_not_digit (c : char) :
  is_word c && negb (is_digit c) = is_ascii_letter c || is_other_word c.
Proof.
  unfold is_other_word.
  destruct (is_digit c) eqn:D.
  - rewrite (digit_not_letter c D). now rewrite andb_false_r.
  - destruct (is_ascii_letter c) eqn:L.
    + now rewrite (letter_is_word c L).
    + now rewrite !andb_true_r.
Qed.

Lemma is_word_cases (c : char) :
  is_word c = is_digit c || is_ascii_letter c || is_other_word c.
Proof.
  destruct (is_digit c) eqn:D; [now rewrite (digit_is_word c D)|].
  cbn [orb]. rewrite <- word_not_digit, D. now rewrite andb_true_r.
Qed.

Lemma digit_stops_sigma (c : char) :
  is_digit c = true -> is_case_ignorable c = false /\ is_cased c = false.
Proof.
  intros H.
  assert (negb (is_case_ignorable c) && negb (is_cased c) = true) as E.
  { revert c H. apply (ranges_forall (fun c => negb (is_case_ignorable c) && negb (is_cased c))).
    vm_compute. reflexivity. }
  apply andb_prop in E as [E1 E2]. now apply negb_true_iff in E1, E2.
Qed.

Lemma digit_lower_fixed (c : char) : is_digit c = true -> lower_fixed c = true.
Proof. apply (ranges_forall lower_fixed). vm_compute. reflexivity. Qed.

Lemma is_spelling_char_ranges (c : char) :
  is_spelling_char c = in_ranges [(97, 122); (32, 32); (233, 233); (243, 243)]%N c.
Proof.
  unfold is_spelling_char. cbn [in_ranges]. rewrite orb_false_r.
  assert (E : forall n, (ord c =? n)%N = between n n c).
  { intros n. unfold between.
    destruct (N.eqb_spec (ord c) n) as [->|Hn].
    - now rewrite N.leb_refl.
    - destruct (N.leb_spec n (ord c)), (N.leb_spec (ord c) n); try reflexivity. lia. }
  now rewrite !E, !orb_assoc.
Qed.

Lemma spelling_char_plain (c : char) :
  is_spelling_char c = true -> is_digit c = false /\ lower_fixed c = true.
Proof.
  rewrite is_spelling_char_ranges. intros H.
  assert (negb (is_digit c) && lower_fixed c = true) as E.
  { revert c H. apply (ranges_forall (fun c => negb (is_digit c) && lower_fixed c)).
    vm_compute. reflexivity. }
  apply andb_prop in E as [E1 E2]. now apply negb_true_iff in E1.
Qed.

Lemma space_not_word : is_word space = false.
Proof. vm_compute. reflexivity. Qed.

Lemma space_not_digit : is_digit space = false.
Proof. vm_compute. reflexivity. Qed.

Lemma space_not_letter : is_ascii_letter space = false.
Proof. reflexivity. Qed.

(** *** [str.lower], character by character *)

Lemma lower_at_fixed (before after : text) (c : char) :
  lower_fixed c = true -> lower_at before c after = [c].
Proof.
  unfold lower_fixed, lower_at, lower_full. intros H.
  apply andb_prop in H as [H H3]. apply andb_prop in H as [H1 H2].
  apply negb_true_iff in H1, H2. apply N.eqb_eq in H3.
  now rewrite H1, H2, H3.
Qed.

Lemma lower_simple_fixed (c : char) :
  (c =? capital_sigma)%N = false -> (c =? capital_i_with_dot)%N = false ->
  lower_fixed (lower_simple c) = true.
Proof.
  intros H1 H2. destruct (N.eq_dec (lower_simple c) c) as [E|E].
  - rewrite E. unfold lower_fixed. now rewrite H1, H2, E, N.eqb_refl.
  - clear H1 H2. revert c E. apply (lower_pairs_forall (fun _ d => lower_fixed d)).
    vm_compute. reflexivity.
Qed.

Lemma lower_at_is_fixed (before after : text) (c : char) :
  forallb lower_fixed (lower_at before c after) = true.
Proof.
  unfold lower_at, lower_full.
  destruct (c =? capital_sigma)%N eqn:H1.
  - now destruct (in_final_sigma_context before after).
  - destruct (c =? capital_i_with_dot)%N eqn:H2; [reflexivity|].
    cbn [forallb]. now rewrite lower_simple_fixed.
Qed.

Lemma lower_simple_no_digit (c : char) :
  is_digit c = false -> is_digit (lower_simple c) = false.
Proof.
  intros H. destruct (N.eq_dec (lower_simple c) c) as [E|E]; [now rewrite E|].
  apply negb_true_iff. clear H. revert c E.
  apply (lower_pairs_forall (fun _ d => negb (is_digit d))). vm_compute. reflexivity.
Qed.

Lemma lower_at_no_digit (before after : text) (c : char) :
  is_digit c = false -> has_digit (lower_at before c after) = false.
Proof.
  intros H. unfold lower_at, lower_full.
  destruct (c =? capital_sigma)%N.
  - now destruct (in_final_sigma_context before after).
  - destruct (c =? capital_i_with_dot)%N; [reflexivity|].
    cbn [has_digit existsb]. now rewrite lower_simple_no_digit.
Qed.

Lemma lower_at_not_nil (before after : text) (c : char) :
  exists d w, lower_at before c after = d :: w.
Proof.
  unfold lower_at, lower_full.
  destruct (c =? capital_sigma)%N; [eauto|].
  destruct (c =? capital_i_with_dot)%N; eauto.
Qed.

Lemma lower_at_digit (before after : text) (c : char) :
  is_digit c = true -> lower_at before c after = [c].
Proof. intros H. apply lower_at_fixed. now apply digit_lower_fixed. Qed.

(** *** [str.lower] on a text *)

Lemma lower_fixed_text_from (s : text) : forall before,
  forallb lower_fixed s = true -> lower_from before s = s.
Proof.
  induction s as [|c s IH]; intros before H; [reflexivity|].
  cbn [forallb] in H. apply andb_prop in H as [Hc H].
  cbn [lower_from]. now rewrite lower_at_fixed, IH.
Qed.

Lemma lower_fixed_text (s : text) : forallb lower_fixed s = true -> lower s = s.
Proof. apply lower_fixed_text_from. Qed.

Lemma lower_fixed_lower_from (s : text) : forall before,
  forallb lower_fixed (lower_from before s) = true.
Proof.
  induction s as [|c s IH]; intros before; [reflexivity|].
  cbn [lower_from]. now rewrite forallb_app, lower_at_is_fixed, IH.
Qed.

Lemma lower_fixed_lower (s : text) : forallb lower_fixed (lower s) = true.
Proof. apply lower_fixed_lower_from. Qed.

Lemma lower_idem (s : text) : lower (lower s) = lower s.
Proof. apply lower_fixed_text, lower_fixed_lower. Qed.

Lemma has_digit_app (a b : text) : has_digit (a ++ b) = has_digit a || has_digit b.
Proof. apply existsb_app. Qed.

Lemma has_digit_lower_from (s : text) : forall before,
  has_digit (lower_from before s) = has_digit s.
Proof.
  induction s as [|c s IH]; intros before; [reflexivity|].
  cbn [lower_from]. rewrite has_digit_app, IH.
  destruct (is_digit c) eqn:D.
  - rewrite lower_at_digit by exact D. cbn [has_digit existsb]. now rewrite D.
  - rewrite lower_at_no_digit by exact D. cbn [has_digit existsb orb]. now rewrite D.
Qed.

Lemma has_digit_lower (s : text) : has_digit (lower s) = has_digit s.
Proof. apply has_digit_lower_from. Qed.

(** ** The substitution engine *)

Lemma bind_return_r (A : Type) (c : result A) : (x <- c ;; Return x) = c.
Proof. destruct c; reflexivity. Qed.

Lemma prev_after_app (p : option char) (a b : text) :
  prev_after p (a ++ b) = prev_after (prev_after p a) b.
Proof. apply fold_left_app. Qed.

Lemma prev_after_cons (p : option char) (c : char) (a : text) :
  prev_after p (c :: a) = prev_after (Some c) a.
Proof. reflexivity. Qed.

Lemma firstn_length_app (A : Type) (a b : list A) : firstn (List.length a) (a ++ b) = a.
Proof.
  induction a as [|x a IH]; simpl.
  - reflexivity.
  - now rewrite IH.
Qed.

Section Engine.

Variables (m : Re.matcher) (repl : text -> result text).

Lemma sub_from_cons (prev : option char) (c : char) (t : text) :
  Re.sub_from m repl 0 prev (c :: t)
  = match m prev (c :: t) with
    | Some n =>
        r <- repl (firstn n (c :: t)) ;;
        rest <- Re.sub_from m repl (pred n) (Some c) t ;;
        Return (r ++ rest)
    | None => rest <- Re.sub_from m repl 0 (Some c) t ;; Return (c :: rest)
    end.
Proof. reflexivity. Qed.

Lemma sub_from_skip (a : text) : forall prev b,
  Re.sub_from m repl (List.length a) prev (a ++ b)
  = Re.sub_from m repl 0 (prev_after prev a) b.
Proof.
  induction a as [|c a IH]; intros prev b; simpl.
  - reflexivity.
  - apply IH.
Qed.

Lemma sub_from_match (c : char) (a b : text) (prev : option char) :
  m prev (c :: a ++ b) = Some (S (List.length a)) ->
  Re.sub_from m repl 0 prev (c :: a ++ b)
  = (r <- repl (c :: a) ;;
     rest <- Re.sub_from m repl 0 (prev_after prev (c :: a)) b ;;
     Return (r ++ rest)).
Proof.
  intros H. simpl. rewrite H. simpl.
  rewrite firstn_length_app, sub_from_skip. reflexivity.
Qed.

Lemma sub_from_nomatch (a : text) : forall prev b,
  (forall a1 c a2, a = a1 ++ c :: a2 ->
     m (prev_after prev a1) (c :: a2 ++ b) = None) ->
  Re.sub_from m repl 0 prev (a ++ b)
  = (rest <- Re.sub_from m repl 0 (prev_after prev a) b ;; Return (a ++ rest)).
Proof.
  induction a as [|c a IH]; intros prev b H.
  - cbn. destruct (Re.sub_from m repl 0 prev b); reflexivity.
  - pose proof (H [] c a eq_refl) as H0. cbn [prev_after fold_left] in H0.
    cbn [app Re.sub_from]. rewrite H0, IH.
    + unfold prev_after. cbn.
      match goal with
      | |- context [Re.sub_from ?x ?y ?z ?u ?v] => destruct (Re.sub_from x y z u v)
      end; reflexivity.
    + intros a1 c' a2 E. apply (H (c :: a1) c' a2). now rewrite E.
Qed.

End Engine.

(** ** The pattern of the third substitution on a run of digits *)

Lemma digits_prefix_run (ds rest : text) :
  forallb is_digit ds = true -> starts_with_digit rest = false ->
  Re.digits_prefix (ds ++ rest) = List.length ds.
Proof.
  intros Hds Hrest. induction ds as [|d ds IH]; simpl in *.
  - destruct rest as [|c t]; simpl in *; [reflexivity | now rewrite Hrest].
  - apply andb_prop in Hds as [Hd Hds]. rewrite Hd. f_equal. now apply IH.
Qed.

Lemma nth_error_digit (ds rest : text) (k : nat) :
  forallb is_digit ds = true -> (k < List.length ds)%nat ->
  exists d, nth_error (ds ++ rest) k = Some d /\ is_digit d = true.
Proof.
  intros Hds Hk. rewrite nth_error_app1 by assumption.
  destruct (nth_error ds k) as [d|] eqn:E.
  - exists d; split; [reflexivity|].
    rewrite forallb_forall in Hds. apply Hds. eapply nth_error_In; eassumption.
  - apply nth_error_None in E. lia.
Qed.

Lemma digits_then_boundary_inside (ds rest : text) (k : nat) :
  forallb is_digit ds = true -> (k < List.length ds)%nat ->
  Re.digits_then_boundary k (ds ++ rest) = None.
Proof.
  intros Hds. induction k as [|k IH]; intros Hk; cbn [Re.digits_then_boundary].
  - reflexivity.
  - destruct (nth_error_digit ds rest k Hds) as (d1 & -> & H1); [lia|].
    destruct (nth_error_digit ds rest (S k) Hds) as (d2 & -> & H2); [lia|].
    unfold Re.word_boundary; cbn [Re.is_word_at].
    rewrite (digit_is_word _ H1), (digit_is_word _ H2). cbn [xorb]. apply IH; lia.
Qed.

Lemma nth_error_length_app (A : Type) (a b : list A) :
  nth_error (a ++ b) (List.length a) = head b.
Proof.
  rewrite nth_error_app2 by lia. rewrite Nat.sub_diag. now destruct b.
Qed.

Lemma number_run (prev : option char) (d : char) (ds rest : text) :
  forallb is_digit (d :: ds) = true -> starts_with_digit rest = false ->
  Re.number prev (d :: ds ++ rest)
  = if bounded prev rest then Some (S (List.length ds)) else None.
Proof.
  intros Hds Hrest. unfold Re.number, bounded.
  change (d :: ds ++ rest) with ((d :: ds) ++ rest).
  rewrite (digits_prefix_run _ _ Hds Hrest).
  pose proof Hds as Hd. cbn [forallb] in Hd. apply andb_prop in Hd as [Hd _].
  unfold Re.word_boundary at 1. cbn [app head Re.is_word_at].
  rewrite (digit_is_word _ Hd).
  destruct (Re.is_word_at prev); cbn [xorb negb andb]; [reflexivity|].
  cbn [List.length Re.digits_then_boundary].
  change (d :: ds ++ rest) with ((d :: ds) ++ rest).
  destruct (nth_error_digit (d :: ds) rest (List.length ds) Hds) as (l & -> & Hl);
    [simpl; lia|].
  change (S (List.length ds)) with (List.length (d :: ds)) at 1.
  rewrite nth_error_length_app.
  unfold Re.word_boundary. cbn [Re.is_word_at]. rewrite (digit_is_word _ Hl).
  destruct (Re.is_word_at (head rest)); cbn [xorb negb].
  - apply digits_then_boundary_inside; [assumption | simpl; lia].
  - reflexivity.
Qed.

Lemma number_nondigit (prev : option char) (s : text) :
  starts_with_digit s = false -> Re.number prev s = None.
Proof.
  intros H. unfold Re.number.
  assert (Re.digits_prefix s = 0%nat) as ->.
  { destruct s as [|c t]; simpl in *; [reflexivity | now rewrite H]. }
  simpl. now destruct (Re.word_boundary prev (head s)).
Qed.

Lemma prev_after_digits (prev : option char) (a : text) :
  a <> [] -> forallb is_digit a = true -> Re.is_word_at (prev_after prev a) = true.
Proof.
  revert prev. induction a as [|c a IH]; intros prev Hne Ha; [congruence|].
  cbn [forallb] in Ha. apply andb_prop in Ha as [Hc Ha].
  rewrite prev_after_cons. destruct a as [|c' a'].
  - simpl. now apply digit_is_word.
  - apply IH; [discriminate | assumption].
Qed.

(** ** The third substitution, step by step *)

Lemma sub_numbers_nil (prev : option char) : sub_numbers prev [] = Return [].
Proof. reflexivity. Qed.

Lemma sub_numbers_nondigit (prev : option char) (c : char) (t : text) :
  is_digit c = false ->
  sub_numbers prev (c :: t) = (rest <- sub_numbers (Some c) t ;; Return (c :: rest)).
Proof.
  intros Hc. unfold sub_numbers. cbn [Re.sub_from].
  now rewrite number_nondigit by exact Hc.
Qed.

Lemma sub_numbers_run (prev : option char) (d : char) (ds rest : text) :
  forallb is_digit (d :: ds) = true -> starts_with_digit rest = false ->
  sub_numbers prev (d :: ds ++ rest)
  = if bounded prev rest
    then (r <- reemplazar_numero (d :: ds) ;;
          out <- sub_numbers (prev_after prev (d :: ds)) rest ;;
          Return (r ++ out))
    else (out <- sub_numbers (prev_after prev (d :: ds)) rest ;;
          Return (d :: ds ++ out)).
Proof.
  intros Hds Hrest. unfold sub_numbers.
  destruct (bounded prev rest) eqn:B.
  - apply sub_from_match. now rewrite number_run, B.
  - change (d :: ds ++ rest) with ((d :: ds) ++ rest).
    rewrite sub_from_nomatch; [reflexivity|].
    intros a1 c a2 E.
    assert (Hc : forallb is_digit (c :: a2) = true).
    { rewrite E, forallb_app in Hds. now apply andb_prop in Hds as [_ ?]. }
    rewrite number_run by assumption.
    destruct a1 as [|x a1].
    + simpl. now rewrite B.
    + unfold bounded. rewrite prev_after_digits; [reflexivity | discriminate |].
      rewrite E, forallb_app in Hds. now apply andb_prop in Hds as [? _].
Qed.

Lemma sub_numbers_prev (p q : option char) (s : text) :
  Re.is_word_at p = Re.is_word_at q \/ starts_with_digit s = false ->
  sub_numbers p s = sub_numbers q s.
Proof.
  intros H. destruct s as [|c t]; [reflexivity|].
  unfold sub_numbers. cbn [Re.sub_from].
  assert (Re.number p (c :: t) = Re.number q (c :: t)) as ->; [|reflexivity].
  destruct H as [H|H].
  - unfold Re.number, Re.word_boundary. now rewrite H.
  - now rewrite !number_nondigit.
Qed.

Lemma digits_split (s : text) :
  exists ds rest, s = ds ++ rest /\ forallb is_digit ds = true
                  /\ starts_with_digit rest = false.
Proof.
  induction s as [|c t (ds & rest & -> & Hds & Hrest)].
  - exists [], []; auto.
  - destruct (is_digit c) eqn:Hc.
    + exists (c :: ds), rest; simpl; rewrite Hc; auto.
    + exists [], (c :: ds ++ rest); simpl; auto.
Qed.

(** Induction along the scan of the third substitution: a character that is
    not a digit, or a maximal run of digits. *)
Lemma run_ind (P : text -> Prop) :
  P [] ->
  (forall c t, is_digit c = false -> P t -> P (c :: t)) ->
  (forall d ds rest, forallb is_digit (d :: ds) = true ->
     starts_with_digit rest = false -> P rest -> P (d :: ds ++ rest)) ->
  forall s, P s.
Proof.
  intros Hnil Hchar Hrun s.
  remember (List.length s) as n eqn:Hn.
  revert s Hn. induction n as [n IH] using lt_wf_ind; intros s Hn.
  destruct s as [|c t]; [exact Hnil|].
  destruct (is_digit c) eqn:Hc.
  - destruct (digits_split t) as (ds & rest & -> & Hds & Hrest).
    apply Hrun; [simpl; now rewrite Hc | assumption |].
    apply (IH (List.length rest)); [|reflexivity].
    subst n. simpl. rewrite length_app. lia.
  - apply Hchar; [assumption|].
    apply (IH (List.length t)); [subst n; simpl; lia | reflexivity].
Qed.

Lemma sub_numbers_head (p : option char) (rest out : text) :
  starts_with_digit rest = false -> sub_numbers p rest = Return out ->
  head out = head rest.
Proof.
  intros Hrest H. destruct rest as [|c t].
  - cbn in H. now inversion H.
  - rewrite sub_numbers_nondigit in H by exact Hrest.
    cbn in H. destruct (sub_numbers (Some c) t); now inversion H.
Qed.

Lemma starts_with_digit_head (a b : text) :
  head a = head b -> starts_with_digit a = starts_with_digit b.
Proof. destruct a, b; simpl; congruence. Qed.

Lemma bounded_head (p : option char) (a b : text) :
  head a = head b -> bounded p a = bounded p b.
Proof. unfold bounded. now intros ->. Qed.

Lemma sub_numbers_plain (w : text) : forall prev r,
  has_digit w = false ->
  sub_numbers prev (w ++ r)
  = (out <- sub_numbers (prev_after prev w) r ;; Return (w ++ out)).
Proof.
  induction w as [|c w IH]; intros prev r Hw.
  - change (prev_after prev []) with prev. cbn [app].
    now destruct (sub_numbers prev r).
  - cbn [has_digit existsb] in Hw. apply orb_false_elim in Hw as [Hc Hw].
    cbn [app]. rewrite sub_numbers_nondigit by exact Hc.
    rewrite IH by exact Hw. rewrite prev_after_cons.
    now destruct (sub_numbers (prev_after (Some c) w) r).
Qed.

(** ** What [num2words] writes *)

Module Num2WordsFacts.
Import Num2Words.
Local Open Scope Z_scope.

Lemma forallb_firstn (A : Type) (f : A -> bool) (l : list A) (k : nat) :
  forallb f l = true -> forallb f (firstn k l) = true.
Proof.
  revert k. induction l as [|x l IH]; intros [|k] H; simpl in *; auto.
  apply andb_prop in H as [-> H]. simpl. now apply IH.
Qed.

Lemma forallb_nth (A : Type) (f : A -> bool) (l : list (list A)) (k : nat) :
  forallb (forallb f) l = true -> forallb f (nth k l []) = true.
Proof.
  revert k. induction l as [|x l IH]; intros [|k] H; simpl in *; auto.
  - now apply andb_prop in H as [-> _].
  - apply andb_prop in H as [_ H]. now apply IH.
Qed.

Lemma forallb_drop_last (f : char -> bool) (x : text) (k : nat) :
  forallb f x = true -> forallb f (drop_last k x) = true.
Proof. apply forallb_firstn. Qed.

Ltac spelling :=
  unfold spelled_card in *; cbn [fst snd] in *;
  repeat rewrite forallb_app;
  repeat match goal with
  | H : forallb is_spelling_char ?x = true |- context [forallb is_spelling_char ?x] =>
      rewrite H
  | |- context [forallb is_spelling_char (drop_last ?k ?x)] =>
      rewrite (@forallb_drop_last is_spelling_char x k) by assumption
  end; reflexivity.

Lemma merge_words_spelled (ctext ntext : text) (cnum nnum : Z) :
  forallb is_spelling_char ctext = true -> forallb is_spelling_char ntext = true ->
  spelled_card (merge_words ctext cnum ntext nnum).
Proof.
  intros Hc Hn. unfold merge_words.
  repeat match goal with
  | |- context [if ?b then _ else _] => destruct b
  end; spelling.
Qed.

Lemma merge_spelled (a b : card) : spelled_card a -> spelled_card b -> spelled_card (merge a b).
Proof.
  destruct a as [ctext cnum], b as [ntext nnum]. intros Ha Hb.
  unfold merge. unfold spelled_card in Ha, Hb. cbn [fst] in Ha, Hb.
  destruct (cnum =? 1)%Z; [destruct (nnum <? 1000000)%Z|
                           destruct ((cnum =? 100)%Z && negb (nnum mod 1000 =? 0)%Z)].
  - exact Hb.
  - now apply merge_words_spelled.
  - apply merge_words_spelled; [|assumption]. spelling.
  - now apply merge_words_spelled.
Qed.

Lemma split_spelled (elem : Z) (word : text) (below : Z -> card) (value : Z) :
  (forall v, spelled_card (below v)) -> forallb is_spelling_char word = true ->
  spelled_card (split elem word below value).
Proof.
  intros Hb Hw. unfold split.
  assert (spelled_card (merge (if (value / elem =? 1)%Z then uno else below (value / elem))
                         (word, elem))).
  { apply merge_spelled; [destruct (value / elem =? 1)%Z; [reflexivity | apply Hb]
                         | exact Hw]. }
  destruct (value mod elem =? 0)%Z; [assumption|].
  apply merge_spelled; [assumption | apply Hb].
Qed.

Lemma low_spelled (v : Z) : spelled_card (low v).
Proof.
  apply merge_spelled; [reflexivity|].
  unfold spelled_card, low_word. cbn [fst]. now apply forallb_nth.
Qed.

Lemma tens_spelled (v : Z) : spelled_card (tens v).
Proof.
  unfold tens. destruct (v <? 30)%Z; [apply low_spelled|].
  apply split_spelled; [apply low_spelled|].
  unfold tens_word. now apply forallb_nth.
Qed.

Lemma hundreds_spelled (v : Z) : spelled_card (hundreds v).
Proof.
  unfold hundreds. destruct (v <? 100)%Z; [apply tens_spelled|].
  apply split_spelled; [apply tens_spelled | reflexivity].
Qed.

Lemma thousands_spelled (v : Z) : spelled_card (thousands v).
Proof.
  unfold thousands. destruct (v <? 1000)%Z; [apply hundreds_spelled|].
  apply split_spelled; [apply hundreds_spelled | reflexivity].
Qed.

Lemma millions_spelled (v : Z) : spelled_card (millions v).
Proof.
  unfold millions. destruct (v <? 10 ^ 6)%Z; [apply thousands_spelled|].
  apply split_spelled; [apply thousands_spelled | reflexivity].
Qed.

Lemma billions_spelled (v : Z) : spelled_card (billions v).
Proof.
  unfold billions. destruct (v <? 10 ^ 12)%Z; [apply millions_spelled|].
  apply split_spelled; [apply millions_spelled | reflexivity].
Qed.

Lemma trillions_spelled (v : Z) : spelled_card (trillions v).
Proof.
  unfold trillions. destruct (v <? 10 ^ 18)%Z; [apply billions_spelled|].
  apply split_spelled; [apply billions_spelled | reflexivity].
Qed.

Lemma quadrillions_spelled (v : Z) : spelled_card (quadrillions v).
Proof.
  unfold quadrillions. destruct (v <? 10 ^ 24)%Z; [apply trillions_spelled|].
  apply split_spelled; [apply trillions_spelled | reflexivity].
Qed.

Lemma to_cardinal_spelled (v : Z) (w : text) :
  to_cardinal v = Return w -> forallb is_spelling_char w = true.
Proof.
  unfold to_cardinal. destruct (MAXVAL <=? Z.abs v)%Z; [discriminate|].
  intros H; inversion H; subst w; clear H.
  rewrite forallb_app. rewrite (quadrillions_spelled (Z.abs v)).
  now destruct (v <? 0)%Z.
Qed.

End Num2WordsFacts.

Lemma spelling_no_digit (w : text) :
  forallb is_spelling_char w = true -> has_digit w = false.
Proof.
  induction w as [|c w IH]; cbn [forallb has_digit existsb]; intros H; [reflexivity|].
  apply andb_prop in H as [Hc H].
  destruct (spelling_char_plain _ Hc) as [-> _]. now apply IH.
Qed.

Lemma spelling_fixed (w : text) :
  forallb is_spelling_char w = true -> forallb lower_fixed w = true.
Proof.
  induction w as [|c w IH]; cbn [forallb]; intros H; [reflexivity|].
  apply andb_prop in H as [Hc H].
  destruct (spelling_char_plain _ Hc) as [_ ->]. now apply IH.
Qed.

Lemma spelling_lower (w : text) :
  forallb is_spelling_char w = true -> lower w = w.
Proof. intros H. now apply lower_fixed_text, spelling_fixed. Qed.

Lemma reemplazar_numero_spelled (numero w : text) :
  reemplazar_numero numero = Return w -> forallb is_spelling_char w = true.
Proof.
  unfold reemplazar_numero. cbn. destruct (py_int numero) as [v|]; [|discriminate].
  apply Num2WordsFacts.to_cardinal_spelled.
Qed.

(** ** A second run of the third substitution changes nothing *)

Lemma sub_numbers_fixed (s : text) : forall prev y,
  sub_numbers prev s = Return y -> sub_numbers prev y = Return y.
Proof.
  induction s as [|c t Hc IH|d ds rest Hds Hrest IH] using run_ind; intros prev y H.
  - cbn in H. inversion H. reflexivity.
  - rewrite sub_numbers_nondigit in H by exact Hc.
    destruct (sub_numbers (Some c) t) as [out|] eqn:E; [|discriminate].
    cbn in H. inversion H; subst y; clear H.
    rewrite sub_numbers_nondigit by exact Hc.
    now rewrite (IH _ _ E).
  - rewrite sub_numbers_run in H by assumption.
    destruct (bounded prev rest) eqn:B.
    + destruct (reemplazar_numero (d :: ds)) as [w|] eqn:Ew; [|discriminate].
      destruct (sub_numbers (prev_after prev (d :: ds)) rest) as [out|] eqn:E;
        [|discriminate].
      cbn in H. inversion H; subst y; clear H.
      rewrite sub_numbers_plain
        by (apply spelling_no_digit; eapply reemplazar_numero_spelled; eassumption).
      rewrite (sub_numbers_prev (prev_after prev w) (prev_after prev (d :: ds)) out).
      * now rewrite (IH _ _ E).
      * right. rewrite (starts_with_digit_head out rest); [assumption|].
        eapply sub_numbers_head; eassumption.
    + destruct (sub_numbers (prev_after prev (d :: ds)) rest) as [out|] eqn:E;
        [|discriminate].
      cbn in H. inversion H; subst y; clear H.
      assert (Hh : head out = head rest) by (eapply sub_numbers_head; eassumption).
      rewrite sub_numbers_run;
        [|assumption | now rewrite (starts_with_digit_head out rest)].
      rewrite (bounded_head prev out rest Hh), B.
      now rewrite (IH _ _ E).
Qed.

(** ** The first two substitutions insert the boundary spaces *)

Lemma insert_spaces_cons (P : char -> char -> bool) (a b : char) (t : text) :
  insert_spaces P (a :: b :: t)
  = a :: (if P a b then [space] else []) ++ insert_spaces P (b :: t).
Proof. cbn [insert_spaces]. now destruct (P a b). Qed.

Lemma insert_spaces_head (P : char -> char -> bool) (s : text) :
  head (insert_spaces P s) = head s.
Proof. destruct s as [|a [|b t]]; cbn; [reflexivity..|]. now destruct (P a b). Qed.

Lemma sub_pair (m : Re.matcher) (P : char -> char -> bool) :
  (forall prev a b t, m prev (a :: b :: t) = if P a b then Some 2%nat else None) ->
  (forall prev a, m prev [a] = None) ->
  (forall a b c, P a b = true -> P b c = false) ->
  forall s prev, Re.sub_from m Re.group1_space_group2 0 prev s
                 = Return (insert_spaces P s).
Proof.
  intros Hm H1 Hover s.
  remember (List.length s) as n eqn:Hn. revert s Hn.
  induction n as [n IH] using lt_wf_ind; intros s Hn prev.
  destruct s as [|a [|b t]].
  - reflexivity.
  - rewrite sub_from_cons. now rewrite H1.
  - rewrite sub_from_cons. rewrite Hm. destruct (P a b) eqn:Pab.
    + cbn [firstn Re.group1_space_group2 pred].
      change (Re.sub_from m Re.group1_space_group2 1 (Some a) (b :: t))
        with (Re.sub_from m Re.group1_space_group2 0 (Some b) t).
      rewrite (IH (List.length t)) with (s := t) (prev := Some b);
        [|subst n; simpl; lia | reflexivity].
      cbn [bind result_monad app]. rewrite insert_spaces_cons, Pab.
      destruct t as [|c t']; [reflexivity|].
      rewrite insert_spaces_cons, (Hover _ _ c Pab). reflexivity.
    + assert (E : Re.sub_from m Re.group1_space_group2 0 (Some a) (b :: t)
                  = Return (insert_spaces P (b :: t))).
      { apply (IH (List.length (b :: t))); [subst n; simpl; lia | reflexivity]. }
      rewrite E. cbn [bind result_monad]. now rewrite insert_spaces_cons, Pab.
Qed.

Lemma sub_letter_digit (s : text) :
  Re.sub Re.letter_digit Re.group1_space_group2 s
  = Return (insert_spaces letter_then_digit s).
Proof.
  apply sub_pair.
  - reflexivity.
  - reflexivity.
  - intros a b c H. unfold letter_then_digit in *.
    apply andb_prop in H as [_ H]. now rewrite (digit_not_letter _ H).
Qed.

Lemma sub_digit_letter (s : text) :
  Re.sub Re.digit_letter Re.group1_space_group2 s
  = Return (insert_spaces digit_then_letter s).
Proof.
  apply sub_pair.
  - reflexivity.
  - reflexivity.
  - intros a b c H. unfold digit_then_letter in *.
    apply andb_prop in H as [_ H].
    destruct (is_digit b) eqn:D; [|reflexivity].
    now rewrite (digit_not_letter _ D) in H.
Qed.

Lemma texto_separado_spaces (s : text) :
  texto_separado s
  = Return (insert_spaces digit_then_letter (insert_spaces letter_then_digit s)).
Proof.
  unfold texto_separado. rewrite sub_letter_digit. cbn [bind result_monad].
  apply sub_digit_letter.
Qed.

Lemma traducir_steps (s : text) :
  traducir_numero_a_texto s
  = sub_numbers None
      (insert_spaces digit_then_letter (insert_spaces letter_then_digit s)).
Proof.
  unfold traducir_numero_a_texto. rewrite sub_letter_digit. cbn [bind result_monad].
  rewrite sub_digit_letter. reflexivity.
Qed.

(** ** Neighbouring characters *)

Lemma prev_after_last (p : option char) (x : char) (a : text) :
  prev_after p (x :: a) = prev_after None (x :: a).
Proof. reflexivity. Qed.

Lemma all_adjacent_app (Q : char -> char -> bool) (a b : text) :
  all_adjacent Q (a ++ b)
  = all_adjacent Q a && adjacent_opt Q (prev_after None a) (head b)
    && all_adjacent Q b.
Proof.
  induction a as [|x a IH].
  - reflexivity.
  - destruct a as [|x' a'].
    + destruct b as [|y b']; cbn; [reflexivity|]. now destruct (Q x y).
    + change ((x :: x' :: a') ++ b) with (x :: (x' :: a') ++ b).
      cbn [all_adjacent app]. cbn [all_adjacent app] in IH.
      rewrite IH. rewrite (prev_after_cons None x (x' :: a')).
      rewrite (prev_after_last (Some x)). now rewrite !andb_assoc.
Qed.

Lemma all_adjacent_cons (Q : char -> char -> bool) (a b : char) (t : text) :
  all_adjacent Q (a :: b :: t) = Q a b && all_adjacent Q (b :: t).
Proof. reflexivity. Qed.

Lemma all_adjacent_impl (Q Q' : char -> char -> bool) (s : text) :
  (forall a b, Q a b = true -> Q' a b = true) ->
  all_adjacent Q s = true -> all_adjacent Q' s = true.
Proof.
  intros H. induction s as [|a [|b t] IH]; [reflexivity..|].
  rewrite !all_adjacent_cons. intros E. apply andb_prop in E as [E1 E2].
  rewrite (H _ _ E1). now apply IH.
Qed.

Lemma all_adjacent_true (Q : char -> char -> bool) (s : text) :
  (forall a b, Q a b = true) -> all_adjacent Q s = true.
Proof.
  intros H. induction s as [|a [|b t] IH]; [reflexivity..|].
  rewrite all_adjacent_cons, H. exact IH.
Qed.

Lemma all_adjacent_and (Q Q' : char -> char -> bool) (s : text) :
  all_adjacent (fun a b => Q a b && Q' a b) s
  = all_adjacent Q s && all_adjacent Q' s.
Proof.
  induction s as [|a [|b t] IH]; [reflexivity..|].
  rewrite !all_adjacent_cons, IH.
  destruct (Q a b), (Q' a b), (all_adjacent Q (b :: t)); reflexivity.
Qed.

Lemma all_adjacent_insert (Q P : char -> char -> bool) (s : text) :
  all_adjacent Q (insert_spaces P s)
  = all_adjacent (fun a b => if P a b then Q a space && Q space b else Q a b) s.
Proof.
  remember (List.length s) as n eqn:Hn. revert s Hn.
  induction n as [n IH] using lt_wf_ind; intros s Hn.
  destruct s as [|a [|b t]]; [reflexivity..|].
  rewrite insert_spaces_cons, all_adjacent_cons.
  assert (E := IH (List.length (b :: t)) ltac:(subst n; simpl; lia) (b :: t) eq_refl).
  assert (Hh := insert_spaces_head P (b :: t)).
  destruct (insert_spaces P (b :: t)) as [|b' t'] eqn:Ei; [discriminate|].
  cbn in Hh. inversion Hh; subst b'.
  destruct (P a b); cbn [app]; rewrite !all_adjacent_cons, E.
  - now rewrite andb_assoc.
  - reflexivity.
Qed.

Lemma insert_spaces_none (P : char -> char -> bool) (s : text) :
  none_adjacent P s = true -> insert_spaces P s = s.
Proof.
  unfold none_adjacent.
  induction s as [|a [|b t] IH]; [reflexivity..|].
  rewrite all_adjacent_cons, insert_spaces_cons.
  intros E. apply andb_prop in E as [E1 E2].
  apply negb_true_iff in E1. rewrite E1. cbn [app]. f_equal. now apply IH.
Qed.

Lemma no_digit_none_adjacent (P : char -> char -> bool) (s : text) :
  (forall a b, P a b = true -> is_digit a = true \/ is_digit b = true) ->
  has_digit s = false -> none_adjacent P s = true.
Proof.
  intros HP. unfold none_adjacent.
  induction s as [|a [|b t] IH]; [reflexivity..|].
  rewrite all_adjacent_cons.
  intros H. cbn [has_digit existsb] in H. apply orb_false_elim in H as [Ha H].
  pose proof H as H'. apply orb_false_elim in H' as [Hb _].
  destruct (P a b) eqn:E.
  - destruct (HP _ _ E); congruence.
  - cbn [negb andb]. now apply IH.
Qed.

Lemma letter_then_digit_digit (a b : char) :
  letter_then_digit a b = true -> is_digit a = true \/ is_digit b = true.
Proof. unfold letter_then_digit. intros H. apply andb_prop in H as [_ H]. auto. Qed.

Lemma digit_then_letter_digit (a b : char) :
  digit_then_letter a b = true -> is_digit a = true \/ is_digit b = true.
Proof. unfold digit_then_letter. intros H. apply andb_prop in H as [H _]. auto. Qed.

Lemma sub_numbers_no_digit (s : text) (prev : option char) :
  has_digit s = false -> sub_numbers prev s = Return s.
Proof.
  intros H. rewrite <- (app_nil_r s) at 1.
  rewrite sub_numbers_plain by exact H.
  rewrite sub_numbers_nil. cbn. now rewrite app_nil_r.
Qed.

(** A text without digits goes through [traducir_numero_a_texto] unchanged. *)
Lemma traducir_no_digit (s : text) :
  has_digit s = false -> traducir_numero_a_texto s = Return s.
Proof.
  intros H. rewrite traducir_steps.
  rewrite (insert_spaces_none letter_then_digit s)
    by (apply no_digit_none_adjacent; [apply letter_then_digit_digit | exact H]).
  rewrite (insert_spaces_none digit_then_letter s)
    by (apply no_digit_none_adjacent; [apply digit_then_letter_digit | exact H]).
  now apply sub_numbers_no_digit.
Qed.

Lemma normalize_no_digit (x : text) :
  has_digit x = false -> normalize x = Return (lower x).
Proof.
  intros H. unfold normalize. apply traducir_no_digit. now rewrite has_digit_lower.
Qed.

(** ** The claims on texts without digits, and the worked example *)

(** C4: for every input string containing no digit characters, the
    normaliser returns exactly the lower-cased input. *)
Theorem normalize_without_digits_is_lower (x : text) :
  has_digit x = false -> normalize x = Return (lower x).
Proof. exact (normalize_no_digit x). Qed.

Lemma normalize_without_digits_is_lower_witness :
  has_digit (str "Hola, Mundo!") = false
  /\ normalize (str "Hola, Mundo!") = Return (str "hola, mundo!").
Proof.
  split; [reflexivity|].
  exact (normalize_without_digits_is_lower (str "Hola, Mundo!") eq_refl).
Defined.

(** C5: normalising "Sala123B" yields "sala ciento veintitres b" with the
    acute accent on the last e of the number: the digits are split from the
    letters by two inserted spaces and spelled out in Spanish, and the letters
    are lower-cased. *)
Theorem normalize_sala123b :
  normalize (str "Sala123B")
  = Return (str "sala ciento veintitr" ++ [e_acute] ++ str "s b")
  /\ texto_separado (lower (str "Sala123B")) = Return (str "sala 123 b")
  /\ num2words_es 123 = Return (str "ciento veintitr" ++ [e_acute] ++ str "s").
Proof. repeat split; vm_compute; reflexivity. Qed.

(** Outside ASCII: the capital I with a dot above lower-cases to two
    characters, the second a combining mark that is no word character; the
    Kelvin sign lower-cases to an ASCII k; the digits of other scripts are
    digits to [re] and to [int]; the capital sigma lower-cases by its
    neighbours, also across a full stop. *)
Example normalize_dotted_capital_i :
  normalize (capital_i_with_dot :: str "007")
  = Return ([chr 105; chr 775] ++ str "siete").
Proof. vm_compute. reflexivity. Qed.

Example normalize_kelvin_sign :
  normalize [chr 8490; chr 53] = Return (str "k cinco").
Proof. vm_compute. reflexivity. Qed.

Example normalize_arabic_indic_digit :
  normalize [chr 97; chr 1635] = Return (str "a tres")
  /\ normalize (repeat (chr 57) 27 ++ [chr 1641]) = Raise (OverflowError (10 ^ 28 - 1)).
Proof. split; vm_compute; reflexivity. Qed.

Example lower_capital_sigma :
  lower [chr 913; capital_sigma] = [chr 945; final_sigma]
  /\ lower [chr 913; capital_sigma; chr 46; chr 914]
     = [chr 945; small_sigma; chr 46; chr 946]
  /\ lower [capital_sigma] = [small_sigma].
Proof. repeat split; vm_compute; reflexivity. Qed.

(** The other worked examples of the spec, and some spellings. *)
Example normalize_tengo_5_gatos :
  normalize (str "Tengo 5 gatos") = Return (str "tengo cinco gatos").
Proof. vm_compute. reflexivity. Qed.

Example normalize_empty : normalize [] = Return [].
Proof. reflexivity. Qed.

Example normalize_2024 :
  normalize (str "2024") = Return (str "dos mil veinticuatro").
Proof. vm_compute. reflexivity. Qed.

Example num2words_es_samples :
  map num2words_es [0; 16; 21; 31; 100; 101; 500; 1000; 1100; 21000; 1000000; 2000000]%Z
  = map Return
      [ str "cero"; str "diecis" ++ [e_acute] ++ str "is"; str "veintiuno";
        str "treinta y uno"; str "cien"; str "ciento uno"; str "quinientos";
        str "mil"; str "mil cien"; str "veintiuno mil";
        str "un mill" ++ [o_acute] ++ str "n"; str "dos millones" ].
Proof. vm_compute. reflexivity. Qed.

Example num2words_es_largest :
  num2words_es (10 ^ 27 - 1)
  = Return (str "novecientos noventa y nueve cuatrillones novecientos noventa y nueve mil novecientos noventa y nueve trillones novecientos noventa y nueve mil novecientos noventa y nueve billones novecientos noventa y nueve mil novecientos noventa y nueve millones novecientos noventa y nueve mil novecientos noventa y nueve")
  /\ num2words_es (10 ^ 27) = Raise (OverflowError (10 ^ 27)).
Proof. split; vm_compute; reflexivity. Qed.

(** C7: for every input string x containing no digits, normalisation is
    idempotent: normalising the result of normalising x gives the result of
    normalising x. *)
Theorem normalize_idempotent_without_digits (x : text) :
  has_digit x = false ->
  (y <- normalize x ;; normalize y) = normalize x.
Proof.
  intros H. rewrite (normalize_no_digit x H). cbn [bind result_monad].
  rewrite normalize_no_digit by (now rewrite has_digit_lower).
  now rewrite lower_idem.
Qed.

Lemma normalize_idempotent_without_digits_witness :
  has_digit (str "Buenos D" ++ [chr 205] ++ str "AS") = false
  /\ (y <- normalize (str "Buenos D" ++ [chr 205] ++ str "AS") ;; normalize y)
     = normalize (str "Buenos D" ++ [chr 205] ++ str "AS").
Proof.
  split; [reflexivity|].
  exact (normalize_idempotent_without_digits
           (str "Buenos D" ++ [chr 205] ++ str "AS") eq_refl).
Defined.

(** ** What the third substitution keeps *)

Lemma not_word_not_digit (o : option char) :
  Re.is_word_at o = false -> is_digit_at o = false.
Proof.
  destruct o as [c|]; [|reflexivity]. cbn. intros H.
  destruct (is_digit c) eqn:D; [|reflexivity].
  now rewrite (digit_is_word _ D) in H.
Qed.

Lemma bounded_sides (prev : option char) (rest : text) :
  bounded prev rest = true ->
  is_digit_at prev = false /\ is_digit_at (head rest) = false.
Proof.
  unfold bounded. intros H. apply andb_prop in H as [H1 H2].
  apply negb_true_iff in H1, H2. split; now apply not_word_not_digit.
Qed.

Lemma prev_after_no_digit (w : text) : forall p,
  has_digit w = false -> is_digit_at p = false ->
  is_digit_at (prev_after p w) = false.
Proof.
  induction w as [|c w IH]; intros p Hw Hp; [exact Hp|].
  cbn [has_digit existsb] in Hw. apply orb_false_elim in Hw as [Hc Hw].
  rewrite prev_after_cons. now apply IH.
Qed.

Lemma head_app_no_digit (w out : text) :
  has_digit w = false -> is_digit_at (head out) = false ->
  is_digit_at (head (w ++ out)) = false.
Proof.
  destruct w as [|c w]; [auto|]. cbn. intros H _. now apply orb_false_elim in H as [? _].
Qed.

Lemma all_adjacent_cons_opt (Q : char -> char -> bool) (c : char) (t : text) :
  all_adjacent Q (c :: t) = adjacent_opt Q (Some c) (head t) && all_adjacent Q t.
Proof. destruct t; reflexivity. Qed.

Section Insensitive.

(** A property of neighbours that only digits can break. *)
Variable Q : char -> char -> bool.
Hypothesis Q_plain : forall a b, is_digit a = false -> is_digit b = false -> Q a b = true.

Lemma adjacent_opt_plain (a b : option char) :
  is_digit_at a = false -> is_digit_at b = false -> adjacent_opt Q a b = true.
Proof. destruct a, b; cbn; auto. Qed.

Lemma all_adjacent_plain (w : text) : has_digit w = false -> all_adjacent Q w = true.
Proof.
  induction w as [|a [|b t] IH]; [reflexivity..|].
  intros H. cbn [has_digit existsb] in H. apply orb_false_elim in H as [Ha H].
  pose proof H as H'. apply orb_false_elim in H' as [Hb _].
  rewrite all_adjacent_cons, Q_plain by assumption. now apply IH.
Qed.

Lemma sub_numbers_adjacent (s : text) : forall prev y,
  adjacent_opt Q prev (head s) = true -> all_adjacent Q s = true ->
  sub_numbers prev s = Return y ->
  adjacent_opt Q prev (head y) = true /\ all_adjacent Q y = true.
Proof.
  induction s as [|c t Hc IH|d ds rest Hds Hrest IH] using run_ind;
    intros prev y Hp Hs H.
  - cbn in H. inversion H. auto.
  - rewrite sub_numbers_nondigit in H by exact Hc.
    destruct (sub_numbers (Some c) t) as [out|] eqn:E; [|discriminate].
    cbn in H. inversion H; subst y; clear H.
    rewrite all_adjacent_cons_opt in Hs. apply andb_prop in Hs as [Hct Ht].
    destruct (IH _ _ Hct Ht E) as [Ho1 Ho2].
    split; [exact Hp|]. now rewrite all_adjacent_cons_opt, Ho1, Ho2.
  - change (d :: ds ++ rest) with ((d :: ds) ++ rest) in Hs.
    rewrite all_adjacent_app in Hs.
    apply andb_prop in Hs as [Hs Hrest']. apply andb_prop in Hs as [Hrun Hj].
    rewrite sub_numbers_run in H by assumption.
    rewrite (prev_after_last prev) in H.
    destruct (bounded prev rest) eqn:B.
    + destruct (reemplazar_numero (d :: ds)) as [w|] eqn:Ew; [|discriminate].
      destruct (sub_numbers (prev_after None (d :: ds)) rest) as [out|] eqn:E;
        [|discriminate].
      cbn in H. inversion H; subst y; clear H.
      destruct (IH _ _ Hj Hrest' E) as [_ Ho].
      destruct (bounded_sides _ _ B) as [Bp Br].
      assert (Hw : has_digit w = false)
        by (apply spelling_no_digit; eapply reemplazar_numero_spelled; eassumption).
      assert (Hh : is_digit_at (head out) = false)
        by (rewrite (sub_numbers_head _ _ _ Hrest E); exact Br).
      split.
      * apply adjacent_opt_plain; [exact Bp | now apply head_app_no_digit].
      * rewrite all_adjacent_app, (all_adjacent_plain w Hw), Ho.
        rewrite adjacent_opt_plain; [reflexivity | now apply prev_after_no_digit | exact Hh].
    + destruct (sub_numbers (prev_after None (d :: ds)) rest) as [out|] eqn:E;
        [|discriminate].
      cbn in H. inversion H; subst y; clear H.
      destruct (IH _ _ Hj Hrest' E) as [_ Ho].
      split; [exact Hp|].
      change (d :: ds ++ out) with ((d :: ds) ++ out).
      rewrite all_adjacent_app, Hrun, Ho.
      now rewrite (sub_numbers_head _ _ _ Hrest E), Hj.
Qed.

End Insensitive.

Lemma sub_numbers_forallb (R : char -> bool) :
  (forall c, is_spelling_char c = true -> R c = true) ->
  forall (s : text) prev y, forallb R s = true -> sub_numbers prev s = Return y ->
                            forallb R y = true.
Proof.
  intros HR s.
  induction s as [|c t Hc IH|d ds rest Hds Hrest IH] using run_ind; intros prev y Hs H.
  - cbn in H. inversion H. reflexivity.
  - rewrite sub_numbers_nondigit in H by exact Hc.
    destruct (sub_numbers (Some c) t) as [out|] eqn:E; [|discriminate].
    cbn in H. inversion H; subst y; clear H.
    cbn [forallb] in *. apply andb_prop in Hs as [-> Hs]. now apply (IH _ _ Hs E).
  - change (d :: ds ++ rest) with ((d :: ds) ++ rest) in Hs.
    rewrite forallb_app in Hs. apply andb_prop in Hs as [Hrun Hs].
    rewrite sub_numbers_run in H by assumption.
    destruct (bounded prev rest).
    + destruct (reemplazar_numero (d :: ds)) as [w|] eqn:Ew; [|discriminate].
      destruct (sub_numbers (prev_after prev (d :: ds)) rest) as [out|] eqn:E;
        [|discriminate].
      cbn in H. inversion H; subst y; clear H.
      rewrite forallb_app, (IH _ _ Hs E), andb_true_r.
      apply forallb_forall. intros c Hc. apply HR.
      pose proof (reemplazar_numero_spelled _ _ Ew) as Hw.
      rewrite forallb_forall in Hw. now apply Hw.
    + destruct (sub_numbers (prev_after prev (d :: ds)) rest) as [out|] eqn:E;
        [|discriminate].
      cbn in H. inversion H; subst y; clear H.
      change (d :: ds ++ out) with ((d :: ds) ++ out).
      now rewrite forallb_app, Hrun, (IH _ _ Hs E).
Qed.

Lemma forallb_insert_spaces (R : char -> bool) (P : char -> char -> bool) (s : text) :
  R space = true -> forallb R s = true -> forallb R (insert_spaces P s) = true.
Proof.
  intros Hsp.
  remember (List.length s) as n eqn:Hn. revert s Hn.
  induction n as [n IH] using lt_wf_ind; intros s Hn Hs.
  destruct s as [|a [|b t]]; [assumption..|].
  rewrite insert_spaces_cons.
  cbn [forallb] in Hs. apply andb_prop in Hs as [Ha Hs].
  cbn [forallb]. rewrite Ha, forallb_app.
  rewrite (IH (List.length (b :: t))) with (s := b :: t);
    [|subst n; simpl; lia | reflexivity | exact Hs].
  destruct (P a b); cbn [app forallb andb]; [now rewrite Hsp | reflexivity].
Qed.

Lemma letter_then_digit_plain (a b : char) :
  is_digit a = false -> is_digit b = false -> negb (letter_then_digit a b) = true.
Proof. unfold letter_then_digit. intros _ ->. now rewrite andb_false_r. Qed.

Lemma digit_then_letter_plain (a b : char) :
  is_digit a = false -> is_digit b = false -> negb (digit_then_letter a b) = true.
Proof. unfold digit_then_letter. now intros -> _. Qed.

(** After the two boundary substitutions no digit touches an ASCII letter. *)
Lemma separated_letter_then_digit (s : text) :
  none_adjacent letter_then_digit
    (insert_spaces digit_then_letter (insert_spaces letter_then_digit s)) = true.
Proof.
  unfold none_adjacent. rewrite all_adjacent_insert.
  apply all_adjacent_impl
    with (Q := fun a b => negb (letter_then_digit a b)).
  - intros a b H. destruct (digit_then_letter a b) eqn:E; [|exact H].
    unfold digit_then_letter in E. apply andb_prop in E as [Ea Eb].
    unfold letter_then_digit. rewrite (digit_not_letter _ Ea). reflexivity.
  - rewrite all_adjacent_insert. apply all_adjacent_true.
    intros a b. destruct (letter_then_digit a b) eqn:E; [|reflexivity].
    unfold letter_then_digit in *. apply andb_prop in E as [Ea Eb].
    now rewrite andb_false_r.
Qed.

Lemma separated_digit_then_letter (s : text) :
  none_adjacent digit_then_letter
    (insert_spaces digit_then_letter (insert_spaces letter_then_digit s)) = true.
Proof.
  unfold none_adjacent. rewrite all_adjacent_insert. apply all_adjacent_true.
  intros a b. destruct (digit_then_letter a b) eqn:E; [|reflexivity].
  unfold digit_then_letter in *. apply andb_prop in E as [Ea Eb].
  now rewrite andb_false_r.
Qed.

(** What the normaliser returns, it returns again when applied to it. *)
Lemma normalize_fixed (x y : text) :
  normalize x = Return y -> normalize y = Return y.
Proof.
  unfold normalize. rewrite traducir_steps.
  set (z := insert_spaces digit_then_letter (insert_spaces letter_then_digit (lower x))).
  intros H.
  assert (Hl : lower y = y).
  { apply lower_fixed_text.
    apply (sub_numbers_forallb lower_fixed) with (s := z) (prev := None); [| |exact H].
    - intros c Hc. exact (proj2 (spelling_char_plain _ Hc)).
    - subst z. do 2 (apply forallb_insert_spaces; [reflexivity|]).
      apply lower_fixed_lower. }
  assert (H1 : none_adjacent letter_then_digit y = true).
  { eapply (sub_numbers_adjacent _ letter_then_digit_plain z None y);
      [reflexivity | apply separated_letter_then_digit | exact H]. }
  assert (H2 : none_adjacent digit_then_letter y = true).
  { eapply (sub_numbers_adjacent _ digit_then_letter_plain z None y);
      [reflexivity | apply separated_digit_then_letter | exact H]. }
  rewrite Hl, traducir_steps.
  rewrite (insert_spaces_none _ _ H1), (insert_spaces_none _ _ H2).
  exact (sub_numbers_fixed _ _ _ H).
Qed.

(** C10: normalisation is idempotent on every input string, with or
    without digits: a second pass over the result of the first returns it
    unchanged; and when the first pass raises, so does the composition. *)
Theorem normalize_idempotent (x : text) :
  (y <- normalize x ;; normalize y) = normalize x.
Proof.
  destruct (normalize x) as [y|e] eqn:E; cbn [bind result_monad].
  - exact (normalize_fixed x y E).
  - reflexivity.
Qed.

(** ** The boundary step *)

Lemma insert_spaces_twice (P P' : char -> char -> bool) :
  (forall a, P' a space = false) -> (forall b, P' space b = false) ->
  forall s, insert_spaces P' (insert_spaces P s)
            = insert_spaces (fun a b => P a b || P' a b) s.
Proof.
  intros Hl Hr s.
  remember (List.length s) as n eqn:Hn. revert s Hn.
  induction n as [n IH] using lt_wf_ind; intros s Hn.
  destruct s as [|a [|b t]]; [reflexivity..|].
  rewrite !insert_spaces_cons.
  assert (E := IH (List.length (b :: t)) ltac:(subst n; simpl; lia) (b :: t) eq_refl).
  assert (Hh := insert_spaces_head P (b :: t)).
  destruct (insert_spaces P (b :: t)) as [|b' t'] eqn:Ei; [discriminate|].
  cbn in Hh. inversion Hh; subst b'.
  destruct (P a b); cbn [app orb].
  - rewrite insert_spaces_cons, Hl. cbn [app].
    rewrite insert_spaces_cons, Hr. cbn [app]. now rewrite E.
  - rewrite insert_spaces_cons. now rewrite E.
Qed.

Lemma texto_separado_pairs (s : text) :
  texto_separado s = Return (insert_spaces ascii_letter_digit_pair s).
Proof.
  rewrite texto_separado_spaces. f_equal.
  apply insert_spaces_twice.
  - intros a. unfold digit_then_letter. now rewrite andb_false_r.
  - intros b. reflexivity.
Qed.

Lemma ascii_pair_space_r (a : char) : ascii_letter_digit_pair a space = false.
Proof.
  unfold ascii_letter_digit_pair, letter_then_digit, digit_then_letter.
  now rewrite !andb_false_r.
Qed.

Lemma ascii_pair_space_l (b : char) : ascii_letter_digit_pair space b = false.
Proof. reflexivity. Qed.

Lemma glued_pair_space_r (a : char) : glued_pair a space = false.
Proof. unfold glued_pair. now rewrite !andb_false_r. Qed.

Lemma glued_pair_space_l (b : char) : glued_pair space b = false.
Proof. reflexivity. Qed.

Lemma separated_ascii_pairs (s : text) :
  none_adjacent ascii_letter_digit_pair (insert_spaces ascii_letter_digit_pair s) = true.
Proof.
  unfold none_adjacent. rewrite all_adjacent_insert. apply all_adjacent_true.
  intros a b. destruct (ascii_letter_digit_pair a b) eqn:E; [|reflexivity].
  now rewrite ascii_pair_space_r, ascii_pair_space_l.
Qed.

Lemma separated_keeps_unglued (s : text) :
  none_adjacent glued_pair s = true ->
  none_adjacent glued_pair (insert_spaces ascii_letter_digit_pair s) = true.
Proof.
  unfold none_adjacent. rewrite all_adjacent_insert.
  apply all_adjacent_impl. intros a b H.
  destruct (ascii_letter_digit_pair a b); [|exact H].
  now rewrite glued_pair_space_r, glued_pair_space_l.
Qed.

Lemma unbounded_pair_cases (a b : char) :
  unbounded_pair a b = ascii_letter_digit_pair a b || glued_pair a b.
Proof.
  unfold unbounded_pair, ascii_letter_digit_pair, glued_pair,
    letter_then_digit, digit_then_letter.
  rewrite <- (andb_assoc (is_digit a)), !word_not_digit.
  destruct (is_ascii_letter a), (is_other_word a), (is_digit a),
    (is_ascii_letter b), (is_other_word b), (is_digit b); reflexivity.
Qed.

Lemma none_unbounded (s : text) :
  none_adjacent ascii_letter_digit_pair s = true ->
  none_adjacent glued_pair s = true ->
  none_adjacent unbounded_pair s = true.
Proof.
  unfold none_adjacent. intros H1 H2.
  apply all_adjacent_impl
    with (Q := fun a b => negb (ascii_letter_digit_pair a b) && negb (glued_pair a b)).
  - intros a b H. rewrite unbounded_pair_cases. now rewrite negb_orb.
  - now rewrite all_adjacent_and, H1, H2.
Qed.

Lemma separated_runs_bounded (s : text) :
  none_adjacent glued_pair s = true ->
  none_adjacent unbounded_pair (insert_spaces ascii_letter_digit_pair s) = true.
Proof.
  intros H. apply none_unbounded; [apply separated_ascii_pairs|].
  now apply separated_keeps_unglued.
Qed.

(** C2, as the program has it: the boundary step puts exactly one space
    between every ASCII letter [A-Za-z] immediately followed by a digit and
    between every digit immediately followed by an ASCII letter, and changes
    nothing else; afterwards no digit touches an ASCII letter, and where the
    input has no digit glued to an underscore or to a word character outside
    ASCII, every run of digits is delimited by word boundaries. *)
Theorem boundary_step_separates_ascii_letters (s : text) :
  texto_separado s = Return (insert_spaces ascii_letter_digit_pair s)
  /\ none_adjacent ascii_letter_digit_pair
       (insert_spaces ascii_letter_digit_pair s) = true
  /\ (none_adjacent glued_pair s = true ->
      none_adjacent unbounded_pair (insert_spaces ascii_letter_digit_pair s) = true).
Proof.
  split; [apply texto_separado_pairs|].
  split; [apply separated_ascii_pairs|].
  apply separated_runs_bounded.
Qed.

Lemma boundary_step_separates_ascii_letters_witness :
  none_adjacent glued_pair (str "room5 and 12b") = true
  /\ texto_separado (str "room5 and 12b") = Return (str "room 5 and 12 b")
  /\ none_adjacent unbounded_pair (str "room 5 and 12 b") = true.
Proof.
  split; [reflexivity|].
  destruct (boundary_step_separates_ascii_letters (str "room5 and 12b"))
    as (H1 & _ & H3).
  split; [exact H1 | exact (H3 eq_refl)].
Defined.

(** C2 as stated fails: the letter n with tilde (U+00F1) followed by the
    digit 1 goes through the boundary step unchanged, so a digit is still next
    to a letter and the run is not delimited by a word boundary. *)
Lemma boundary_step_counterexample :
  texto_separado [chr 241; chr 49] = Return [chr 241; chr 49]
  /\ is_letter (chr 241) = true
  /\ none_adjacent letter_digit_pair [chr 241; chr 49] = false
  /\ none_adjacent unbounded_pair [chr 241; chr 49] = false.
Proof. repeat split; vm_compute; reflexivity. Qed.

(** ** Runs that [int] and [num2words] accept *)

Lemma digit_value_range (c : char) :
  is_digit c = true -> (0 <= digit_value c <= 9)%Z.
Proof.
  intros _. unfold digit_value.
  pose proof (N.mod_lt (ord c - range_start decimal_ranges c) 10 ltac:(discriminate)) as H.
  revert H. generalize ((ord c - range_start decimal_ranges c) mod 10)%N.
  intros m H. lia.
Qed.

Lemma fold_digits_range (ds : text) : forall acc : Z,
  forallb is_digit ds = true -> (0 <= acc)%Z ->
  (acc * 10 ^ Z.of_nat (List.length ds)
   <= fold_left (fun acc c => 10 * acc + digit_value c) ds acc
   < (acc + 1) * 10 ^ Z.of_nat (List.length ds))%Z.
Proof.
  induction ds as [|d ds IH]; intros acc Hds Hacc.
  - cbn. lia.
  - cbn [forallb] in Hds. apply andb_prop in Hds as [Hd Hds].
    pose proof (digit_value_range d Hd) as Hv.
    cbn [fold_left List.length]. rewrite Nat2Z.inj_succ, Z.pow_succ_r by lia.
    specialize (IH (10 * acc + digit_value d)%Z Hds ltac:(lia)).
    assert (0 < 10 ^ Z.of_nat (List.length ds))%Z by (apply Z.pow_pos_nonneg; lia).
    nia.
Qed.

Lemma decimal_value_range (ds : text) :
  forallb is_digit ds = true ->
  (0 <= decimal_value ds < 10 ^ Z.of_nat (List.length ds))%Z.
Proof.
  intros H. pose proof (fold_digits_range ds 0 H ltac:(lia)) as R.
  unfold decimal_value. lia.
Qed.

Lemma py_int_digits (d : char) (ds : text) :
  forallb is_digit (d :: ds) = true ->
  (List.length (d :: ds) <= int_max_str_digits)%nat ->
  py_int (d :: ds) = Return (decimal_value (d :: ds)).
Proof.
  intros H L. unfold py_int. rewrite H.
  apply Nat.leb_le in L. rewrite L. reflexivity.
Qed.

Lemma to_cardinal_below_maxval (v : Z) :
  (0 <= v < Num2Words.MAXVAL)%Z ->
  Num2Words.to_cardinal v = Return (fst (Num2Words.quadrillions v)).
Proof.
  intros [H0 H1]. unfold Num2Words.to_cardinal.
  rewrite Z.abs_eq by exact H0.
  destruct (Z.leb_spec Num2Words.MAXVAL v); [lia|].
  destruct (Z.ltb_spec v 0); [lia|]. reflexivity.
Qed.

Lemma to_cardinal_overflow (v : Z) :
  (Num2Words.MAXVAL <= v)%Z -> Num2Words.to_cardinal v = Raise (OverflowError v).
Proof.
  intros H. unfold Num2Words.to_cardinal.
  assert (0 < Num2Words.MAXVAL)%Z by reflexivity.
  rewrite Z.abs_eq by lia.
  destruct (Z.leb_spec Num2Words.MAXVAL v); [reflexivity | lia].
Qed.

Lemma reemplazar_numero_short (d : char) (ds : text) :
  forallb is_digit (d :: ds) = true -> (List.length (d :: ds) <= 27)%nat ->
  reemplazar_numero (d :: ds)
  = Return (fst (Num2Words.quadrillions (decimal_value (d :: ds)))).
Proof.
  intros H L. unfold reemplazar_numero.
  rewrite py_int_digits; [|exact H | unfold int_max_str_digits; lia].
  cbn [bind result_monad]. unfold num2words_es.
  apply to_cardinal_below_maxval.
  pose proof (decimal_value_range _ H) as R.
  assert (10 ^ Z.of_nat (List.length (d :: ds)) <= 10 ^ 27)%Z
    by (apply Z.pow_le_mono_r; lia).
  change Num2Words.MAXVAL with (10 ^ 27)%Z. lia.
Qed.

(** ** Every delimited run is replaced *)

Lemma runs_within_app_r (k : nat) (a b : text) :
  runs_within k (a ++ b) = true -> runs_within k b = true.
Proof.
  induction a as [|x a IH]; [auto|].
  cbn [app runs_within]. intros H. apply andb_prop in H as [_ H]. now apply IH.
Qed.

Lemma runs_within_cons (k : nat) (c : char) (t : text) :
  runs_within k (c :: t) = (Re.digits_prefix (c :: t) <=? k)%nat && runs_within k t.
Proof. reflexivity. Qed.

Lemma unbounded_left (a b : char) :
  unbounded_pair a b = false -> is_digit a = false -> is_digit b = true ->
  is_word a = false.
Proof.
  unfold unbounded_pair. intros H Ha Hb. rewrite Ha, Hb in H.
  cbn in H. now rewrite !andb_true_r, orb_false_r in H.
Qed.

Lemma unbounded_right (a b : char) :
  unbounded_pair a b = false -> is_digit a = true -> is_digit b = false ->
  is_word b = false.
Proof.
  unfold unbounded_pair. intros H Ha Hb. rewrite Ha, Hb in H.
  cbn in H. rewrite andb_false_r, andb_true_r in H. exact H.
Qed.

Lemma last_digit (d : char) (ds : text) :
  forallb is_digit (d :: ds) = true ->
  exists l, prev_after None (d :: ds) = Some l /\ is_digit l = true.
Proof.
  revert d. induction ds as [|x ds IH]; intros d H.
  - exists d. cbn in *. now rewrite andb_true_r in H.
  - cbn [forallb] in H. apply andb_prop in H as [_ H].
    destruct (IH x H) as (l & E & Hl). exists l. split; [|exact Hl].
    rewrite prev_after_cons, (prev_after_last (Some d)). exact E.
Qed.

Lemma sub_numbers_all_replaced (s : text) : forall prev,
  (starts_with_digit s = true -> Re.is_word_at prev = false) ->
  none_adjacent unbounded_pair s = true -> runs_within 27 s = true ->
  exists y, sub_numbers prev s = Return y /\ has_digit y = false.
Proof.
  unfold none_adjacent.
  induction s as [|c t Hc IH|d ds rest Hds Hrest IH] using run_ind;
    intros prev Hp Hs Hk.
  - exists []. auto.
  - rewrite all_adjacent_cons_opt in Hs. apply andb_prop in Hs as [Hct Ht].
    rewrite runs_within_cons in Hk. apply andb_prop in Hk as [_ Hk].
    destruct (IH (Some c)) as (out & E & Ho); [|exact Ht | exact Hk|].
    + destruct t as [|b t']; [discriminate|]. cbn. intros Hb.
      cbn in Hct. apply negb_true_iff in Hct.
      exact (unbounded_left _ _ Hct Hc Hb).
    + exists (c :: out). rewrite sub_numbers_nondigit by exact Hc.
      rewrite E. cbn. now rewrite Hc.
  - pose proof Hk as Hlen. rewrite runs_within_cons in Hlen.
    apply andb_prop in Hlen as [Hlen _]. apply Nat.leb_le in Hlen.
    change (d :: ds ++ rest) with ((d :: ds) ++ rest) in Hlen, Hs, Hk.
    rewrite digits_prefix_run in Hlen by assumption.
    rewrite all_adjacent_app in Hs.
    apply andb_prop in Hs as [Hs Hrest']. apply andb_prop in Hs as [_ Hj].
    apply runs_within_app_r in Hk.
    assert (B : bounded prev rest = true).
    { unfold bounded. rewrite Hp.
      2:{ cbn [starts_with_digit]. cbn [forallb] in Hds.
          now apply andb_prop in Hds as [? _]. }
      destruct (last_digit d ds Hds) as (l & El & Hl). rewrite El in Hj.
      destruct rest as [|r rest']; [reflexivity|].
      cbn in Hj. apply negb_true_iff in Hj. cbn.
      now rewrite (unbounded_right _ _ Hj Hl Hrest). }
    destruct (IH (prev_after prev (d :: ds))) as (out & E & Ho);
      [now rewrite Hrest | exact Hrest' | exact Hk |].
    cbn [app]. rewrite sub_numbers_run, B by assumption.
    rewrite (reemplazar_numero_short d ds Hds Hlen), E.
    eexists; split; [reflexivity|].
    unfold has_digit. rewrite existsb_app. fold (has_digit out). rewrite Ho, orb_false_r.
    apply spelling_no_digit. apply Num2WordsFacts.quadrillions_spelled.
Qed.

Lemma spell_runs_from_digits (ds : text) : forall run rest,
  forallb is_digit ds = true ->
  spell_runs_from run (ds ++ rest) = spell_runs_from (run ++ ds) rest.
Proof.
  induction ds as [|d ds IH]; intros run rest H.
  - now rewrite app_nil_r.
  - cbn [forallb] in H. apply andb_prop in H as [Hd H].
    cbn [app spell_runs_from]. rewrite Hd, IH by exact H.
    now rewrite <- app_assoc.
Qed.

Lemma spell_runs_from_rest (run rest : text) :
  starts_with_digit rest = false ->
  spell_runs_from run rest = run_spelling run ++ spell_runs_from [] rest.
Proof.
  destruct rest as [|c t]; cbn [starts_with_digit spell_runs_from].
  - intros _. now rewrite app_nil_r.
  - now intros ->.
Qed.

Lemma run_spelling_short (d : char) (ds : text) :
  forallb is_digit (d :: ds) = true -> (List.length (d :: ds) <= 27)%nat ->
  run_spelling (d :: ds) = fst (Num2Words.quadrillions (decimal_value (d :: ds))).
Proof.
  intros H L. pose proof (reemplazar_numero_short d ds H L) as R.
  unfold reemplazar_numero in R.
  rewrite py_int_digits in R; [|exact H | unfold int_max_str_digits; lia].
  cbn [bind result_monad] in R. unfold run_spelling. now rewrite R.
Qed.

Lemma sub_numbers_spells (s : text) : forall prev,
  (starts_with_digit s = true -> Re.is_word_at prev = false) ->
  none_adjacent unbounded_pair s = true -> runs_within 27 s = true ->
  sub_numbers prev s = Return (spell_runs s).
Proof.
  unfold none_adjacent, spell_runs.
  induction s as [|c t Hc IH|d ds rest Hds Hrest IH] using run_ind;
    intros prev Hp Hs Hk.
  - reflexivity.
  - rewrite all_adjacent_cons_opt in Hs. apply andb_prop in Hs as [Hct Ht].
    rewrite runs_within_cons in Hk. apply andb_prop in Hk as [_ Hk].
    rewrite sub_numbers_nondigit by exact Hc.
    rewrite (IH (Some c)); [| |exact Ht | exact Hk].
    + cbn [spell_runs_from]. now rewrite Hc.
    + destruct t as [|b t']; [discriminate|]. cbn [starts_with_digit]. intros Hb.
      cbn [head adjacent_opt] in Hct. apply negb_true_iff in Hct.
      exact (unbounded_left _ _ Hct Hc Hb).
  - pose proof Hk as Hlen. rewrite runs_within_cons in Hlen.
    apply andb_prop in Hlen as [Hlen _]. apply Nat.leb_le in Hlen.
    change (d :: ds ++ rest) with ((d :: ds) ++ rest) in Hlen, Hs, Hk.
    rewrite digits_prefix_run in Hlen by assumption.
    rewrite all_adjacent_app in Hs.
    apply andb_prop in Hs as [Hs Hrest']. apply andb_prop in Hs as [_ Hj].
    apply runs_within_app_r in Hk.
    assert (B : bounded prev rest = true).
    { unfold bounded. rewrite Hp.
      2:{ cbn [starts_with_digit]. cbn [forallb] in Hds.
          now apply andb_prop in Hds as [? _]. }
      destruct (last_digit d ds Hds) as (l & El & Hl). rewrite El in Hj.
      destruct rest as [|r rest']; [reflexivity|].
      cbn [head adjacent_opt] in Hj. apply negb_true_iff in Hj.
      cbn [head Re.is_word_at negb andb].
      now rewrite (unbounded_right _ _ Hj Hl Hrest). }
    rewrite sub_numbers_run, B by assumption.
    rewrite (reemplazar_numero_short d ds Hds Hlen).
    rewrite (IH (prev_after prev (d :: ds))); [|now rewrite Hrest | exact Hrest' | exact Hk].
    change (d :: ds ++ rest) with ((d :: ds) ++ rest).
    rewrite spell_runs_from_digits by exact Hds.
    rewrite (spell_runs_from_rest ([] ++ d :: ds)) by exact Hrest.
    cbn [app]. now rewrite (run_spelling_short d ds Hds Hlen).
Qed.

Lemma digits_prefix_plain (w rest : text) (d : char) :
  has_digit (d :: w) = false -> Re.digits_prefix ((d :: w) ++ rest) = 0%nat.
Proof.
  cbn [has_digit existsb app Re.digits_prefix]. intros H.
  apply orb_false_elim in H as [-> _]. reflexivity.
Qed.

Lemma digits_prefix_lower_from (s : text) : forall before,
  Re.digits_prefix (lower_from before s) = Re.digits_prefix s.
Proof.
  induction s as [|c s IH]; intros before; [reflexivity|].
  cbn [lower_from Re.digits_prefix]. destruct (is_digit c) eqn:D.
  - rewrite lower_at_digit by exact D. cbn [app Re.digits_prefix].
    now rewrite D, IH.
  - pose proof (lower_at_no_digit before s c D) as H.
    destruct (lower_at_not_nil before s c) as (d & w & E). rewrite E in *.
    now apply digits_prefix_plain.
Qed.

Lemma runs_within_plain (k : nat) (w rest : text) :
  has_digit w = false -> runs_within k (w ++ rest) = runs_within k rest.
Proof.
  induction w as [|x w IH]; intros H; [reflexivity|].
  change ((x :: w) ++ rest) with (x :: w ++ rest).
  rewrite runs_within_cons.
  change (x :: w ++ rest) with ((x :: w) ++ rest).
  rewrite (digits_prefix_plain w rest x H).
  cbn [has_digit existsb] in H. apply orb_false_elim in H as [_ H].
  now rewrite IH.
Qed.

Lemma runs_within_lower_from (k : nat) (s : text) : forall before,
  runs_within k (lower_from before s) = runs_within k s.
Proof.
  induction s as [|c s IH]; intros before; [reflexivity|].
  rewrite runs_within_cons.
  cbn [lower_from]. destruct (is_digit c) eqn:D.
  - rewrite lower_at_digit by exact D. cbn [app]. rewrite runs_within_cons, IH.
    f_equal. cbn [Re.digits_prefix]. now rewrite D, digits_prefix_lower_from.
  - rewrite runs_within_plain by (now apply lower_at_no_digit).
    rewrite IH. cbn [Re.digits_prefix]. now rewrite D.
Qed.

Lemma digits_prefix_lower (s : text) : Re.digits_prefix (lower s) = Re.digits_prefix s.
Proof. apply digits_prefix_lower_from. Qed.

Lemma runs_within_lower (k : nat) (s : text) :
  runs_within k (lower s) = runs_within k s.
Proof. apply runs_within_lower_from. Qed.

Lemma digits_prefix_insert (P : char -> char -> bool) (s : text) :
  (Re.digits_prefix (insert_spaces P s) <= Re.digits_prefix s)%nat.
Proof.
  remember (List.length s) as n eqn:Hn. revert s Hn.
  induction n as [n IH] using lt_wf_ind; intros s Hn.
  destruct s as [|a [|b t]]; [apply Nat.le_refl..|].
  rewrite insert_spaces_cons.
  assert (E := IH (List.length (b :: t)) ltac:(subst n; simpl; lia) (b :: t) eq_refl).
  cbn [Re.digits_prefix app]. destruct (is_digit a); [|lia].
  destruct (P a b); cbn [app Re.digits_prefix].
  - change (is_digit space) with false. cbn iota. lia.
  - cbn [Re.digits_prefix] in E. lia.
Qed.

Lemma runs_within_insert (P : char -> char -> bool) (k : nat) (s : text) :
  runs_within k s = true -> runs_within k (insert_spaces P s) = true.
Proof.
  remember (List.length s) as n eqn:Hn. revert s Hn.
  induction n as [n IH] using lt_wf_ind; intros s Hn H.
  destruct s as [|a [|b t]]; [assumption..|].
  pose proof (digits_prefix_insert P (a :: b :: t)) as Hd.
  rewrite insert_spaces_cons in *.
  rewrite runs_within_cons in H. apply andb_prop in H as [H1 H2].
  apply Nat.leb_le in H1.
  assert (E := IH (List.length (b :: t)) ltac:(subst n; simpl; lia) (b :: t) eq_refl H2).
  rewrite runs_within_cons. apply andb_true_intro. split; [apply Nat.leb_le; lia|].
  destruct (P a b); cbn [app]; [|exact E].
  rewrite runs_within_cons, E. reflexivity.
Qed.

(** C1, as the program has it: when, once the input is lower-cased, no
    digit is glued to a word character that the boundary step does not split
    from it (an underscore, a letter outside ASCII...), and no run of digits
    of the input has more than 27 digits, the normaliser returns the text in
    which every maximal run of digits has given way to the Spanish spelling
    of its value, and that text holds no digit. *)
Theorem normalize_output_has_no_digit (x : text) :
  none_adjacent glued_pair (lower x) = true -> runs_within 27 x = true ->
  normalize x
  = Return (spell_runs (insert_spaces ascii_letter_digit_pair (lower x)))
  /\ has_digit (spell_runs (insert_spaces ascii_letter_digit_pair (lower x))) = false.
Proof.
  intros Hg Hk. unfold normalize.
  assert (E : traducir_numero_a_texto (lower x)
              = sub_numbers None (insert_spaces ascii_letter_digit_pair (lower x))).
  { pose proof (texto_separado_pairs (lower x)) as T.
    rewrite texto_separado_spaces in T. inversion T as [T'].
    rewrite traducir_steps. now rewrite T'. }
  assert (Hb : none_adjacent unbounded_pair
                 (insert_spaces ascii_letter_digit_pair (lower x)) = true)
    by (now apply separated_runs_bounded).
  assert (Hr : runs_within 27 (insert_spaces ascii_letter_digit_pair (lower x)) = true)
    by (apply runs_within_insert; now rewrite runs_within_lower).
  assert (S : sub_numbers None (insert_spaces ascii_letter_digit_pair (lower x))
              = Return (spell_runs (insert_spaces ascii_letter_digit_pair (lower x))))
    by (apply sub_numbers_spells; [reflexivity | exact Hb | exact Hr]).
  split; [now rewrite E|].
  destruct (sub_numbers_all_replaced _ None ltac:(reflexivity) Hb Hr) as (y & Ey & Hy).
  rewrite S in Ey. injection Ey as Ey'. now rewrite Ey'.
Qed.

(** ** Cutting the text at a word boundary *)

Lemma prev_after_app_cons (p q : option char) (a : text) (x : char) (b : text) :
  prev_after p (a ++ x :: b) = prev_after q (x :: b).
Proof. now rewrite prev_after_app. Qed.

Lemma clean_cut_tail (a b v : text) :
  clean_cut (a ++ b) v = true -> clean_cut b v = true.
Proof.
  destruct b as [|x b]; [reflexivity|].
  unfold clean_cut. now rewrite (prev_after_app_cons None None).
Qed.

Lemma sub_numbers_app (u : text) : forall p v,
  clean_cut u v = true ->
  sub_numbers p (u ++ v)
  = (x <- sub_numbers p u ;; y <- sub_numbers (prev_after p u) v ;; Return (x ++ y)).
Proof.
  induction u as [|c t Hc IH|d ds rest Hds Hrest IH] using run_ind; intros p v Hcut.
  - cbn [app]. change (prev_after p []) with p. rewrite sub_numbers_nil.
    cbn [bind result_monad app]. now destruct (sub_numbers p v).
  - cbn [app]. rewrite !sub_numbers_nondigit by exact Hc.
    rewrite IH by (apply (clean_cut_tail [c]); exact Hcut).
    rewrite prev_after_cons.
    destruct (sub_numbers (Some c) t) as [x|]; [|reflexivity].
    cbn [bind result_monad].
    now destruct (sub_numbers (prev_after (Some c) t) v).
  - assert (Hcut' : clean_cut rest v = true)
      by (apply (clean_cut_tail (d :: ds)); exact Hcut).
    assert (Hv : rest = [] -> Re.is_word_at (head v) = false).
    { intros ->. rewrite app_nil_r in Hcut. unfold clean_cut in Hcut.
      rewrite (prev_after_digits None (d :: ds)) in Hcut by (assumption || discriminate).
      now apply negb_true_iff in Hcut. }
    assert (Hstart : starts_with_digit (rest ++ v) = false).
    { destruct rest as [|r rest']; [|exact Hrest].
      specialize (Hv eq_refl). cbn [app]. destruct v as [|y v']; [reflexivity|].
      cbn in *. destruct (is_digit y) eqn:D; [|reflexivity].
      now rewrite (digit_is_word _ D) in Hv. }
    assert (Hb : bounded p (rest ++ v) = bounded p rest).
    { destruct rest as [|r rest']; [|reflexivity].
      unfold bounded. cbn [app head]. now rewrite (Hv eq_refl). }
    cbn [app]. rewrite <- app_assoc.
    rewrite !sub_numbers_run by assumption. rewrite Hb.
    rewrite IH by exact Hcut'.
    change (d :: ds ++ rest) with ((d :: ds) ++ rest).
    rewrite (prev_after_app p (d :: ds) rest).
    destruct (bounded p rest).
    + destruct (reemplazar_numero (d :: ds)) as [w|]; [|reflexivity].
      cbn [bind result_monad].
      destruct (sub_numbers (prev_after p (d :: ds)) rest) as [x|]; [|reflexivity].
      cbn [bind result_monad].
      destruct (sub_numbers (prev_after (prev_after p (d :: ds)) rest) v);
        cbn [bind result_monad]; [|reflexivity].
      now rewrite app_assoc.
    + destruct (sub_numbers (prev_after p (d :: ds)) rest) as [x|]; [|reflexivity].
      cbn [bind result_monad].
      destruct (sub_numbers (prev_after (prev_after p (d :: ds)) rest) v);
        cbn [bind result_monad]; [|reflexivity].
      cbn [app]. now rewrite app_assoc.
Qed.

(** ** A delimited run inside a text *)

Lemma traducir_pairs (s : text) :
  traducir_numero_a_texto s
  = sub_numbers None (insert_spaces ascii_letter_digit_pair s).
Proof.
  pose proof (texto_separado_pairs s) as T.
  rewrite texto_separado_spaces in T. inversion T as [T'].
  rewrite traducir_steps. now rewrite T'.
Qed.

Lemma gap_cons (P : char -> char -> bool) (x x' : char) (a b : text) :
  gap P (x :: x' :: a) b = gap P (x' :: a) b.
Proof. reflexivity. Qed.

Lemma insert_spaces_app (P : char -> char -> bool) (a b : text) :
  insert_spaces P (a ++ b) = insert_spaces P a ++ gap P a b ++ insert_spaces P b.
Proof.
  induction a as [|x a IH]; [reflexivity|].
  destruct a as [|x' a'].
  - destruct b as [|y b']; [reflexivity|].
    cbn [app]. rewrite insert_spaces_cons. reflexivity.
  - change ((x :: x' :: a') ++ b) with (x :: x' :: a' ++ b).
    rewrite !insert_spaces_cons, gap_cons.
    change (x' :: a' ++ b) with ((x' :: a') ++ b). rewrite IH.
    cbn [app]. now rewrite <- !app_assoc.
Qed.

Lemma insert_spaces_last (P : char -> char -> bool) (s : text) : forall p,
  prev_after p (insert_spaces P s) = prev_after p s.
Proof.
  remember (List.length s) as n eqn:Hn. revert s Hn.
  induction n as [n IH] using lt_wf_ind; intros s Hn p.
  destruct s as [|a [|b t]]; [reflexivity..|].
  rewrite insert_spaces_cons.
  assert (E := fun q => IH (List.length (b :: t)) ltac:(subst n; simpl; lia)
                           (b :: t) eq_refl q).
  rewrite !prev_after_cons, prev_after_app, E. reflexivity.
Qed.

Lemma insert_spaces_digits (r : text) :
  forallb is_digit r = true -> insert_spaces ascii_letter_digit_pair r = r.
Proof.
  intros H. apply insert_spaces_none. unfold none_adjacent.
  induction r as [|a [|b t] IH]; [reflexivity..|].
  cbn [forallb] in H. apply andb_prop in H as [Ha H].
  pose proof H as H'. cbn [forallb] in H'. apply andb_prop in H' as [Hb _].
  rewrite all_adjacent_cons, (IH H), andb_true_r.
  unfold ascii_letter_digit_pair, letter_then_digit, digit_then_letter.
  now rewrite (digit_not_letter _ Ha), (digit_not_letter _ Hb), andb_false_r.
Qed.

Lemma gap_before_run (a : text) (d : char) (t : text) :
  is_digit d = true ->
  gap ascii_letter_digit_pair a (d :: t)
  = space_if (is_ascii_letter_at (prev_after None a)).
Proof.
  intros Hd. unfold gap. cbn [head].
  destruct (prev_after None a) as [x|]; [|reflexivity].
  unfold ascii_letter_digit_pair, letter_then_digit, digit_then_letter.
  rewrite Hd, (digit_not_letter _ Hd), andb_true_r, andb_false_r, orb_false_r.
  reflexivity.
Qed.

Lemma gap_after_run (d : char) (ds b : text) :
  forallb is_digit (d :: ds) = true ->
  gap ascii_letter_digit_pair (d :: ds) b = space_if (is_ascii_letter_at (head b)).
Proof.
  intros H. unfold gap. destruct (last_digit d ds H) as (l & -> & Hl).
  destruct (head b) as [y|]; [|reflexivity].
  unfold ascii_letter_digit_pair, letter_then_digit, digit_then_letter.
  now rewrite Hl, (digit_not_letter _ Hl).
Qed.

Lemma free_side_not_word (o : option char) :
  free_side o = true -> is_ascii_letter_at o = false -> Re.is_word_at o = false.
Proof.
  destruct o as [c|]; [|reflexivity].
  cbn [free_side is_ascii_letter_at Re.is_word_at]. intros H L.
  apply andb_prop in H as [H1 H2]. apply negb_true_iff in H1, H2.
  now rewrite is_word_cases, H1, H2, L.
Qed.

Lemma free_side_not_digit (o : option char) :
  free_side o = true -> is_digit_at o = false.
Proof.
  destruct o as [c|]; [|reflexivity]. cbn. intros H.
  apply andb_prop in H as [H1 _]. now apply negb_true_iff in H1.
Qed.

Lemma space_if_no_digit (b : bool) : has_digit (space_if b) = false.
Proof. now destruct b. Qed.

(** The word status of what precedes the run, after the boundary space. *)
Lemma left_of_run (o : option char) :
  free_side o = true ->
  Re.is_word_at (prev_after o (space_if (is_ascii_letter_at o))) = false.
Proof.
  intros H. destruct (is_ascii_letter_at o) eqn:L; [reflexivity|].
  now apply free_side_not_word.
Qed.

Lemma right_of_run (zb : text) :
  free_side (head zb) = true ->
  Re.is_word_at (head (space_if (is_ascii_letter_at (head zb)) ++ zb)) = false
  /\ starts_with_digit (space_if (is_ascii_letter_at (head zb)) ++ zb) = false.
Proof.
  intros H. destruct (is_ascii_letter_at (head zb)) eqn:L; [split; reflexivity|].
  cbn [space_if app]. split; [now apply free_side_not_word|].
  pose proof (free_side_not_digit _ H) as D. now destruct zb.
Qed.

Lemma sub_numbers_after_run (l : option char) (zb : text) :
  free_side (head zb) = true ->
  sub_numbers l (space_if (is_ascii_letter_at (head zb)) ++ zb)
  = (q <- sub_numbers None zb ;;
     Return (space_if (is_ascii_letter_at (head zb)) ++ q)).
Proof.
  intros H. rewrite sub_numbers_plain by apply space_if_no_digit.
  rewrite (sub_numbers_prev _ None zb); [reflexivity|].
  destruct (is_ascii_letter_at (head zb)) eqn:L; [left; reflexivity|].
  right. pose proof (free_side_not_digit _ H) as D. now destruct zb.
Qed.

Lemma sub_numbers_around_run (za zb : text) (d : char) (ds : text) :
  forallb is_digit (d :: ds) = true ->
  free_side (prev_after None za) = true -> free_side (head zb) = true ->
  sub_numbers None
    (za ++ space_if (is_ascii_letter_at (prev_after None za))
        ++ (d :: ds) ++ space_if (is_ascii_letter_at (head zb)) ++ zb)
  = (p <- sub_numbers None za ;;
     w <- reemplazar_numero (d :: ds) ;;
     q <- sub_numbers None zb ;;
     Return (p ++ space_if (is_ascii_letter_at (prev_after None za))
               ++ w ++ space_if (is_ascii_letter_at (head zb)) ++ q)).
Proof.
  intros Hr Ha Hb.
  set (g1 := space_if (is_ascii_letter_at (prev_after None za))).
  set (g2 := space_if (is_ascii_letter_at (head zb))).
  assert (Hd : is_digit d = true)
    by (cbn [forallb] in Hr; now apply andb_prop in Hr as [? _]).
  rewrite sub_numbers_app.
  2:{ unfold clean_cut. subst g1.
      destruct (is_ascii_letter_at (prev_after None za)) eqn:L.
      - cbn [space_if app head Re.is_word_at]. rewrite space_not_word.
        now rewrite andb_false_r.
      - now rewrite (free_side_not_word _ Ha L). }
  destruct (sub_numbers None za) as [p|]; [|reflexivity].
  cbn [bind result_monad].
  rewrite sub_numbers_plain by apply space_if_no_digit.
  cbn [app].
  destruct (right_of_run zb Hb) as [Hw Hs]. fold g2 in Hw, Hs.
  rewrite sub_numbers_run by assumption.
  unfold bounded. rewrite Hw. subst g1. rewrite (left_of_run _ Ha).
  cbn [negb andb].
  destruct (reemplazar_numero (d :: ds)) as [w|]; [|reflexivity].
  cbn [bind result_monad]. subst g2.
  rewrite sub_numbers_after_run by exact Hb.
  destruct (sub_numbers None zb) as [q|]; reflexivity.
Qed.

Lemma traducir_around_run (a b : text) (d : char) (ds : text) :
  forallb is_digit (d :: ds) = true ->
  free_side (prev_after None a) = true -> free_side (head b) = true ->
  traducir_numero_a_texto (a ++ (d :: ds) ++ b)
  = (p <- traducir_numero_a_texto a ;;
     w <- reemplazar_numero (d :: ds) ;;
     q <- traducir_numero_a_texto b ;;
     Return (p ++ space_if (is_ascii_letter_at (prev_after None a))
               ++ w ++ space_if (is_ascii_letter_at (head b)) ++ q)).
Proof.
  intros Hr Ha Hb. rewrite !traducir_pairs.
  assert (Hd : is_digit d = true)
    by (cbn [forallb] in Hr; now apply andb_prop in Hr as [? _]).
  rewrite insert_spaces_app, (insert_spaces_app _ (d :: ds) b).
  rewrite (insert_spaces_digits _ Hr).
  change ((d :: ds) ++ b) with (d :: ds ++ b).
  rewrite (gap_before_run a d (ds ++ b) Hd), (gap_after_run d ds b Hr).
  rewrite <- (insert_spaces_last ascii_letter_digit_pair a None).
  rewrite <- (insert_spaces_head ascii_letter_digit_pair b).
  apply sub_numbers_around_run; [assumption| |].
  - now rewrite insert_spaces_last.
  - now rewrite insert_spaces_head.
Qed.

(** [str.lower] around a run of digits: a digit is neither cased nor
    case-ignorable, so no sigma sees across the run. *)
Lemma uncased_after_stop (a : text) (d : char) (s : text) :
  is_digit d = true -> uncased_after (a ++ d :: s) = uncased_after a.
Proof.
  intros Hd. destruct (digit_stops_sigma d Hd) as [Hi Hc]. unfold uncased_after.
  induction a as [|x a IH]; cbn [app skip_case_ignorable].
  - now rewrite Hi, Hc.
  - destruct (is_case_ignorable x); [exact IH | reflexivity].
Qed.

Lemma lower_at_stop (before : text) (x : char) (a : text) (d : char) (s : text) :
  is_digit d = true -> lower_at before x (a ++ d :: s) = lower_at before x a.
Proof.
  intros Hd. unfold lower_at, in_final_sigma_context.
  now rewrite uncased_after_stop.
Qed.

Lemma lower_from_app_stop (a : text) : forall before d s,
  is_digit d = true ->
  lower_from before (a ++ d :: s)
  = lower_from before a ++ lower_from (rev a ++ before) (d :: s).
Proof.
  induction a as [|x a IH]; intros before d s Hd; [reflexivity|].
  cbn [app lower_from rev]. rewrite lower_at_stop by exact Hd.
  rewrite IH by exact Hd. now rewrite <- !app_assoc.
Qed.

Lemma lower_from_before (s : text) : forall b1 b2,
  cased_before b1 = cased_before b2 -> lower_from b1 s = lower_from b2 s.
Proof.
  induction s as [|c s IH]; intros b1 b2 H; [reflexivity|].
  cbn [lower_from]. f_equal.
  - unfold lower_at, in_final_sigma_context. now rewrite H.
  - apply IH. unfold cased_before in *. cbn [skip_case_ignorable].
    destruct (is_case_ignorable c); [exact H | reflexivity].
Qed.

Lemma cased_before_digit (d : char) (before : text) :
  is_digit d = true -> cased_before (d :: before) = false.
Proof.
  intros Hd. destruct (digit_stops_sigma d Hd) as [Hi Hc].
  unfold cased_before. cbn [skip_case_ignorable]. now rewrite Hi.
Qed.

Lemma lower_from_digits (ds post : text) : forall before,
  forallb is_digit ds = true -> cased_before before = false ->
  lower_from before (ds ++ post) = ds ++ lower post.
Proof.
  induction ds as [|d ds IH]; intros before H Hb.
  - now apply lower_from_before.
  - cbn [forallb] in H. apply andb_prop in H as [Hd H].
    cbn [app lower_from]. rewrite lower_at_digit by exact Hd.
    rewrite IH; [reflexivity | exact H | now apply cased_before_digit].
Qed.

Lemma lower_around_run (pre post : text) (d : char) (ds : text) :
  forallb is_digit (d :: ds) = true ->
  lower (pre ++ (d :: ds) ++ post) = lower pre ++ (d :: ds) ++ lower post.
Proof.
  intros H. pose proof H as H'. cbn [forallb] in H'.
  apply andb_prop in H' as [Hd Hds].
  unfold lower at 1. cbn [app]. rewrite lower_from_app_stop by exact Hd.
  f_equal. cbn [lower_from]. rewrite lower_at_digit by exact Hd.
  cbn [app]. f_equal.
  apply lower_from_digits; [exact Hds | now apply cased_before_digit].
Qed.

(** The normaliser around a run of digits that is free on both sides once
    the text is lower-cased. *)
Lemma normalize_around_run (pre post : text) (d : char) (ds : text) :
  forallb is_digit (d :: ds) = true ->
  free_side (prev_after None (lower pre)) = true ->
  free_side (head (lower post)) = true ->
  normalize (pre ++ (d :: ds) ++ post)
  = (p <- normalize pre ;;
     w <- reemplazar_numero (d :: ds) ;;
     q <- normalize post ;;
     Return (p ++ space_if (is_ascii_letter_at (prev_after None (lower pre)))
               ++ w ++ space_if (is_ascii_letter_at (head (lower post))) ++ q)).
Proof.
  intros Hr Ha Hb. unfold normalize.
  rewrite (lower_around_run _ _ _ _ Hr).
  now rewrite traducir_around_run.
Qed.

(** ** The claims on the digits of the output *)

Lemma normalize_output_has_no_digit_witness :
  normalize (str "Tengo 5 gatos y 12 perros en la Sala123B")
  = Return (str "tengo cinco gatos y doce perros en la sala ciento veintitr"
            ++ [e_acute] ++ str "s b")
  /\ has_digit (str "tengo cinco gatos y doce perros en la sala ciento veintitr"
                ++ [e_acute] ++ str "s b") = false.
Proof.
  destruct (normalize_output_has_no_digit
              (str "Tengo 5 gatos y 12 perros en la Sala123B")
              ltac:(vm_compute; reflexivity) ltac:(vm_compute; reflexivity))
    as [H1 H2].
  split; [rewrite H1; vm_compute; reflexivity | vm_compute; reflexivity].
Defined.

(** C1 as stated fails: the digit of "_1" is glued to an underscore, no word
    boundary delimits it, and the normaliser returns the text with its
    digit. *)
Lemma normalize_keeps_glued_digit :
  normalize (str "_1") = Return (str "_1") /\ has_digit (str "_1") = true.
Proof. split; vm_compute; reflexivity. Qed.

Lemma decimal_value_leading_zero (ds : text) :
  decimal_value (chr 48 :: ds) = decimal_value ds.
Proof. reflexivity. Qed.

Lemma reemplazar_numero_value (d : char) (ds : text) :
  forallb is_digit (d :: ds) = true ->
  (List.length (d :: ds) <= int_max_str_digits)%nat ->
  reemplazar_numero (d :: ds) = num2words_es (decimal_value (d :: ds)).
Proof.
  intros H L. unfold reemplazar_numero. now rewrite py_int_digits.
Qed.

(** C6, as the program has it: a maximal run of digits that is free on both
    sides once the text is lower-cased (its neighbours are then neither an
    underscore nor a word character outside ASCII) and has at most 4300
    digits is read as a non-negative integer in base ten, leading zeros
    allowed and without effect on the value, and is replaced by the Spanish
    cardinal spelling of that value, a space parting it from a neighbouring
    ASCII letter; the rest of the text is normalised on its own. *)
Theorem delimited_run_is_spelled (pre post : text) (d : char) (ds : text) :
  forallb is_digit (d :: ds) = true ->
  (List.length (d :: ds) <= int_max_str_digits)%nat ->
  free_side (prev_after None (lower pre)) = true ->
  free_side (head (lower post)) = true ->
  normalize (pre ++ (d :: ds) ++ post)
  = (p <- normalize pre ;;
     w <- num2words_es (decimal_value (d :: ds)) ;;
     q <- normalize post ;;
     Return (p ++ space_if (is_ascii_letter_at (prev_after None (lower pre)))
               ++ w ++ space_if (is_ascii_letter_at (head (lower post))) ++ q))
  /\ decimal_value (chr 48 :: d :: ds) = decimal_value (d :: ds).
Proof.
  intros Hr L Ha Hb. split; [|apply decimal_value_leading_zero].
  rewrite normalize_around_run by assumption.
  now rewrite reemplazar_numero_value.
Qed.

Lemma delimited_run_is_spelled_witness :
  normalize (str "Agente007!") = Return (str "agente siete!")
  /\ decimal_value (str "007") = 7%Z
  /\ num2words_es 7 = Return (str "siete").
Proof.
  destruct (delimited_run_is_spelled (str "Agente") (str "!") (chr 48) (str "07")
              ltac:(vm_compute; reflexivity)
              ltac:(unfold int_max_str_digits; simpl; lia)
              ltac:(vm_compute; reflexivity) ltac:(vm_compute; reflexivity))
    as [H _].
  split; [|split; vm_compute; reflexivity].
  change (str "Agente007!") with (str "Agente" ++ (chr 48 :: str "07") ++ str "!").
  rewrite H. vm_compute. reflexivity.
Defined.

(** C6 as stated fails: in "_007" the run 007 is maximal, its value is
    seven, and the normaliser returns the text unchanged instead of putting
    "siete" in its place. *)
Lemma glued_run_is_not_spelled :
  normalize (str "_007") = Return (str "_007")
  /\ Re.digits_prefix (str "007") = 3%nat
  /\ num2words_es (decimal_value (str "007")) = Return (str "siete")
  /\ normalize (str "_007") <> Return (str "_siete").
Proof. repeat split; try (vm_compute; reflexivity). vm_compute. discriminate. Qed.

(** ** The claims on failures *)

Lemma not_empty_around_run (pre run post : text) (d : char) :
  is_empty (pre ++ (d :: run) ++ post) = false.
Proof. now destruct pre. Qed.

(** C3, as the program has it: the normaliser has no fallback.  When the
    text before a run of digits is normalised without failure and the run,
    free on both sides once the text is lower-cased and of at most 4300
    digits, has a value that the conversion cannot render (10^27 or more),
    the normaliser raises the OverflowError of the conversion instead of
    leaving the run as it is; [infer] raises it before the model is called;
    and the handler, once the upload is accepted and stored, answers with
    status 500 and the text of that exception.  The decorator of [infer],
    where [spaces] is in use, is taken to run the function it decorates. *)
Theorem unrenderable_run_raises (world wave spectrogram float : Type)
    (env : Collaborators world wave spectrogram float)
    (pre post p : text) (d : char) (ds : text) :
  forallb is_digit (d :: ds) = true ->
  (List.length (d :: ds) <= int_max_str_digits)%nat ->
  (Num2Words.MAXVAL <= decimal_value (d :: ds))%Z ->
  free_side (prev_after None (lower pre)) = true ->
  free_side (head (lower post)) = true ->
  normalize pre = Return p ->
  let gen_text := pre ++ (d :: ds) ++ post in
  let e := OverflowError (decimal_value (d :: ds)) in
  let detail := error_prefix ++ exception_str _ _ _ _ env e in
  normalize gen_text = Raise e
  /\ (forall (ref_audio_orig ref_text : text) (remove_silence : bool)
             (cross_fade_duration speed : float) (w : world),
        infer env ref_audio_orig ref_text gen_text remove_silence
          cross_fade_duration speed w
        = (Raise e,
           snd (logger_info _ _ _ _ env
                  (str "Iniciando el preprocesamiento del texto...") w)))
  /\ (forall (ref_audio : UploadFile) (name ref_text : text) (remove_silence : bool)
             (cross_fade_duration speed : float) (w w1 w2 : world) (tmp_audio : text),
        filename ref_audio = Some name -> endswith name (str ".wav") = true ->
        is_empty ref_text = false ->
        named_temporary_file _ _ _ _ env (str ".wav") (snd (time_time _ _ _ _ env w))
        = (Return tmp_audio, w1) ->
        file_write _ _ _ _ env tmp_audio (file ref_audio) w1 = (Return tt, w2) ->
        (forall w0,
            gpu_decorator env (infer env) tmp_audio ref_text gen_text remove_silence
              cross_fade_duration speed w0
            = infer env tmp_audio ref_text gen_text remove_silence
                cross_fade_duration speed w0) ->
        generate_audio env ref_audio ref_text gen_text remove_silence
          cross_fade_duration speed w
        = (Raise (HTTPException 500 detail),
           snd (logger_error _ _ _ _ env detail
                  (snd (logger_info _ _ _ _ env
                          (str "Iniciando el preprocesamiento del texto...")
                          (snd (logger_info _ _ _ _ env
                                  (str "Iniciando la inferencia de audio...") w2))))))).
Proof.
  intros Hr L V Ha Hb Hp. cbn zeta.
  assert (E : normalize (pre ++ (d :: ds) ++ post)
              = Raise (OverflowError (decimal_value (d :: ds)))).
  { rewrite normalize_around_run by assumption. rewrite Hp.
    cbn [bind result_monad]. rewrite reemplazar_numero_value by assumption.
    unfold num2words_es. now rewrite to_cardinal_overflow by exact V. }
  assert (I : forall (ref_audio_orig ref_text : text) (remove_silence : bool)
                     (cross_fade_duration speed : float) (w : world),
             infer env ref_audio_orig ref_text (pre ++ (d :: ds) ++ post)
               remove_silence cross_fade_duration speed w
             = (Raise (OverflowError (decimal_value (d :: ds))),
                snd (logger_info _ _ _ _ env
                       (str "Iniciando el preprocesamiento del texto...") w))).
  { intros. unfold infer, normalize_step, pure, act. cbn [bind M_monad].
    destruct (logger_info _ _ _ _ env _ w) as [[] w1]. now rewrite E. }
  split; [exact E|]. split; [exact I|].
  intros ref_audio name ref_text remove_silence cross_fade_duration speed
         w w1 w2 tmp_audio Hn He Ht Htmp Hw Hdec.
  unfold generate_audio, act, try_except. cbn [bind M_monad].
  destruct (time_time _ _ _ _ env w) as [start_time w0]. cbn [snd] in Htmp.
  unfold generate_audio_try. rewrite Hn, He, Ht, not_empty_around_run.
  cbn [negb orb]. cbn [bind ret M_monad]. rewrite Htmp, Hw.
  unfold act at 1.
  destruct (logger_info _ _ _ _ env (str "Iniciando la inferencia de audio...") w2)
    as [[] w3] eqn:E3.
  cbn [snd]. rewrite Hdec, I.
  unfold generate_audio_except, act, raise. cbn [bind M_monad].
  now destruct (logger_error _ _ _ _ env _ _) as [[] w5].
Qed.

Lemma unrenderable_run_raises_witness :
  normalize (str "total: 1000000000000000000000000000 euros")
  = Raise (OverflowError (10 ^ 27))
  /\ generate_audio demo_env {| filename := Some (str "voz.wav"); file := [] |}
       (str "hola") (str "total: 1000000000000000000000000000 euros") false 0%Z 1%Z []
     = (Raise (HTTPException 500
          (str "Error al generar el audio: abs(1000000000000000000000000000) must be less than 1000000000000000000000000000.")),
        [ str "Error al generar el audio: abs(1000000000000000000000000000) must be less than 1000000000000000000000000000.";
          str "Iniciando el preprocesamiento del texto...";
          str "Iniciando la inferencia de audio..." ]).
Proof.
  destruct (unrenderable_run_raises _ _ _ _ demo_env
              (str "total: ") (str " euros") (str "total: ") (chr 49)
              (str "000000000000000000000000000")
              ltac:(vm_compute; reflexivity)
              ltac:(unfold int_max_str_digits; simpl; lia)
              ltac:(vm_compute; intro; discriminate)
              ltac:(vm_compute; reflexivity) ltac:(vm_compute; reflexivity)
              ltac:(vm_compute; reflexivity))
    as (H1 & _ & H3).
  split.
  - change (str "total: 1000000000000000000000000000 euros")
      with (str "total: " ++ (chr 49 :: str "000000000000000000000000000")
            ++ str " euros").
    rewrite H1. vm_compute. reflexivity.
  - change (str "total: 1000000000000000000000000000 euros")
      with (str "total: " ++ (chr 49 :: str "000000000000000000000000000")
            ++ str " euros").
    rewrite (H3 {| filename := Some (str "voz.wav"); file := [] |} (str "voz.wav")
               (str "hola") false 0%Z 1%Z [] [] [] (str "/tmp/tmp0.wav")
               eq_refl ltac:(vm_compute; reflexivity) eq_refl eq_refl eq_refl
               ltac:(intros; reflexivity)).
    vm_compute. reflexivity.
Defined.

(** C3 as stated fails: num2words cannot render 10^27, and the normaliser
    raises OverflowError on that run instead of returning the text with the
    run unchanged. *)
Lemma overflow_is_raised :
  normalize (str "1000000000000000000000000000") = Raise (OverflowError (10 ^ 27))
  /\ normalize (str "1000000000000000000000000000")
     <> Return (str "1000000000000000000000000000").
Proof. split; [vm_compute; reflexivity | vm_compute; discriminate]. Qed.

Section Handler.

Variables (world wave spectrogram float : Type).
Variable env : Collaborators world wave spectrogram float.

Lemma except_answers_500 (body : M world FileResponse) (w : world) :
  (exists response w',
      try_except body (generate_audio_except env) w = (Return response, w'))
  \/ (exists detail w',
      try_except body (generate_audio_except env) w
      = (Raise (HTTPException 500 detail), w')).
Proof.
  unfold try_except. destruct (body w) as [[response|e] w'].
  - left. eauto.
  - right. unfold generate_audio_except, act, raise. cbn [bind M_monad].
    destruct (logger_error _ _ _ _ env _ w') as [[] w'']. eauto.
Qed.

Lemma rejected_input_raises (start_time : float) (ref_audio : UploadFile)
    (ref_text gen_text : text) (remove_silence : bool)
    (cross_fade_duration speed : float) (w : world) :
  rejected_input ref_audio ref_text gen_text = true ->
  exists e w', generate_audio_try env start_time ref_audio ref_text gen_text
                 remove_silence cross_fade_duration speed w = (Raise e, w').
Proof.
  unfold rejected_input, generate_audio_try. intros H.
  destruct (filename ref_audio) as [name|]; [|cbn; eauto].
  destruct (negb (endswith name (str ".wav"))); [cbn; eauto|].
  cbn [orb] in H. rewrite H.
  unfold raise, act. cbn [bind ret M_monad].
  destruct (named_temporary_file _ _ _ _ env (str ".wav") w) as [[tmp|e] w1]; [|eauto].
  destruct (file_write _ _ _ _ env tmp (file ref_audio) w1) as [[[]|e] w2]; eauto.
Qed.

End Handler.

(** C9: every failure of the handler of POST /generate-audio/ reaches the
    client as HTTP 500: whatever exception the [try] block raises, the
    handler raises [HTTPException] with status 500; and this includes the
    checks of the input (a file name that does not end in ".wav", an empty
    ref_text or gen_text), whose 400 is caught by the [except Exception]
    clause and raised again as 500. *)
Theorem generate_audio_failures_are_500 (world wave spectrogram float : Type)
    (env : Collaborators world wave spectrogram float)
    (ref_audio : UploadFile) (ref_text gen_text : text) (remove_silence : bool)
    (cross_fade_duration speed : float) (w : world) :
  (forall e w',
      generate_audio env ref_audio ref_text gen_text remove_silence
        cross_fade_duration speed w = (Raise e, w') ->
      exists detail, e = HTTPException 500 detail)
  /\ (rejected_input ref_audio ref_text gen_text = true ->
      exists detail w',
        generate_audio env ref_audio ref_text gen_text remove_silence
          cross_fade_duration speed w = (Raise (HTTPException 500 detail), w')).
Proof.
  unfold generate_audio, act. cbn [bind M_monad].
  destruct (time_time _ _ _ _ env w) as [start_time w0].
  split.
  - intros e w' H.
    destruct (except_answers_500 _ _ _ _ env
                (generate_audio_try env start_time ref_audio ref_text gen_text
                   remove_silence cross_fade_duration speed) w0)
      as [(r & w1 & E) | (detail & w1 & E)]; rewrite E in H; inversion H; eauto.
  - intros Hrej.
    destruct (rejected_input_raises _ _ _ _ env start_time ref_audio ref_text gen_text
                remove_silence cross_fade_duration speed w0 Hrej) as (e & w1 & E).
    unfold try_except. rewrite E.
    unfold generate_audio_except, act, raise. cbn [bind M_monad].
    destruct (logger_error _ _ _ _ env _ w1) as [[] w2]. eauto.
Qed.

Lemma generate_audio_failures_are_500_witness :
  rejected_input {| filename := Some (str "voz.mp3"); file := [] |}
    (str "hola") (str "mundo") = true
  /\ exists detail w',
       generate_audio demo_env {| filename := Some (str "voz.mp3"); file := [] |}
         (str "hola") (str "mundo") false 0%Z 1%Z []
       = (Raise (HTTPException 500 detail), w').
Proof.
  split; [reflexivity|].
  destruct (generate_audio_failures_are_500 _ _ _ _ demo_env
              {| filename := Some (str "voz.mp3"); file := [] |}
              (str "hola") (str "mundo") false 0%Z 1%Z []) as [_ H].
  exact (H eq_refl).
Defined.

(** ** More on the normaliser: what it returns *)

Lemma normalize_pairs (x : text) :
  normalize x = sub_numbers None (insert_spaces ascii_letter_digit_pair (lower x)).
Proof. unfold normalize. apply traducir_pairs. Qed.

Lemma ascii_pair_plain (a b : char) :
  is_digit a = false -> is_digit b = false ->
  negb (ascii_letter_digit_pair a b) = true.
Proof.
  intros Ha Hb. unfold ascii_letter_digit_pair, letter_then_digit, digit_then_letter.
  now rewrite Ha, Hb, andb_false_r.
Qed.

(** X1: whatever the normaliser returns is in lower case: [str.lower] leaves
    it unchanged. *)
Theorem normalize_output_is_lower_case (x y : text) :
  normalize x = Return y -> lower y = y.
Proof.
  rewrite normalize_pairs. intros H.
  apply lower_fixed_text.
  apply (sub_numbers_forallb lower_fixed) with (3 := H).
  - intros c Hc. exact (proj2 (spelling_char_plain _ Hc)).
  - apply forallb_insert_spaces; [reflexivity | apply lower_fixed_lower].
Qed.

Lemma normalize_output_is_lower_case_witness :
  normalize (str "HOLA 2 Veces_3") = Return (str "hola dos veces_3")
  /\ lower (str "hola dos veces_3") = str "hola dos veces_3".
Proof.
  assert (H : normalize (str "HOLA 2 Veces_3") = Return (str "hola dos veces_3"))
    by (vm_compute; reflexivity).
  split; [exact H|].
  exact (normalize_output_is_lower_case (str "HOLA 2 Veces_3") _ H).
Defined.

(** X2: in whatever the normaliser returns, no digit is next to an ASCII
    letter, also when some digits were kept. *)
Theorem normalize_output_is_separated (x y : text) :
  normalize x = Return y -> none_adjacent ascii_letter_digit_pair y = true.
Proof.
  rewrite normalize_pairs. intros H. unfold none_adjacent.
  eapply (sub_numbers_adjacent _ ascii_pair_plain _ None y);
    [reflexivity | apply separated_ascii_pairs | exact H].
Qed.

Lemma normalize_output_is_separated_witness :
  normalize (str "a_1b") = Return (str "a_1 b")
  /\ none_adjacent ascii_letter_digit_pair (str "a_1 b") = true.
Proof.
  assert (H : normalize (str "a_1b") = Return (str "a_1 b")) by (vm_compute; reflexivity).
  split; [exact H|].
  exact (normalize_output_is_separated (str "a_1b") _ H).
Defined.

(** ** More on the normaliser: when it raises *)

Lemma sub_numbers_returns (s : text) : forall prev,
  runs_within 27 s = true -> exists y, sub_numbers prev s = Return y.
Proof.
  induction s as [|c t Hc IH|d ds rest Hds Hrest IH] using run_ind; intros prev Hk.
  - exists []. reflexivity.
  - rewrite runs_within_cons in Hk. apply andb_prop in Hk as [_ Hk].
    destruct (IH (Some c) Hk) as [out E].
    exists (c :: out). rewrite sub_numbers_nondigit by exact Hc. now rewrite E.
  - pose proof Hk as Hlen. rewrite runs_within_cons in Hlen.
    apply andb_prop in Hlen as [Hlen _]. apply Nat.leb_le in Hlen.
    change (d :: ds ++ rest) with ((d :: ds) ++ rest) in Hlen, Hk.
    rewrite digits_prefix_run in Hlen by assumption.
    apply runs_within_app_r in Hk.
    destruct (IH (prev_after prev (d :: ds)) Hk) as [out E].
    rewrite sub_numbers_run by assumption.
    rewrite (reemplazar_numero_short d ds Hds Hlen), E.
    destruct (bounded prev rest); eexists; reflexivity.
Qed.

(** X3: the normaliser returns on every text whose runs of digits have at
    most 27 digits each, whatever else the text holds. *)
Theorem normalize_returns_on_short_runs (x : text) :
  runs_within 27 x = true -> exists y, normalize x = Return y.
Proof.
  intros H. rewrite normalize_pairs. apply sub_numbers_returns.
  apply runs_within_insert. now rewrite runs_within_lower.
Qed.

Lemma normalize_returns_on_short_runs_witness :
  exists y, normalize (str "El 31/12/1999 a las 23:59, sala_7 y 100%") = Return y.
Proof.
  apply (normalize_returns_on_short_runs
           (str "El 31/12/1999 a las 23:59, sala_7 y 100%")).
  reflexivity.
Defined.

Lemma reemplazar_numero_raises (d : char) (ds : text) (e : exn) :
  forallb is_digit (d :: ds) = true ->
  reemplazar_numero (d :: ds) = Raise e ->
  (exists v, e = OverflowError v /\ (Num2Words.MAXVAL <= v)%Z
             /\ v = decimal_value (d :: ds))
  \/ (exists n, e = ValueError n /\ (int_max_str_digits < n)%nat
                /\ n = List.length (d :: ds)).
Proof.
  intros Hds. unfold reemplazar_numero, py_int. rewrite Hds.
  cbn [Nat.eqb List.length negb andb].
  destruct (Nat.leb_spec (S (List.length ds)) int_max_str_digits) as [L|L].
  - cbn [bind result_monad]. fold (decimal_value (d :: ds)).
    pose proof (decimal_value_range _ Hds) as [V0 _].
    unfold num2words_es, Num2Words.to_cardinal.
    rewrite Z.abs_eq by exact V0.
    destruct (Z.leb_spec Num2Words.MAXVAL (decimal_value (d :: ds))) as [V|V];
      [|discriminate].
    intros H. inversion H. left. eauto.
  - cbn [bind result_monad]. intros H. inversion H. right. eauto.
Qed.

Lemma sub_numbers_raises (s : text) : forall prev e,
  sub_numbers prev s = Raise e ->
  (exists v, e = OverflowError v /\ (Num2Words.MAXVAL <= v)%Z)
  \/ (exists n, e = ValueError n /\ (int_max_str_digits < n)%nat).
Proof.
  induction s as [|c t Hc IH|d ds rest Hds Hrest IH] using run_ind; intros prev e H.
  - discriminate.
  - rewrite sub_numbers_nondigit in H by exact Hc.
    destruct (sub_numbers (Some c) t) as [out|e'] eqn:E; [discriminate|].
    cbn in H. inversion H; subst e'. exact (IH _ _ E).
  - rewrite sub_numbers_run in H by assumption.
    destruct (bounded prev rest).
    + destruct (reemplazar_numero (d :: ds)) as [w|e'] eqn:Ew.
      * destruct (sub_numbers (prev_after prev (d :: ds)) rest) as [out|e''] eqn:E;
          [discriminate|].
        cbn in H. inversion H; subst e''. exact (IH _ _ E).
      * cbn in H. inversion H; subst e'.
        destruct (reemplazar_numero_raises d ds e Hds Ew)
          as [(v & -> & V & _)|(n & -> & N & _)]; eauto.
    + destruct (sub_numbers (prev_after prev (d :: ds)) rest) as [out|e''] eqn:E;
        [discriminate|].
      cbn in H. inversion H; subst e''. exact (IH _ _ E).
Qed.

(** X4: the normaliser raises nothing but the two errors of the conversion:
    [OverflowError] from num2words, on a value of 10^27 or more, and
    [ValueError] from [int], on a run of more than 4300 digits. *)
Theorem normalize_raises_only_conversion_errors (x : text) (e : exn) :
  normalize x = Raise e ->
  (exists v, e = OverflowError v /\ (10 ^ 27 <= v)%Z)
  \/ (exists n, e = ValueError n /\ (4300 < n)%nat).
Proof.
  rewrite normalize_pairs. intros H.
  exact (sub_numbers_raises _ _ _ H).
Qed.

Lemma normalize_raises_only_conversion_errors_witness :
  (exists v, OverflowError (10 ^ 27) = OverflowError v /\ (10 ^ 27 <= v)%Z)
  \/ (exists n, OverflowError (10 ^ 27) = ValueError n /\ (4300 < n)%nat).
Proof.
  apply (normalize_raises_only_conversion_errors
           (str "pi = 1000000000000000000000000000")).
  vm_compute. reflexivity.
Defined.

(** ** More on the callback: leading zeros *)

Lemma decimal_value_zeros (k : nat) (ds : text) :
  decimal_value (repeat (chr 48) k ++ ds) = decimal_value ds.
Proof.
  induction k as [|k IH]; [reflexivity|].
  cbn [repeat app]. now rewrite decimal_value_leading_zero.
Qed.

Lemma forallb_zeros (k : nat) : forallb is_digit (repeat (chr 48) k) = true.
Proof. induction k as [|k IH]; [reflexivity | exact IH]. Qed.

(** X7: zeros in front of a run of digits do not change what
    [reemplazar_numero] returns, as long as the run with its zeros has at
    most 4300 digits; beyond that [int] answers [ValueError], whatever the
    value. *)
Theorem reemplazar_numero_leading_zeros (k : nat) (d : char) (ds : text) :
  forallb is_digit (d :: ds) = true ->
  (if (k + List.length (d :: ds) <=? int_max_str_digits)%nat
   then reemplazar_numero (repeat (chr 48) k ++ d :: ds) = reemplazar_numero (d :: ds)
   else reemplazar_numero (repeat (chr 48) k ++ d :: ds)
        = Raise (ValueError (k + List.length (d :: ds)))).
Proof.
  intros Hds.
  assert (Hall : forallb is_digit (repeat (chr 48) k ++ d :: ds) = true)
    by (now rewrite forallb_app, forallb_zeros, Hds).
  assert (Hlen : List.length (repeat (chr 48) k ++ d :: ds) = (k + List.length (d :: ds))%nat)
    by (now rewrite length_app, repeat_length).
  destruct (Nat.leb_spec (k + List.length (d :: ds)) int_max_str_digits) as [L|L].
  - destruct (repeat (chr 48) k ++ d :: ds) as [|z zs] eqn:E;
      [destruct k; discriminate|].
    rewrite !reemplazar_numero_value by (assumption || lia).
    now rewrite <- E, decimal_value_zeros.
  - unfold reemplazar_numero, py_int. rewrite Hall, Hlen.
    destruct (Nat.leb_spec (k + List.length (d :: ds)) int_max_str_digits); [lia|].
    now rewrite andb_false_r.
Qed.

Lemma reemplazar_numero_leading_zeros_witness :
  forallb is_digit (str "42") = true
  /\ reemplazar_numero (repeat (chr 48) 5 ++ str "42") = reemplazar_numero (str "42")
  /\ reemplazar_numero (str "42") = Return (str "cuarenta y dos").
Proof.
  split; [reflexivity|]. split; [|reflexivity].
  exact (reemplazar_numero_leading_zeros 5 (chr 52) (str "2") eq_refl).
Defined.

(** ** More on the service *)

Lemma startswith_app (prefix s : text) :
  startswith prefix s = true <-> exists r, s = prefix ++ r.
Proof.
  revert s. induction prefix as [|p prefix IH]; intros s.
  - split; [intros _; now exists s | reflexivity].
  - destruct s as [|c s]; cbn [startswith].
    + split; [discriminate | intros [r E]; discriminate].
    + rewrite andb_true_iff, N.eqb_eq, IH. split.
      * intros [-> [r ->]]. now exists r.
      * intros [r E]. inversion E. split; [reflexivity | now exists r].
Qed.

Lemma endswith_app (s suffix : text) :
  endswith s suffix = true <-> exists r, s = r ++ suffix.
Proof.
  unfold endswith. rewrite startswith_app. split.
  - intros [r E]. exists (rev r).
    rewrite <- (rev_involutive s), E, rev_app_distr. now rewrite rev_involutive.
  - intros [r ->]. exists (rev r). apply rev_app_distr.
Qed.

Section ServiceFacts.

Variables (world wave spectrogram float : Type).
Variable env : Collaborators world wave spectrogram float.

Lemma bind_returns (A B : Type) (c : M world A) (k : A -> M world B)
    (w w' : world) (b : B) :
  (x <- c ;; k x) w = (Return b, w') ->
  exists a w1, c w = (Return a, w1) /\ k a w1 = (Return b, w').
Proof.
  cbn [bind M_monad]. destruct (c w) as [[a|e] w1]; [eauto | discriminate].
Qed.

(** X8: when the text cannot be normalised, [infer] raises the
    normaliser's exception before the model is called: all that happened to
    the world is the first line of the log. *)
Theorem infer_raises_before_the_model (ref_audio_orig ref_text gen_text : text)
    (remove_silence : bool) (cross_fade_duration speed : float) (w : world) (e : exn) :
  normalize gen_text = Raise e ->
  infer env ref_audio_orig ref_text gen_text remove_silence cross_fade_duration speed w
  = (Raise e,
     snd (logger_info _ _ _ _ env (str "Iniciando el preprocesamiento del texto...") w)).
Proof.
  intros H. unfold infer, normalize_step, pure, act. cbn [bind M_monad].
  destruct (logger_info _ _ _ _ env _ w) as [[] w1]. now rewrite H.
Qed.

(** X9: [infer] gives the same outcome, in wave, sample rate, path and
    world, on a text and on what the normaliser returns for it: a text that
    was normalised beforehand is spoken the same way. *)
Theorem infer_on_normalized_text (ref_audio_orig ref_text gen_text normalized : text)
    (remove_silence : bool) (cross_fade_duration speed : float) (w : world) :
  normalize gen_text = Return normalized ->
  infer env ref_audio_orig ref_text normalized remove_silence cross_fade_duration speed w
  = infer env ref_audio_orig ref_text gen_text remove_silence cross_fade_duration speed w.
Proof.
  intros H. unfold infer, normalize_step, pure, act. cbn [bind M_monad].
  destruct (logger_info _ _ _ _ env _ w) as [[] w1].
  now rewrite H, (normalize_fixed _ _ H).
Qed.

(** X10: what [infer] returns comes from one call of [infer_process] on the
    normalised text, with the reference text as it was given: the sample rate
    is the one of that call, also after silence removal, and without silence
    removal the wave is the one of that call too. *)
Theorem infer_returns_what_the_model_gave (ref_audio_orig ref_text gen_text : text)
    (remove_silence : bool) (cross_fade_duration speed : float) (w w' : world)
    (final_wave : wave) (final_sample_rate : Z) (spectrogram_path : text) :
  infer env ref_audio_orig ref_text gen_text remove_silence cross_fade_duration speed w
  = (Return (final_wave, final_sample_rate, spectrogram_path), w') ->
  exists normalized w0 w1 model_wave combined_spectrogram,
    normalize gen_text = Return normalized
    /\ infer_process _ _ _ _ env ref_audio_orig ref_text normalized
         cross_fade_duration speed w0
       = (Return (model_wave, final_sample_rate, combined_spectrogram), w1)
    /\ (remove_silence = false -> final_wave = model_wave).
Proof.
  unfold infer. intros H.
  apply bind_returns in H as ([] & w0 & _ & H).
  apply bind_returns in H as (normalized & w0' & Hn & H).
  unfold normalize_step, pure in Hn. inversion Hn as [[Hn' Hw]]. subst w0'.
  apply bind_returns in H as ([[model_wave rate] spec] & w1 & Hp & H).
  apply bind_returns in H as (fw & w2 & Hs & H).
  apply bind_returns in H as (sp & w3 & _ & H).
  apply bind_returns in H as ([] & w4 & _ & H).
  apply bind_returns in H as ([] & w5 & _ & H).
  cbn [ret M_monad] in H. inversion H; subst.
  exists normalized, w0, w1, model_wave, spec.
  split; [exact Hn'|]. split; [exact Hp|].
  intros ->. cbn [ret M_monad] in Hs. now inversion Hs.
Qed.

(** X11: every response of the handler names the same file: whatever the
    request, the audio is written to and served from
    /app/generated_audio_files/generated_audio.wav, as audio/wav. *)
Theorem generate_audio_response_is_fixed (ref_audio : UploadFile)
    (ref_text gen_text : text) (remove_silence : bool)
    (cross_fade_duration speed : float) (w w' : world) (response : FileResponse) :
  generate_audio env ref_audio ref_text gen_text remove_silence
    cross_fade_duration speed w = (Return response, w') ->
  response = {| path := str "/app/generated_audio_files/generated_audio.wav";
                response_filename := str "generated_audio.wav";
                media_type := str "audio/wav" |}.
Proof.
  unfold generate_audio. intros H.
  apply bind_returns in H as (start_time & w0 & _ & H).
  unfold try_except in H.
  destruct (generate_audio_try env start_time ref_audio ref_text gen_text
              remove_silence cross_fade_duration speed w0) as [[r|e] w1] eqn:E.
  - inversion H; subst r w1. clear H.
    unfold generate_audio_try in E.
    apply bind_returns in E as ([] & w2 & _ & E).
    apply bind_returns in E as (tmp & w3 & _ & E).
    apply bind_returns in E as ([] & w4 & _ & E).
    apply bind_returns in E as ([] & w5 & _ & E).
    apply bind_returns in E as ([[fw rate] sp] & w6 & _ & E).
    apply bind_returns in E as ([] & w7 & _ & E).
    apply bind_returns in E as ([] & w8 & _ & E).
    apply bind_returns in E as (end_time & w9 & _ & E).
    apply bind_returns in E as ([] & w10 & _ & E).
    cbn [ret M_monad] in E. now inversion E.
  - unfold generate_audio_except, act, raise in H. cbn [bind M_monad] in H.
    destruct (logger_error _ _ _ _ env _ w1) as [[] w2]. discriminate.
Qed.

(** X12: a file name that does not end in ".wav" is turned down before
    anything is stored or computed: the world has only seen the clock and the
    error line of the log, and the detail of the 500 carries the text of the
    400 that was raised. *)
Theorem generate_audio_wrong_extension (ref_audio : UploadFile) (name : text)
    (ref_text gen_text : text) (remove_silence : bool)
    (cross_fade_duration speed : float) (w : world) :
  filename ref_audio = Some name -> endswith name (str ".wav") = false ->
  let refused := HTTPException 400 (str "El archivo de audio debe estar en formato WAV.") in
  let detail := error_prefix ++ exception_str _ _ _ _ env refused in
  generate_audio env ref_audio ref_text gen_text remove_silence
    cross_fade_duration speed w
  = (Raise (HTTPException 500 detail),
     snd (logger_error _ _ _ _ env detail (snd (time_time _ _ _ _ env w)))).
Proof.
  intros Hn He. cbn zeta.
  unfold generate_audio, act, try_except. cbn [bind M_monad].
  destruct (time_time _ _ _ _ env w) as [start_time w0]. cbn [snd].
  unfold generate_audio_try. rewrite Hn, He. cbn [negb].
  unfold raise at 1. cbn [bind M_monad].
  unfold generate_audio_except, act, raise. cbn [bind M_monad].
  now destruct (logger_error _ _ _ _ env _ w0) as [[] w1].
Qed.

(** X13: the two texts are checked after the upload has been stored: with
    an accepted file name and an empty ref_text or gen_text, the temporary
    file is created and written first, and only then is the request turned
    down; the model is not called. *)
Theorem generate_audio_empty_text_after_upload (ref_audio : UploadFile) (name : text)
    (ref_text gen_text : text) (remove_silence : bool)
    (cross_fade_duration speed : float) (w w1 w2 : world) (tmp_audio : text) :
  filename ref_audio = Some name -> endswith name (str ".wav") = true ->
  is_empty ref_text || is_empty gen_text = true ->
  named_temporary_file _ _ _ _ env (str ".wav") (snd (time_time _ _ _ _ env w))
  = (Return tmp_audio, w1) ->
  file_write _ _ _ _ env tmp_audio (file ref_audio) w1 = (Return tt, w2) ->
  let refused :=
    HTTPException 400
      (str "Ambos textos (de referencia y generaci" ++ [o_acute]
       ++ str "n) son obligatorios.") in
  let detail := error_prefix ++ exception_str _ _ _ _ env refused in
  generate_audio env ref_audio ref_text gen_text remove_silence
    cross_fade_duration speed w
  = (Raise (HTTPException 500 detail), snd (logger_error _ _ _ _ env detail w2)).
Proof.
  intros Hn He Ht Htmp Hw. cbn zeta.
  unfold generate_audio, act, try_except. cbn [bind M_monad].
  destruct (time_time _ _ _ _ env w) as [start_time w0]. cbn [snd] in Htmp.
  unfold generate_audio_try. rewrite Hn, He, Ht. cbn [negb].
  cbn [bind ret M_monad]. rewrite Htmp, Hw.
  unfold raise at 1.
  unfold generate_audio_except, act, raise. cbn [bind M_monad].
  now destruct (logger_error _ _ _ _ env _ w2) as [[] w3].
Qed.

End ServiceFacts.

(** X14: the handler accepts a file name exactly when it is some text
    followed by ".wav" in lower case.  Any other name is refused before the
    temporary file is asked for; a name of that form gets as far as the
    temporary file, and when that cannot be created the client is told so
    with status 500. *)
Theorem wav_file_name_check (world wave spectrogram float : Type)
    (env : Collaborators world wave spectrogram float)
    (ref_audio : UploadFile) (name : text)
    (ref_text gen_text : text) (remove_silence : bool)
    (cross_fade_duration speed : float) (w : world) :
  filename ref_audio = Some name ->
  let refused := HTTPException 400 (str "El archivo de audio debe estar en formato WAV.") in
  let told (e : exn) := error_prefix ++ exception_str _ _ _ _ env e in
  ((forall stem, name <> stem ++ str ".wav") ->
   generate_audio env ref_audio ref_text gen_text remove_silence
     cross_fade_duration speed w
   = (Raise (HTTPException 500 (told refused)),
      snd (logger_error _ _ _ _ env (told refused) (snd (time_time _ _ _ _ env w)))))
  /\ (forall (stem : text) (e : exn) (w1 : world),
        name = stem ++ str ".wav" ->
        named_temporary_file _ _ _ _ env (str ".wav") (snd (time_time _ _ _ _ env w))
        = (Raise e, w1) ->
        generate_audio env ref_audio ref_text gen_text remove_silence
          cross_fade_duration speed w
        = (Raise (HTTPException 500 (told e)),
           snd (logger_error _ _ _ _ env (told e) w1))).
Proof.
  intros Hn. cbn zeta. split.
  - intros Hs.
    assert (He : endswith name (str ".wav") = false).
    { destruct (endswith name (str ".wav")) eqn:E; [|reflexivity].
      apply endswith_app in E as [stem E]. now destruct (Hs stem). }
    unfold generate_audio, act, try_except. cbn [bind M_monad].
    destruct (time_time _ _ _ _ env w) as [start_time w0]. cbn [snd].
    unfold generate_audio_try. rewrite Hn, He. cbn [negb].
    unfold raise at 1. cbn [bind M_monad].
    unfold generate_audio_except, act, raise. cbn [bind M_monad].
    now destruct (logger_error _ _ _ _ env _ w0) as [[] w1].
  - intros stem e w1 Hs Htmp.
    assert (He : endswith name (str ".wav") = true)
      by (apply endswith_app; now exists stem).
    unfold generate_audio, act, try_except. cbn [bind M_monad].
    destruct (time_time _ _ _ _ env w) as [start_time w0]. cbn [snd] in Htmp.
    unfold generate_audio_try. rewrite Hn, He. cbn [negb].
    cbn [bind ret M_monad]. rewrite Htmp.
    unfold generate_audio_except, act, raise. cbn [bind M_monad].
    now destruct (logger_error _ _ _ _ env _ w1) as [[] w2].
Qed.

Lemma wav_file_name_check_witness :
  generate_audio full_disk_env {| filename := Some (str "VOZ.WAV"); file := [] |}
    (str "hola") (str "mundo") false 0%Z 1%Z []
  = (Raise (HTTPException 500
       (str "Error al generar el audio: 400: El archivo de audio debe estar en formato WAV.")),
     [str "Error al generar el audio: 400: El archivo de audio debe estar en formato WAV."])
  /\ generate_audio full_disk_env {| filename := Some (str ".wav"); file := [] |}
       (str "hola") (str "mundo") false 0%Z 1%Z []
     = (Raise (HTTPException 500
          (str "Error al generar el audio: [Errno 28] No space left on device")),
        [str "Error al generar el audio: [Errno 28] No space left on device"]).
Proof.
  split.
  - refine (proj1 (wav_file_name_check _ _ _ _ full_disk_env
                     {| filename := Some (str "VOZ.WAV"); file := [] |} (str "VOZ.WAV")
                     (str "hola") (str "mundo") false 0%Z 1%Z [] eq_refl) _).
    intros stem E.
    assert (H : endswith (str "VOZ.WAV") (str ".wav") = true)
      by (apply endswith_app; now exists stem).
    vm_compute in H. discriminate.
  - exact (proj2 (wav_file_name_check _ _ _ _ full_disk_env
                    {| filename := Some (str ".wav"); file := [] |} (str ".wav")
                    (str "hola") (str "mundo") false 0%Z 1%Z [] eq_refl)
             [] (OtherException (str "[Errno 28] No space left on device")) []
             eq_refl eq_refl).
Defined.

Lemma infer_raises_before_the_model_witness :
  infer demo_env (str "/tmp/ref.wav") (str "hola")
    (str "1000000000000000000000000000") false 0%Z 1%Z []
  = (Raise (OverflowError (10 ^ 27)),
     [str "Iniciando el preprocesamiento del texto..."]).
Proof.
  exact (infer_raises_before_the_model _ _ _ _ demo_env (str "/tmp/ref.wav") (str "hola")
           (str "1000000000000000000000000000") false 0%Z 1%Z []
           (OverflowError (10 ^ 27)) eq_refl).
Defined.

Lemma infer_on_normalized_text_witness :
  normalize (str "Sala 5") = Return (str "sala cinco")
  /\ infer demo_env (str "/tmp/ref.wav") (str "hola") (str "sala cinco") true 0%Z 1%Z []
     = infer demo_env (str "/tmp/ref.wav") (str "hola") (str "Sala 5") true 0%Z 1%Z [].
Proof.
  split; [reflexivity|].
  exact (infer_on_normalized_text _ _ _ _ demo_env (str "/tmp/ref.wav") (str "hola")
           (str "Sala 5") (str "sala cinco") true 0%Z 1%Z [] eq_refl).
Defined.

Lemma infer_returns_what_the_model_gave_witness :
  exists normalized w0 w1 model_wave combined_spectrogram,
    normalize (str "Sala 5") = Return normalized
    /\ infer_process _ _ _ _ demo_env (str "/tmp/ref.wav") (str "hola") normalized
         0%Z 1%Z w0
       = (Return (model_wave, 24000%Z, combined_spectrogram), w1)
    /\ (false = false -> tt = model_wave).
Proof.
  eapply (infer_returns_what_the_model_gave _ _ _ _ demo_env (str "/tmp/ref.wav")
            (str "hola") (str "Sala 5") false 0%Z 1%Z []).
  reflexivity.
Defined.

Lemma generate_audio_response_is_fixed_witness :
  exists w',
    generate_audio demo_env {| filename := Some (str "voz.wav"); file := [] |}
      (str "hola") (str "Sala 5") false 0%Z 1%Z []
    = (Return {| path := str "/app/generated_audio_files/generated_audio.wav";
                 response_filename := str "generated_audio.wav";
                 media_type := str "audio/wav" |}, w').
Proof.
  destruct (generate_audio demo_env {| filename := Some (str "voz.wav"); file := [] |}
              (str "hola") (str "Sala 5") false 0%Z 1%Z []) as [[response|e] w'] eqn:E.
  - exists w'.
    now rewrite (generate_audio_response_is_fixed _ _ _ _ demo_env _ _ _ _ _ _ _ _ _ E).
  - vm_compute in E. discriminate.
Defined.

Lemma generate_audio_wrong_extension_witness :
  generate_audio demo_env {| filename := Some (str "voz.mp3"); file := [] |}
    (str "hola") (str "mundo") false 0%Z 1%Z []
  = (Raise (HTTPException 500
       (str "Error al generar el audio: 400: El archivo de audio debe estar en formato WAV.")),
     [str "Error al generar el audio: 400: El archivo de audio debe estar en formato WAV."]).
Proof.
  exact (generate_audio_wrong_extension _ _ _ _ demo_env
           {| filename := Some (str "voz.mp3"); file := [] |} (str "voz.mp3")
           (str "hola") (str "mundo") false 0%Z 1%Z [] eq_refl eq_refl).
Defined.

Lemma generate_audio_empty_text_after_upload_witness :
  exists detail,
    generate_audio demo_env {| filename := Some (str "voz.wav"); file := [] |}
      (str "hola") [] false 0%Z 1%Z []
    = (Raise (HTTPException 500 detail), [detail]).
Proof.
  eexists.
  exact (generate_audio_empty_text_after_upload _ _ _ _ demo_env
           {| filename := Some (str "voz.wav"); file := [] |} (str "voz.wav")
           (str "hola") [] false 0%Z 1%Z [] [] [] (str "/tmp/tmp0.wav")
           eq_refl eq_refl eq_refl eq_refl eq_refl).
Defined.

(** X15: a response is only returned after the audio was written: the
    wave and the sample rate that [infer] (under its decorator) returned are
    the ones handed to [sf.write] on the fixed path, once the output directory
    is there, and that write succeeded. *)
Theorem generate_audio_writes_what_infer_returned
    (world wave spectrogram float : Type)
    (env : Collaborators world wave spectrogram float) (ref_audio : UploadFile)
    (ref_text gen_text : text) (remove_silence : bool)
    (cross_fade_duration speed : float) (w w' : world) (response : FileResponse) :
  generate_audio env ref_audio ref_text gen_text remove_silence
    cross_fade_duration speed w = (Return response, w') ->
  exists ref_audio_path final_wave final_sample_rate spectrogram_path w1 w2 w3 w4,
    gpu_decorator env (infer env) ref_audio_path ref_text gen_text remove_silence
      cross_fade_duration speed w1
    = (Return (final_wave, final_sample_rate, spectrogram_path), w2)
    /\ os_makedirs _ _ _ _ env (str "/app/generated_audio_files") w2 = (Return tt, w3)
    /\ sf_write _ _ _ _ env (str "/app/generated_audio_files/generated_audio.wav")
         final_wave final_sample_rate w3 = (Return tt, w4).
Proof.
  unfold generate_audio. intros H.
  apply bind_returns in H as (start_time & w0 & _ & H).
  unfold try_except in H.
  destruct (generate_audio_try env start_time ref_audio ref_text gen_text
              remove_silence cross_fade_duration speed w0) as [[r|e] wt] eqn:E.
  - clear H. unfold generate_audio_try in E.
    apply bind_returns in E as ([] & wa & _ & E).
    apply bind_returns in E as (tmp & wb & _ & E).
    apply bind_returns in E as ([] & wc & _ & E).
    apply bind_returns in E as ([] & w1 & _ & E).
    apply bind_returns in E as ([[fw rate] sp] & w2 & Hi & E).
    apply bind_returns in E as ([] & w3 & Hm & E).
    apply bind_returns in E as ([] & w4 & Hs & E).
    exists tmp, fw, rate, sp, w1, w2, w3, w4. auto.
  - unfold generate_audio_except, act, raise in H. cbn [bind M_monad] in H.
    destruct (logger_error _ _ _ _ env _ wt) as [[] wz]. discriminate.
Qed.

Lemma generate_audio_writes_what_infer_returned_witness :
  exists ref_audio_path final_wave final_sample_rate spectrogram_path w1 w2 w3 w4,
    gpu_decorator demo_env (infer demo_env) ref_audio_path (str "hola") (str "Sala 5")
      false 0%Z 1%Z w1
    = (Return (final_wave, final_sample_rate, spectrogram_path), w2)
    /\ os_makedirs _ _ _ _ demo_env (str "/app/generated_audio_files") w2 = (Return tt, w3)
    /\ sf_write _ _ _ _ demo_env (str "/app/generated_audio_files/generated_audio.wav")
         final_wave final_sample_rate w3 = (Return tt, w4).
Proof.
  eapply (generate_audio_writes_what_infer_returned _ _ _ _ demo_env
            {| filename := Some (str "voz.wav"); file := [] |}
            (str "hola") (str "Sala 5") false 0%Z 1%Z []).
  reflexivity.
Defined.
